(** * Offline cache synchronisation hooks of frappe-react-sdk

    A shallow embedding of the three offline hooks of [src/lib/index.tsx]
    ([useFrappeGetDocOffline], [useFrappeGetDocListOffline],
    [useFrappeGetCallOffline]) together with the helpers they call, and the
    properties of the staleness decision, the store reconciliation and the
    projected result.

    A hook is modelled by what one render computes from its props, its
    React state ([lastFetched], [shouldLoad]) and the values the request
    hooks hand back: the keys of the requests, the returned object, and the
    two effects.  Effects are run after a render when one of their
    dependencies changed; they produce state updates and operations on the
    IndexedDB table [docs], a finite map from [_id] to records.  A run of
    a hook is a sequence of renders, the answer of the table to the read
    issued on mount, and calls of the two callbacks of the result.

    The built-in functions of JavaScript the helpers call are parameters
    ([JSRuntime]); a reference runtime serves to evaluate the hooks on
    concrete inputs. *)

From Stdlib Require Import ZArith String Ascii List Bool Lia.
From stdpp Require Import base decidable option list strings gmap pretty.

Local Open Scope string_scope.
Local Open Scope Z_scope.

#[local] Set Warnings "-register-all".

(** ** JavaScript values *)

(** The values that travel as payloads ([data: any]). *)
Inductive JSON : Type :=
| JNull
| JBool (b : bool)
| JNum (n : Z)
| JStr (s : string)
| JArr (items : list JSON)
| JObj (props : list (string * JSON)).

Fixpoint JSON_eq_dec (a b : JSON) {struct a} : {a = b} + {a <> b}.
Proof.
  decide equality.
  - apply bool_dec.
  - apply Z.eq_dec.
  - apply String.string_dec.
  - apply (List.list_eq_dec JSON_eq_dec).
  - refine (List.list_eq_dec _ _ _).
    intros [k1 v1] [k2 v2].
    destruct (String.string_dec k1 k2) as [->|Hk]; [|right; congruence].
    destruct (JSON_eq_dec v1 v2) as [->|Hv]; [left; reflexivity|right; congruence].
Defined.

#[global] Instance JSON_eq_decision : EqDecision JSON := JSON_eq_dec.

(** [if (v)] on a value that is not [undefined]. *)
Definition truthy (v : JSON) : bool :=
  match v with
  | JNull => false
  | JBool b => b
  | JNum n => negb (n =? 0)
  | JStr s => negb (String.eqb s "")
  | JArr _ => true
  | JObj _ => true
  end.

(** [if (s)] on a string: the empty string is falsy. *)
Definition truthy_string (s : string) : bool := negb (String.eqb s "").

(** [if (x)] on a string that may be [undefined]. *)
Definition truthy_field (x : option string) : bool :=
  match x with
  | Some s => truthy_string s
  | None => false
  end.

(** [if (n)] on an integral number. *)
Definition truthy_number (n : Z) : bool := negb (n =? 0).

(** The own enumerable properties of an array: its indices, in order. *)
Definition index_props {A} (l : list A) : list (string * A) :=
  imap (fun i x => (pretty i, x)) l.

(** The characters of a string, each as a one-character string. *)
Fixpoint chars (s : string) : list JSON :=
  match s with
  | EmptyString => []
  | String c s' => JStr (String c EmptyString) :: chars s'
  end.

(** The object literal [{ ...v }]: a fresh plain object carrying the own
    enumerable properties of [v].  An object is copied; an array gives an
    object keyed by its indices; a primitive contributes nothing, except a
    string, which is spread by character. *)
Definition object_spread (v : JSON) : JSON :=
  match v with
  | JObj props => JObj props
  | JArr items => JObj (index_props items)
  | JStr s => JObj (index_props (chars s))
  | JNull | JBool _ | JNum _ => JObj []
  end.

(** ** Exceptions *)

Inductive exn : Type := TypeError | RangeError.

(** The completion of a piece of code: normal with a value, or abrupt. *)
Inductive Completion (A : Type) : Type :=
| Ok (a : A)
| Throw (e : exn).
Arguments Ok {A} a.
Arguments Throw {A} e.

Definition bind {A B} (m : Completion A) (k : A -> Completion B) : Completion B :=
  match m with
  | Ok a => k a
  | Throw e => Throw e
  end.

Notation "x <-! m ; k" := (bind m (fun x => k))
  (at level 100, m at next level, right associativity).

(** ** The JavaScript runtime

    The built-in functions the helpers call.  They belong to the platform,
    not to the repository, so the development is parametric in them.
    [number] stands for IEEE doubles; time values are integral numbers of
    milliseconds, or [None] for [NaN]. *)
Class JSRuntime : Type := {
  number : Type;
  (** a numeric literal *)
  number_of_Z : Z -> number;
  (** [a - b] *)
  number_sub : number -> number -> number;
  (** unary [+x] on a string or [undefined] *)
  unary_plus : option string -> number;
  (** [parseInt(x)] on a string or [undefined] *)
  parseInt : option string -> number;
  (** [new Date(y, m, d, h, mi, s).getTime()], in the local zone *)
  Date_local : number -> number -> number -> number -> number -> number -> option Z;
  (** [d.toISOString()] of a valid date *)
  Date_toISOString : Z -> string;
  (** [d.toTimeString()] of a valid date *)
  Date_toTimeString : Z -> string;
  (** [encodeURIComponent(v)], which first converts [v] to a string *)
  encodeURIComponent : JSON -> string;
  (** [JSON.stringify(v)] *)
  JSON_stringify : JSON -> string;
}.

(** ** Strings *)

(** [s.split(sep)] for a one-character separator. *)
Fixpoint split (sep : ascii) (s : string) : list string :=
  match s with
  | EmptyString => [EmptyString]
  | String c s' =>
      match split sep s' with
      | [] => []
      | w :: ws =>
          if Ascii.eqb c sep then EmptyString :: w :: ws else String c w :: ws
      end
  end.

(** [x.split(sep)] where [x] may be [undefined]: reading a property of
    [undefined] throws. *)
Definition method_split (x : option string) (sep : ascii) : Completion (list string) :=
  match x with
  | Some s => Ok (split sep s)
  | None => Throw TypeError
  end.

(** [a.join(sep)] *)
Fixpoint join (sep : string) (l : list string) : string :=
  match l with
  | [] => ""
  | [x] => x
  | x :: rest => x ++ sep ++ join sep rest
  end.

(** ** Dates *)

(** A [Date] object: its identity and its time value ([None] when the date
    is invalid). *)
Record Date : Type := { date_ref : nat; date_time : option Z }.

(** The argument [lastModified?: string | Date]. *)
Inductive DateArg : Type :=
| DateString (s : string)
| DateObject (d : Date).

#[global] Instance Date_eq_decision : EqDecision Date.
Proof. solve_decision. Defined.
#[global] Instance DateArg_eq_decision : EqDecision DateArg.
Proof. solve_decision. Defined.

(** [Math.floor] of a time value, which is integral already. *)
Definition Math_floor (t : option Z) : option Z := t.

(** [a > b] on time values: anything compared with [NaN] is false. *)
Definition number_gt (a b : option Z) : bool :=
  match a, b with
  | Some x, Some y => y <? x
  | _, _ => false
  end.

Section Helpers.
Context `{RT : JSRuntime}.

Definition convertDateToMiliseconds (dateStr : string) : Completion (option Z) :=
  let parts := split " " dateStr in
  let dateComponents := parts !! 0%nat in
  let timeComponents := parts !! 1%nat in
  ymd <-! method_split dateComponents "-";
  hms <-! method_split timeComponents ":";
  let year := ymd !! 0%nat in
  let month := ymd !! 1%nat in
  let day := ymd !! 2%nat in
  let hours := hms !! 0%nat in
  let minutes := hms !! 1%nat in
  let seconds := hms !! 2%nat in
  let date := Date_local (unary_plus year)
                         (number_sub (parseInt month) (number_of_Z 1))
                         (unary_plus day) (unary_plus hours)
                         (unary_plus minutes) (unary_plus seconds) in
  let timestampInMiliseconds := Math_floor date in
  Ok timestampInMiliseconds.

Definition convertDateToMilisecondsForGetCall (date : DateArg) : Completion (option Z) :=
  match date with
  | DateString s => convertDateToMiliseconds s
  | DateObject d => Ok (Math_floor (date_time d))
  end.

(** [d.toISOString()] throws on an invalid date. *)
Definition formatedTimestamp (d : option Z) : Completion string :=
  match d with
  | None => Throw RangeError
  | Some t =>
      date <-! Ok (default "" (split "T" (Date_toISOString t) !! 0%nat));
      time <-! Ok (default "" (split " " (Date_toTimeString t) !! 0%nat));
      Ok (date ++ " " ++ time)
  end.

Definition checkTypeOfDate (date : DateArg) : Completion string :=
  match date with
  | DateString s => Ok s
  | DateObject d => formatedTimestamp (date_time d)
  end.

End Helpers.

(** ** The local store (db.ts)

    The Dexie table [docs], keyed by [_id].  A record follows
    [lastFetchType]; [name] and [count] are optional because the hooks
    write [name?: string] and a count that may not have arrived yet. *)
Module db.
Record lastFetchType : Type := {
  _id : string;
  name : option string;
  doctype : string;
  lastFetchedOn : Z;
  modified : string;
  count : option Z;
  data : JSON;
}.

#[global] Instance lastFetchType_eq_decision : EqDecision lastFetchType.
Proof. solve_decision. Defined.
End db.
Import db.

Abbreviation Store := (gmap string lastFetchType).

(** What an effect or a callback does: a state update of the hook, or an
    operation on the table. *)
Inductive Action : Type :=
| SetShouldLoad (b : bool)
| DbPut (r : lastFetchType)
| DbDelete (id : string).

(** [table.put(r)] and [table.delete(id)]. *)
Definition store_action (a : Action) (tbl : Store) : Store :=
  match a with
  | SetShouldLoad _ => tbl
  | DbPut r => <[_id r := r]> tbl
  | DbDelete id => delete id tbl
  end.

Definition store_actions (acts : list Action) (tbl : Store) : Store :=
  foldl (fun tbl a => store_action a tbl) tbl acts.

(** The value of [shouldLoad] after the updates in [acts]. *)
Definition shouldLoad_action (a : Action) (shouldLoad : bool) : bool :=
  match a with
  | SetShouldLoad b => b
  | _ => shouldLoad
  end.

Definition shouldLoad_actions (acts : list Action) (shouldLoad : bool) : bool :=
  foldl (fun s a => shouldLoad_action a s) shouldLoad acts.

(** The state of [useGetLastFetched]: [null] while the read of the table is
    pending, [undefined] when the table has no record, the record
    otherwise. *)
Inductive LastFetched : Type :=
| LFNull
| LFUndefined
| LFRecord (r : lastFetchType).

#[global] Instance LastFetched_eq_decision : EqDecision LastFetched.
Proof. solve_decision. Defined.

(** [lastFetched !== undefined && lastFetched !== null] *)
Definition lastFetchExist (lastFetched : LastFetched) : bool :=
  match lastFetched with
  | LFRecord _ => true
  | LFNull | LFUndefined => false
  end.

(** [lastFetched?.modified] *)
Definition modified_of (lastFetched : LastFetched) : option string :=
  match lastFetched with
  | LFRecord r => Some (modified r)
  | LFNull | LFUndefined => None
  end.

(** [lastFetched?.data] *)
Definition data_of (lastFetched : LastFetched) : option JSON :=
  match lastFetched with
  | LFRecord r => Some (data r)
  | LFNull | LFUndefined => None
  end.

(** The answer of [db.table("docs").get(id)]. *)
Definition table_get (tbl : Store) (id : string) : LastFetched :=
  match tbl !! id with
  | Some r => LFRecord r
  | None => LFUndefined
  end.

(** ** React effects

    [useEffect(f, deps)] runs [f] after the first render and after every
    render in which a dependency differs from its value at the previous
    render.  The fetch primitive hands back the same object as long as the
    value it holds is unchanged, so the comparison is on values. *)
Definition deps_changed {D} `{EqDecision D} (prev : option D) (cur : D) : bool :=
  match prev with
  | None => true
  | Some p => negb (bool_decide (p = cur))
  end.

(** ** The fetch primitive (useSWR)

    The request hooks pass [swrKey === undefined ? <request URL> : swrKey]
    to [useSWR].  The offline hooks pass either [undefined], which selects
    the request's own key, or [null], which disables the request: nothing
    is fetched and nothing is returned. *)
Inductive SWRKey : Type := KeyUndefined | KeyNull.

Record Error : Type := { error_message : string }.

#[global] Instance Error_eq_decision : EqDecision Error.
Proof. solve_decision. Defined.

Record SWRResponse (A : Type) : Type := {
  swr_data : option A;
  swr_error : option Error;
  swr_isLoading : bool;
  swr_isValidating : bool;
}.
Arguments swr_data {A} _.
Arguments swr_error {A} _.
Arguments swr_isLoading {A} _.
Arguments swr_isValidating {A} _.

Definition swr_disabled {A} : SWRResponse A :=
  {| swr_data := None; swr_error := None;
     swr_isLoading := false; swr_isValidating := false |}.

(** [remote] is what the primitive holds for the request's key. *)
Definition useSWR {A} (swrKey : SWRKey) (remote : SWRResponse A) : SWRResponse A :=
  match swrKey with
  | KeyUndefined => remote
  | KeyNull => swr_disabled
  end.

(** Whether the request behind a key is issued at all. *)
Definition fetch_issued (swrKey : SWRKey) : bool :=
  match swrKey with
  | KeyUndefined => true
  | KeyNull => false
  end.

(** [c ? undefined : null] *)
Definition key_when (c : bool) : SWRKey := if c then KeyUndefined else KeyNull.

(** Truthiness of [hasPermission: boolean | undefined]. *)
Definition is_true (b : option bool) : bool := default false b.

(** ** Errors and results *)

Record CustomError : Type := {
  httpStatus : Z;
  httpStatusText : string;
  message : string;
  exception : string;
}.

(** The [error] field of a result: the error of the request, or the
    [CustomError] the hook builds. *)
Inductive ErrorValue : Type :=
| RequestError (e : Error)
| Custom (c : CustomError).

Record OfflineResult : Type := {
  isLoadedFromServer : bool;
  result_data : option JSON;
  result_error : option ErrorValue;
  isLoading : bool;
  isValidating : bool;
}.

(** [new CustomError(403, "FORBIDDEN", "there was an error",
    `frappe.exceptions.PermissionError: No permission for ${doctype}`)] *)
Definition permission_error (doctype : string) : CustomError :=
  {| httpStatus := 403;
     httpStatusText := "FORBIDDEN";
     message := "there was an error";
     exception := "frappe.exceptions.PermissionError: No permission for " ++ doctype |}.

(** A value interpolated in a template literal. *)
Definition template (x : option string) : string := default "undefined" x.

(** What happens to a mounted hook.  The read of the table is issued by the
    effect of [useGetLastFetched] at the first render and answered once;
    [mutate] and [delete] are the callbacks of the returned object.  The
    events [ForceRefresh] and [ForceDelete] are calls of the callbacks of
    the current state, that is of a render made since the state last
    changed.  A callback kept from an earlier render reads the [shouldLoad]
    and [lastFetchExist] of that render: on the state [st], [mutate] is
    [update st (forceRefresh seen)] and [delete] runs [forceDelete seen],
    where [seen] is the state of the render that created it. *)
Inductive Event (Env : Type) : Type :=
| Render (env : Env)      (** a render with the given surroundings, then its effects *)
| StoreAnswer             (** the read of the table issued on mount resolves *)
| ForceRefresh            (** the caller invokes [mutate] *)
| ForceDelete.            (** the caller invokes [delete] *)
Arguments Render {Env} env.
Arguments StoreAnswer {Env}.
Arguments ForceRefresh {Env}.
Arguments ForceDelete {Env}.

(** ** useFrappeGetDocOffline *)

(** A fetched document: [FrappeDoc<T>] has a [modified] string among its
    properties. *)
Record FrappeDoc : Type := {
  doc_modified : string;
  doc_fields : list (string * JSON);
}.

#[global] Instance FrappeDoc_eq_decision : EqDecision FrappeDoc.
Proof. solve_decision. Defined.

(** The document as a plain value. *)
Definition FrappeDoc_value (d : FrappeDoc) : JSON :=
  JObj (("modified", JStr (doc_modified d)) :: doc_fields d).

(** [{ message: { has_permission } }] *)
Record PermissionData : Type := { has_permission : bool }.

(** [{ message: { modified } }], where the field may be missing. *)
Record ModifiedData : Type := { message_modified : option string }.

#[global] Instance ModifiedData_eq_decision : EqDecision ModifiedData.
Proof. solve_decision. Defined.

Module Doc.

(** What surrounds one render: the data the fetch primitive holds for
    each of the three requests, and the clock read by [new Date()]. *)
Record Env : Type := {
  permission : option PermissionData;
  get_value : option ModifiedData;
  get_doc : SWRResponse FrappeDoc;
  now : Z;
}.

Record State : Type := {
  lastFetched : LastFetched;
  shouldLoad : bool;
  (** the dependencies of the two effects at the previous render *)
  sync_deps : option (LastFetched * option ModifiedData * option bool * bool);
  store_deps : option (option FrappeDoc);
}.

Definition initial : State :=
  {| lastFetched := LFNull; shouldLoad := false;
     sync_deps := None; store_deps := None |}.

Section Hook.
Variable doctype : string.
Variable docname : option string.

(** [`${doctype}_${name}`] *)
Definition id : string := doctype ++ "_" ++ template docname.

(** [permission?.message.has_permission] *)
Definition hasPermission (env : Env) : option bool :=
  has_permission <$> permission env.

(** The key of the [get_value] request:
    [lastFetchExist && hasPermission ? undefined : null] *)
Definition modified_key (st : State) (env : Env) : SWRKey :=
  key_when (lastFetchExist (lastFetched st) && is_true (hasPermission env)).

Definition modified_data (st : State) (env : Env) : option ModifiedData :=
  match modified_key st env with
  | KeyUndefined => get_value env
  | KeyNull => None
  end.

(** The first effect: decide whether to load from the server.
    [field] is [modified.message.modified], read only behind the guard
    [modified &&]; [cached] is [lastFetched?.modified]. *)
Definition sync_effect (lastFetched : LastFetched)
    (modified : option ModifiedData) (hasPermission : option bool)
    : list Action :=
  let field := modified ≫= message_modified in
  let cached := modified_of lastFetched in
  if negb (is_true hasPermission) then
    if lastFetchExist lastFetched then [DbDelete id] else []
  else if bool_decide (lastFetched = LFUndefined) then
    [SetShouldLoad true]
  else if lastFetchExist lastFetched
          && bool_decide (is_Some modified)
          && truthy_field field
          && negb (bool_decide (field = cached)) then
    [SetShouldLoad true]
  else if lastFetchExist lastFetched
          && bool_decide (is_Some modified)
          && bool_decide (field = None) then
    [SetShouldLoad true]
  else [].

(** The key of the full fetch: [shouldLoad && hasPermission ? undefined : null] *)
Definition doc_key (st : State) (env : Env) : SWRKey :=
  key_when (shouldLoad st && is_true (hasPermission env)).

Definition doc_response (st : State) (env : Env) : SWRResponse FrappeDoc :=
  useSWR (doc_key st env) (get_doc env).

(** The second effect: store what was fetched from the server. *)
Definition store_effect (data : option FrappeDoc) (error : option Error)
    (lastFetchExist : bool) (now : Z) : list Action :=
  match data with
  | Some d =>
      [DbPut {| _id := id;
                lastFetchedOn := now;
                modified := doc_modified d;
                name := docname;
                db.doctype := doctype;
                data := object_spread (FrappeDoc_value d);
                count := Some 1 |}]
  | None =>
      if bool_decide (is_Some error) && lastFetchExist
      then [DbDelete id] else []
  end.

Definition forceRefresh (st : State) : list Action :=
  if shouldLoad st then [] else [SetShouldLoad true].

Definition forceDelete (st : State) : list Action :=
  SetShouldLoad false ::
  (if lastFetchExist (lastFetched st) then [DbDelete id] else []).

(** The returned object. *)
Definition result (st : State) (env : Env) : OfflineResult :=
  let swr := doc_response st env in
  {| isLoadedFromServer := shouldLoad st;
     result_data :=
       if shouldLoad st then FrappeDoc_value <$> swr_data swr
       else data_of (lastFetched st);
     result_error :=
       if is_true (hasPermission env) then RequestError <$> swr_error swr
       else Some (Custom (permission_error doctype));
     isLoading :=
       if shouldLoad st then swr_isLoading swr
       else bool_decide (lastFetched st = LFUndefined);
     isValidating :=
       if shouldLoad st then swr_isValidating swr else false |}.

(** The effects a render schedules, given the dependencies recorded at
    the previous render. *)
Definition effects (st : State) (env : Env) : list Action :=
  let lf := lastFetched st in
  let modified := modified_data st env in
  let perm := hasPermission env in
  let swr := doc_response st env in
  (if deps_changed (sync_deps st) (lf, modified, perm, lastFetchExist lf)
   then sync_effect lf modified perm else []) ++
  (if deps_changed (store_deps st) (swr_data swr)
   then store_effect (swr_data swr) (swr_error swr) (lastFetchExist lf) (now env)
   else []).

Definition commit (st : State) (env : Env) (acts : list Action) : State :=
  let lf := lastFetched st in
  {| lastFetched := lf;
     shouldLoad := shouldLoad_actions acts (shouldLoad st);
     sync_deps := Some (lf, modified_data st env, hasPermission env, lastFetchExist lf);
     store_deps := Some (swr_data (doc_response st env)) |}.

Definition update (st : State) (acts : list Action) : State :=
  {| lastFetched := lastFetched st;
     shouldLoad := shouldLoad_actions acts (shouldLoad st);
     sync_deps := sync_deps st;
     store_deps := store_deps st |}.

Definition step (ev : Event Env) (c : State * Store) : State * Store :=
  let (st, tbl) := c in
  match ev with
  | Render env =>
      let acts := effects st env in
      (commit st env acts, store_actions acts tbl)
  | StoreAnswer =>
      match lastFetched st, sync_deps st with
      | LFNull, Some _ =>
          ({| lastFetched := table_get tbl id;
              shouldLoad := shouldLoad st;
              sync_deps := sync_deps st;
              store_deps := store_deps st |}, tbl)
      | _, _ => (st, tbl)
      end
  | ForceRefresh =>
      let acts := forceRefresh st in
      (update st acts, store_actions acts tbl)
  | ForceDelete =>
      let acts := forceDelete st in
      (update st acts, store_actions acts tbl)
  end.

Fixpoint run (evs : list (Event Env)) (c : State * Store) : State * Store :=
  match evs with
  | [] => c
  | ev :: evs' => run evs' (step ev c)
  end.

End Hook.
End Doc.

(** ** Query strings *)

Record OrderBy : Type := { field : string; order : option string }.

(** [GetDocListArgs]: every member is optional. *)
Record GetDocListArgs : Type := {
  fields : option (list string);
  filters : option (list JSON);
  orFilters : option (list JSON);
  limit_start : option Z;
  limit : option Z;
  orderBy : option OrderBy;
  asDict : option bool;
}.

(** [Record<string, any>], its properties in enumeration order. *)
Definition Params : Type := list (string * JSON).

(** [`${params}`]: an object is rendered by [Object.prototype.toString]. *)
Definition template_params (params : option Params) : string :=
  match params with
  | Some _ => "[object Object]"
  | None => "undefined"
  end.

Section QueryStrings.
Context `{RT : JSRuntime}.

Definition encodeQueryData (data : Params) : string :=
  let ret := map (fun '(d, v) => encodeURIComponent (JStr d) ++ "=" ++ encodeURIComponent v) data in
  join "&" ret.

(** One optional argument of the query string: appended when truthy. *)
Definition append_when {A} (x : option A) (is_truthy : A -> bool)
    (piece : A -> string) (queryString : string) : string :=
  match x with
  | Some a => if is_truthy a then queryString ++ piece a else queryString
  | None => queryString
  end.

Definition getDocListQueryString (args : option GetDocListArgs) : string :=
  let queryString := "" in
  let queryString :=
    append_when (args ≫= fields) (fun _ => true)
      (fun f => "fields=" ++ JSON_stringify (JArr (JStr <$> f)) ++ "&") queryString in
  let queryString :=
    append_when (args ≫= filters) (fun _ => true)
      (fun f => "filters=" ++ JSON_stringify (JArr f) ++ "&") queryString in
  let queryString :=
    append_when (args ≫= orFilters) (fun _ => true)
      (fun f => "or_filters=" ++ JSON_stringify (JArr f) ++ "&") queryString in
  let queryString :=
    append_when (args ≫= limit_start) truthy_number
      (fun n => "limit_start=" ++ JSON_stringify (JNum n) ++ "&") queryString in
  let queryString :=
    append_when (args ≫= limit) truthy_number
      (fun n => "limit=" ++ JSON_stringify (JNum n) ++ "&") queryString in
  let queryString :=
    append_when (args ≫= orderBy) (fun _ => true)
      (fun o => "order_by=" ++ (field o ++ " " ++ default "asc" (order o)) ++ "&")
      queryString in
  let queryString :=
    append_when (args ≫= asDict) (fun b => b)
      (fun b => "as_dict=" ++ "true") queryString in
  queryString.

End QueryStrings.

(** ** useFrappeGetDocListOffline *)

(** A row of the one-row query on [modified]. *)
Record modifiedType : Type := { row_modified : string }.

#[global] Instance modifiedType_eq_decision : EqDecision modifiedType.
Proof. solve_decision. Defined.

Module DocList.

Record Env : Type := {
  permission : option PermissionData;
  get_count : option Z;
  get_modified : option (list modifiedType);
  get_list : SWRResponse (list JSON);
  now : Z;
}.

Record State : Type := {
  lastFetchedList : LastFetched;
  shouldLoad : bool;
  sync_deps : option (bool * LastFetched * option Z * option (list modifiedType) * option bool);
  store_deps : option (option (list JSON));
}.

Definition initial : State :=
  {| lastFetchedList := LFNull; shouldLoad := false;
     sync_deps := None; store_deps := None |}.

(** [lastFetchedList.count], read only when the record exists. *)
Definition count_of (lastFetchedList : LastFetched) : option Z :=
  match lastFetchedList with
  | LFRecord r => count r
  | LFNull | LFUndefined => None
  end.

Section Hook.
Context `{RT : JSRuntime}.
Variable doctype : string.
Variable args : option GetDocListArgs.

(** [`${doctype}_${getDocListQueryString(args)}`] *)
Definition id : string := doctype ++ "_" ++ getDocListQueryString args.

Definition hasPermission (env : Env) : option bool :=
  has_permission <$> permission env.

(** The key of the count request: [hasPermission ? undefined : null] *)
Definition count_key (env : Env) : SWRKey :=
  key_when (is_true (hasPermission env)).

Definition listCount (env : Env) : option Z :=
  match count_key env with
  | KeyUndefined => get_count env
  | KeyNull => None
  end.

(** [lastFetchExist && listCount !== undefined
     && listCount === lastFetchedList.count] *)
Definition countNotChanged (st : State) (env : Env) : bool :=
  lastFetchExist (lastFetchedList st)
  && bool_decide (listCount env ≠ None)
  && bool_decide (listCount env = count_of (lastFetchedList st)).

(** The key of the one-row query, [fields: ['modified'], limit: 1,
    orderBy: modified desc]: [countNotChanged ? undefined : null] *)
Definition modified_key (st : State) (env : Env) : SWRKey :=
  key_when (countNotChanged st env).

Definition modified_data (st : State) (env : Env) : option (list modifiedType) :=
  match modified_key st env with
  | KeyUndefined => get_modified env
  | KeyNull => None
  end.

(** [(listCount || listCount === 0) && listCount !== lastFetchedList.count] *)
Definition count_differs (listCount : option Z) (r : lastFetchType) : bool :=
  match listCount with
  | Some n => (truthy_number n || (n =? 0)) && negb (bool_decide (Some n = count r))
  | None => false
  end.

(** [modified && modified[0]
     && convertDateToMiliseconds(modified[0].modified)
        > Math.floor(lastFetchedList.lastFetchedOn.getTime())] *)
Definition modified_newer (modified : option (list modifiedType))
    (r : lastFetchType) : Completion bool :=
  match modified with
  | Some (row :: _) =>
      t <-! convertDateToMiliseconds (row_modified row);
      Ok (number_gt t (Math_floor (Some (lastFetchedOn r))))
  | Some [] | None => Ok false
  end.

Definition sync_effect (lastFetchedList : LastFetched) (listCount : option Z)
    (modified : option (list modifiedType)) (hasPermission : option bool)
    : Completion (list Action) :=
  if negb (is_true hasPermission) then
    Ok (if lastFetchExist lastFetchedList then [DbDelete id] else [])
  else
    match lastFetchedList with
    | LFUndefined => Ok [SetShouldLoad true]
    | LFNull => Ok []
    | LFRecord r =>
        if count_differs listCount r then Ok [SetShouldLoad true]
        else
          newer <-! modified_newer modified r;
          Ok (if newer then [SetShouldLoad true] else [])
    end.

(** The key of the full fetch: [shouldLoad && hasPermission ? undefined : null] *)
Definition list_key (st : State) (env : Env) : SWRKey :=
  key_when (shouldLoad st && is_true (hasPermission env)).

Definition list_response (st : State) (env : Env) : SWRResponse (list JSON) :=
  useSWR (list_key st env) (get_list env).

(** [modified && modified[0] && modified[0].modified
     ? modified[0].modified : formatedTimestamp(new Date())] *)
Definition stored_modified (modified : option (list modifiedType)) (now : Z)
    : Completion string :=
  match modified with
  | Some (row :: _) =>
      if truthy_string (row_modified row) then Ok (row_modified row)
      else formatedTimestamp (Some now)
  | Some [] | None => formatedTimestamp (Some now)
  end.

Definition store_effect (data : option (list JSON)) (error : option Error)
    (lastFetchExist : bool) (listCount : option Z)
    (modified : option (list modifiedType)) (now : Z) : Completion (list Action) :=
  match data with
  | Some rows =>
      m <-! stored_modified modified now;
      Ok [DbPut {| _id := id;
                   name := Some id;
                   db.doctype := doctype;
                   lastFetchedOn := now;
                   modified := m;
                   count := listCount;
                   data := object_spread (JArr rows) |}]
  | None =>
      Ok (if bool_decide (is_Some error) && lastFetchExist
          then [DbDelete id] else [])
  end.

Definition forceRefresh (st : State) : list Action :=
  if shouldLoad st then [] else [SetShouldLoad true].

Definition forceDelete (st : State) : list Action :=
  SetShouldLoad false ::
  (if lastFetchExist (lastFetchedList st) then [DbDelete id] else []).

Definition result (st : State) (env : Env) : OfflineResult :=
  let swr := list_response st env in
  {| isLoadedFromServer := shouldLoad st;
     result_data :=
       if shouldLoad st then JArr <$> swr_data swr
       else data_of (lastFetchedList st);
     result_error :=
       if is_true (hasPermission env) then RequestError <$> swr_error swr
       else Some (Custom (permission_error doctype));
     isLoading :=
       if shouldLoad st then swr_isLoading swr
       else bool_decide (lastFetchedList st = LFUndefined);
     isValidating :=
       if shouldLoad st then swr_isValidating swr else false |}.

Definition effects (st : State) (env : Env) : Completion (list Action) :=
  let lf := lastFetchedList st in
  let count := listCount env in
  let modified := modified_data st env in
  let perm := hasPermission env in
  let swr := list_response st env in
  acts1 <-! (if deps_changed (sync_deps st) (lastFetchExist lf, lf, count, modified, perm)
             then sync_effect lf count modified perm else Ok []);
  acts2 <-! (if deps_changed (store_deps st) (swr_data swr)
             then store_effect (swr_data swr) (swr_error swr) (lastFetchExist lf)
                               count modified (now env)
             else Ok []);
  Ok (acts1 ++ acts2)%list.

Definition commit (st : State) (env : Env) (acts : list Action) : State :=
  let lf := lastFetchedList st in
  {| lastFetchedList := lf;
     shouldLoad := shouldLoad_actions acts (shouldLoad st);
     sync_deps := Some (lastFetchExist lf, lf, listCount env,
                        modified_data st env, hasPermission env);
     store_deps := Some (swr_data (list_response st env)) |}.

Definition update (st : State) (acts : list Action) : State :=
  {| lastFetchedList := lastFetchedList st;
     shouldLoad := shouldLoad_actions acts (shouldLoad st);
     sync_deps := sync_deps st;
     store_deps := store_deps st |}.

(** An exception thrown by an effect takes the component down. *)
Definition step (ev : Event Env) (c : State * Store) : Completion (State * Store) :=
  let (st, tbl) := c in
  match ev with
  | Render env =>
      acts <-! effects st env;
      Ok (commit st env acts, store_actions acts tbl)
  | StoreAnswer =>
      match lastFetchedList st, sync_deps st with
      | LFNull, Some _ =>
          Ok ({| lastFetchedList := table_get tbl id;
                 shouldLoad := shouldLoad st;
                 sync_deps := sync_deps st;
                 store_deps := store_deps st |}, tbl)
      | _, _ => Ok (st, tbl)
      end
  | ForceRefresh =>
      let acts := forceRefresh st in
      Ok (update st acts, store_actions acts tbl)
  | ForceDelete =>
      let acts := forceDelete st in
      Ok (update st acts, store_actions acts tbl)
  end.

Fixpoint run (evs : list (Event Env)) (c : State * Store)
    : Completion (State * Store) :=
  match evs with
  | [] => Ok c
  | ev :: evs' => c' <-! step ev c; run evs' c'
  end.

End Hook.
End DocList.

(** ** useFrappeGetCallOffline *)

(** [if (lastModified)] on a string or a [Date]. *)
Definition truthy_date (d : DateArg) : bool :=
  match d with
  | DateString s => truthy_string s
  | DateObject _ => true
  end.

Module Call.

(** [lastModified] is a prop and may differ from one render to the next. *)
Record Env : Type := {
  lastModified : option DateArg;
  get_call : SWRResponse JSON;
  now : Z;
}.

Record State : Type := {
  lastFetchedData : LastFetched;
  shouldLoad : bool;
  sync_deps : option (LastFetched * option DateArg);
  store_deps : option (option JSON);
}.

Definition initial : State :=
  {| lastFetchedData := LFNull; shouldLoad := false;
     sync_deps := None; store_deps := None |}.

Section Hook.
Context `{RT : JSRuntime}.
Variable method : string.
Variable params : option Params.

(** [`${method}_${encodeQueryData(params ?? {})}`] *)
Definition id : string := method ++ "_" ++ encodeQueryData (default [] params).

(** [lastModified && convertDateToMilisecondsForGetCall(lastModified)!
     > Math.floor(lastFetchedData!.lastFetchedOn.getTime())] *)
Definition hint_newer (lastModified : option DateArg) (r : lastFetchType)
    : Completion bool :=
  match lastModified with
  | Some d =>
      if truthy_date d then
        t <-! convertDateToMilisecondsForGetCall d;
        Ok (number_gt t (Math_floor (Some (lastFetchedOn r))))
      else Ok false
  | None => Ok false
  end.

Definition sync_effect (lastFetchedData : LastFetched)
    (lastModified : option DateArg) : Completion (list Action) :=
  match lastFetchedData with
  | LFUndefined => Ok [SetShouldLoad true]
  | LFNull => Ok []
  | LFRecord r =>
      newer <-! hint_newer lastModified r;
      Ok (if newer then [SetShouldLoad true] else [])
  end.

(** The key of the full fetch: [shouldLoad ? undefined : null] *)
Definition call_key (st : State) : SWRKey := key_when (shouldLoad st).

Definition call_response (st : State) (env : Env) : SWRResponse JSON :=
  useSWR (call_key st) (get_call env).

(** [lastModified ? checkTypeOfDate(lastModified)
                  : formatedTimestamp(new Date())] *)
Definition stored_modified (lastModified : option DateArg) (now : Z)
    : Completion string :=
  match lastModified with
  | Some d => if truthy_date d then checkTypeOfDate d
              else formatedTimestamp (Some now)
  | None => formatedTimestamp (Some now)
  end.

(** [if (data)] on [data: T | undefined] *)
Definition truthy_data (data : option JSON) : bool :=
  match data with
  | Some v => truthy v
  | None => false
  end.

Definition store_effect (data : option JSON) (error : option Error)
    (lastFetchExist : bool) (lastModified : option DateArg) (now : Z)
    : Completion (list Action) :=
  if truthy_data data then
    m <-! stored_modified lastModified now;
    Ok [DbPut {| _id := id;
                 name := Some id;
                 doctype := method;
                 lastFetchedOn := now;
                 modified := m;
                 count := Some 1;
                 data := object_spread (default JNull data) |}]
  else
    Ok (if bool_decide (is_Some error) && lastFetchExist
        then [DbDelete (method ++ "_" ++ template_params params)] else []).

Definition forceRefresh (st : State) : list Action :=
  if shouldLoad st then [] else [SetShouldLoad true].

Definition forceDelete (st : State) : list Action :=
  SetShouldLoad false ::
  (if lastFetchExist (lastFetchedData st) then [DbDelete id] else []).

Definition result (st : State) (env : Env) : OfflineResult :=
  let swr := call_response st env in
  {| isLoadedFromServer := shouldLoad st;
     result_data :=
       if shouldLoad st then swr_data swr
       else data_of (lastFetchedData st);
     result_error := RequestError <$> swr_error swr;
     isLoading :=
       if shouldLoad st then swr_isLoading swr
       else bool_decide (lastFetchedData st = LFUndefined);
     isValidating :=
       if shouldLoad st then swr_isValidating swr else false |}.

Definition effects (st : State) (env : Env) : Completion (list Action) :=
  let lf := lastFetchedData st in
  let swr := call_response st env in
  acts1 <-! (if deps_changed (sync_deps st) (lf, lastModified env)
             then sync_effect lf (lastModified env) else Ok []);
  acts2 <-! (if deps_changed (store_deps st) (swr_data swr)
             then store_effect (swr_data swr) (swr_error swr) (lastFetchExist lf)
                               (lastModified env) (now env)
             else Ok []);
  Ok (acts1 ++ acts2)%list.

Definition commit (st : State) (env : Env) (acts : list Action) : State :=
  let lf := lastFetchedData st in
  {| lastFetchedData := lf;
     shouldLoad := shouldLoad_actions acts (shouldLoad st);
     sync_deps := Some (lf, lastModified env);
     store_deps := Some (swr_data (call_response st env)) |}.

Definition update (st : State) (acts : list Action) : State :=
  {| lastFetchedData := lastFetchedData st;
     shouldLoad := shouldLoad_actions acts (shouldLoad st);
     sync_deps := sync_deps st;
     store_deps := store_deps st |}.

Definition step (ev : Event Env) (c : State * Store) : Completion (State * Store) :=
  let (st, tbl) := c in
  match ev with
  | Render env =>
      acts <-! effects st env;
      Ok (commit st env acts, store_actions acts tbl)
  | StoreAnswer =>
      match lastFetchedData st, sync_deps st with
      | LFNull, Some _ =>
          Ok ({| lastFetchedData := table_get tbl id;
                 shouldLoad := shouldLoad st;
                 sync_deps := sync_deps st;
                 store_deps := store_deps st |}, tbl)
      | _, _ => Ok (st, tbl)
      end
  | ForceRefresh =>
      let acts := forceRefresh st in
      Ok (update st acts, store_actions acts tbl)
  | ForceDelete =>
      let acts := forceDelete st in
      Ok (update st acts, store_actions acts tbl)
  end.

Fixpoint run (evs : list (Event Env)) (c : State * Store)
    : Completion (State * Store) :=
  match evs with
  | [] => Ok c
  | ev :: evs' => c' <-! step ev c; run evs' c'
  end.

End Hook.
End Call.

(** ** Statements

    The 403 error the two permission-gated hooks build, field by field. *)
Definition forbidden (doctype : string) : option ErrorValue :=
  Some (Custom {| httpStatus := 403;
                  httpStatusText := "FORBIDDEN";
                  message := "there was an error";
                  exception := "frappe.exceptions.PermissionError: No permission for "
                               ++ doctype |}).

(** ** Traces

    The comparison signal of a render reports no change with respect to the
    cached record [r], as each hook reads it: the document hook compares
    the server's [modified] with the stored one; the list hook and the
    call hook compare a timestamp with the time of the last fetch,
    [lastFetchedOn]. *)
Definition doc_unchanged (r : lastFetchType) (env : Doc.Env) : Prop :=
  forall m, Doc.get_value env = Some m -> message_modified m = Some (modified r).

Definition list_unchanged `{RT : JSRuntime} (r : lastFetchType) (env : DocList.Env) : Prop :=
  (forall n, DocList.get_count env = Some n -> count r = Some n)
  /\ (forall row rest,
         DocList.get_modified env = Some (row :: rest) ->
         exists t, convertDateToMiliseconds (row_modified row) = Ok t
                   /\ number_gt t (Some (lastFetchedOn r)) = false).

Definition call_unchanged `{RT : JSRuntime} (r : lastFetchType) (env : Call.Env) : Prop :=
  forall d,
    Call.lastModified env = Some d -> truthy_date d = true ->
    exists t, convertDateToMilisecondsForGetCall d = Ok t
              /\ number_gt t (Some (lastFetchedOn r)) = false.

(** A trace in which the caller leaves the callbacks alone and every render
    sees a signal accepted by [unchanged]. *)
Definition quiet_event {Env} (unchanged : Env -> Prop) (ev : Event Env) : Prop :=
  match ev with
  | Render env => unchanged env
  | StoreAnswer => True
  | ForceRefresh | ForceDelete => False
  end.

Definition quiet {Env} (unchanged : Env -> Prop) (evs : list (Event Env)) : Prop :=
  Forall (quiet_event unchanged) evs.

(** The state of a hook that has not loaded from the server and whose cached
    record [r] is still to be read from the table, or has been read. *)
Definition doc_hit (doctype : string) (docname : option string) (r : lastFetchType)
    (c : Doc.State * Store) : Prop :=
  Doc.shouldLoad (fst c) = false
  /\ ((Doc.lastFetched (fst c) = LFNull /\ snd c !! Doc.id doctype docname = Some r)
      \/ Doc.lastFetched (fst c) = LFRecord r).

Definition list_hit `{RT : JSRuntime} (doctype : string) (args : option GetDocListArgs)
    (r : lastFetchType) (c : DocList.State * Store) : Prop :=
  DocList.shouldLoad (fst c) = false
  /\ ((DocList.lastFetchedList (fst c) = LFNull
       /\ snd c !! DocList.id doctype args = Some r)
      \/ DocList.lastFetchedList (fst c) = LFRecord r).

Definition call_hit `{RT : JSRuntime} (method : string) (params : option Params)
    (r : lastFetchType) (c : Call.State * Store) : Prop :=
  Call.shouldLoad (fst c) = false
  /\ ((Call.lastFetchedData (fst c) = LFNull
       /\ snd c !! Call.id method params = Some r)
      \/ Call.lastFetchedData (fst c) = LFRecord r).

(** What a reachable state owes to the first effect: the dependencies it
    recorded are those of the current [lastFetched], unless the table has
    answered since; and if they say that a record is held without the
    permission being granted, the record has been deleted from the table. *)
Definition doc_tombstoned (doctype : string) (docname : option string)
    (c : Doc.State * Store) : Prop :=
  match Doc.sync_deps (fst c) with
  | Some (lf, _, perm, _) =>
      (lf = Doc.lastFetched (fst c) \/ lf = LFNull)
      /\ (lf = Doc.lastFetched (fst c) -> lastFetchExist lf = true ->
          is_true perm = false -> snd c !! Doc.id doctype docname = None)
  | None => True
  end.

Definition list_tombstoned `{RT : JSRuntime} (doctype : string)
    (args : option GetDocListArgs) (c : DocList.State * Store) : Prop :=
  match DocList.sync_deps (fst c) with
  | Some (_, lf, _, _, perm) =>
      (lf = DocList.lastFetchedList (fst c) \/ lf = LFNull)
      /\ (lf = DocList.lastFetchedList (fst c) -> lastFetchExist lf = true ->
          is_true perm = false -> snd c !! DocList.id doctype args = None)
  | None => True
  end.

(** ** The rule for lists as the specification words it

    Stale when the remote count differs from the cached count; otherwise
    stale when the latest [modified] on the server is newer than the
    latest-modified value stored in the cached record. *)
Definition list_stale_as_specified `{RT : JSRuntime} (r : lastFetchType)
    (remote_count : Z) (latestModified : string) : Completion bool :=
  if negb (bool_decide (count r = Some remote_count)) then Ok true
  else
    latest <-! convertDateToMiliseconds latestModified;
    cached <-! convertDateToMiliseconds (modified r);
    Ok (number_gt latest cached).

(** ** A reference runtime

    A runtime to evaluate the hooks on concrete inputs: the local zone is
    UTC, and numeric strings are read when they are plain decimal digits,
    which is what the fields of a timestamp ["YYYY-MM-DD HH:MM:SS"] are. *)
Module Reference.

Definition is_digit (c : ascii) : bool :=
  let n := N_of_ascii c in ((48 <=? n) && (n <=? 57))%N.

Definition digit_value (c : ascii) : Z := Z.of_N (N_of_ascii c) - 48.

(** The value of the longest prefix of digits, and how many there were. *)
Fixpoint leading_digits (s : string) (acc : Z) (seen : nat) : Z * nat * string :=
  match s with
  | String c s' =>
      if is_digit c then leading_digits s' (10 * acc + digit_value c) (S seen)
      else (acc, seen, s)
  | EmptyString => (acc, seen, s)
  end.

(** [+x]: [undefined] gives [NaN], the empty string 0, digits their value. *)
Definition to_number (x : option string) : option Z :=
  match x with
  | None => None
  | Some s =>
      match leading_digits s 0 0 with
      | (n, _, EmptyString) => Some n
      | _ => None
      end
  end.

(** [parseInt(x)]: the leading digits, [NaN] when there are none. *)
Definition parse_int (x : option string) : option Z :=
  match x with
  | None => None
  | Some s =>
      match leading_digits s 0 0 with
      | (_, O, _) => None
      | (n, _, _) => Some n
      end
  end.

Definition sub (a b : option Z) : option Z :=
  x ← a; y ← b; Some (x - y).

(** Days from the epoch to the first of a month (months count from 0 and
    may overflow into the years), in the proleptic Gregorian calendar. *)
Definition days_from_civil (year month : Z) : Z :=
  let ym := year + month / 12 in
  let mn := month mod 12 + 1 in
  let y := if mn <=? 2 then ym - 1 else ym in
  let era := y / 400 in
  let yoe := y - era * 400 in
  let doy := (153 * (if 2 <? mn then mn - 3 else mn + 9) + 2) / 5 in
  let doe := yoe * 365 + yoe / 4 - yoe / 100 + doy in
  era * 146097 + doe - 719468.

Definition MakeDay (year month date : Z) : Z :=
  days_from_civil year month + date - 1.

Definition MakeTime (hour min sec ms : Z) : Z :=
  hour * 3600000 + min * 60000 + sec * 1000 + ms.

Definition MakeDate (day time : Z) : Z := day * 86400000 + time.

Definition TimeClip (t : Z) : option Z :=
  if Z.abs t <=? 8640000000000000 then Some t else None.

Definition date_local (y m d h mi s : option Z) : option Z :=
  y ← y; m ← m; d ← d; h ← h; mi ← mi; s ← s;
  let yr := if (0 <=? y) && (y <=? 99) then 1900 + y else y in
  TimeClip (MakeDate (MakeDay yr m d) (MakeTime h mi s 0)).

(** Year, month (from 1) and day of a count of days from the epoch. *)
Definition civil_from_days (days : Z) : Z * Z * Z :=
  let z := days + 719468 in
  let era := z / 146097 in
  let doe := z - era * 146097 in
  let yoe := (doe - doe / 1460 + doe / 36524 - doe / 146096) / 365 in
  let y := yoe + era * 400 in
  let doy := doe - (365 * yoe + yoe / 4 - yoe / 100) in
  let mp := (5 * doy + 2) / 153 in
  let d := doy - (153 * mp + 2) / 5 + 1 in
  let m := if mp <? 10 then mp + 3 else mp - 9 in
  (if m <=? 2 then y + 1 else y, m, d).

(** A number between 0 and 99 on two digits, up to 999 on three. *)
Definition pad2 (n : Z) : string :=
  if n <? 10 then "0" ++ pretty n else pretty n.
Definition pad3 (n : Z) : string :=
  if n <? 10 then "00" ++ pretty n else if n <? 100 then "0" ++ pretty n else pretty n.
Definition pad4 (n : Z) : string :=
  if n <? 1000 then "0" ++ pad3 n else pretty n.

Definition clock_string (t : Z) : string :=
  let ms := t mod 86400000 in
  pad2 (ms / 3600000) ++ ":" ++ pad2 (ms / 60000 mod 60) ++ ":" ++ pad2 (ms / 1000 mod 60).

(** ["YYYY-MM-DDTHH:MM:SS.mmmZ"], for the years 0 to 9999. *)
Definition to_iso_string (t : Z) : string :=
  let '(y, m, d) := civil_from_days (t / 86400000) in
  pad4 y ++ "-" ++ pad2 m ++ "-" ++ pad2 d ++ "T" ++ clock_string t
    ++ "." ++ pad3 (t mod 1000) ++ "Z".

Definition to_time_string (t : Z) : string :=
  clock_string t ++ " GMT+0000 (Coordinated Universal Time)".

Definition hex_digit (n : N) : ascii :=
  ascii_of_N (if (n <? 10)%N then 48 + n else 55 + n)%N.

(** The characters [encodeURIComponent] leaves alone. *)
Definition unreserved (c : ascii) : bool :=
  let n := N_of_ascii c in
  (((65 <=? n) && (n <=? 90)) || ((97 <=? n) && (n <=? 122)) || is_digit c
   || bool_decide (c ∈ ["-"; "_"; "."; "!"; "~"; "*"; "'"; "("; ")"]%char))%N.

Fixpoint percent_encode (s : string) : string :=
  match s with
  | EmptyString => EmptyString
  | String c s' =>
      if unreserved c then String c (percent_encode s')
      else let n := N_of_ascii c in
           String "%" (String (hex_digit (n / 16)) (String (hex_digit (n mod 16))
                                                           (percent_encode s')))
  end.

(** [String(v)] *)
Fixpoint to_string (v : JSON) : string :=
  match v with
  | JNull => "null"
  | JBool b => if b then "true" else "false"
  | JNum n => pretty n
  | JStr s => s
  | JArr items =>
      join "," (map (fun x => match x with JNull => "" | _ => to_string x end) items)
  | JObj _ => "[object Object]"
  end.

Definition encode_uri_component (v : JSON) : string :=
  percent_encode (to_string v).

(** The quotation mark. *)
Definition dquote : ascii := ascii_of_N 34.

(** A string literal; the strings used below have no control characters. *)
Fixpoint quote_body (s : string) : string :=
  match s with
  | EmptyString => EmptyString
  | String c s' =>
      if bool_decide (c = dquote) || bool_decide (c = "\"%char)
      then String "\" (String c (quote_body s'))
      else String c (quote_body s')
  end.

Definition quote (s : string) : string :=
  String dquote (quote_body s ++ String dquote EmptyString).

Fixpoint stringify (v : JSON) : string :=
  match v with
  | JNull => "null"
  | JBool b => if b then "true" else "false"
  | JNum n => pretty n
  | JStr s => quote s
  | JArr items => "[" ++ join "," (map stringify items) ++ "]"
  | JObj props =>
      "{" ++ join "," (map (fun '(k, x) => quote k ++ ":" ++ stringify x) props) ++ "}"
  end.

Definition runtime : JSRuntime :=
  {| number := option Z;
     number_of_Z := Some;
     number_sub := sub;
     unary_plus := to_number;
     parseInt := parse_int;
     Date_local := date_local;
     Date_toISOString := to_iso_string;
     Date_toTimeString := to_time_string;
     encodeURIComponent := encode_uri_component;
     JSON_stringify := stringify |}.

End Reference.

(** ** Concrete inputs

    The document ["User"/"alice"], cached on 2024-01-01 at 10:00:05 UTC with
    the server's [modified] of that day. *)
Module Examples.

Definition alice_doc : FrappeDoc :=
  {| doc_modified := "2024-01-01 10:00:00";
     doc_fields := [("name", JStr "alice")] |}.

Definition alice_record : lastFetchType :=
  {| _id := "User_alice";
     name := Some "alice";
     doctype := "User";
     lastFetchedOn := 1704103205000;
     modified := "2024-01-01 10:00:00";
     count := Some 1;
     data := FrappeDoc_value alice_doc |}.

Definition alice_table : Store := {[ "User_alice" := alice_record ]}.

(** A request that has been sent and not answered. *)
Definition in_flight {A} : SWRResponse A :=
  {| swr_data := None; swr_error := None;
     swr_isLoading := true; swr_isValidating := true |}.

(** No answer to the permission request yet. *)
Definition doc_pending : Doc.Env :=
  {| Doc.permission := None; Doc.get_value := None;
     Doc.get_doc := in_flight; Doc.now := 1704200000000 |}.

(** The permission request answered [false]. *)
Definition doc_denied : Doc.Env :=
  {| Doc.permission := Some {| has_permission := false |}; Doc.get_value := None;
     Doc.get_doc := in_flight; Doc.now := 1704200000000 |}.

(** Permission granted, and the server's [modified] is the cached one. *)
Definition doc_unchanged : Doc.Env :=
  {| Doc.permission := Some {| has_permission := true |};
     Doc.get_value := Some {| message_modified := Some "2024-01-01 10:00:00" |};
     Doc.get_doc := in_flight; Doc.now := 1704200000000 |}.

(** Permission granted, and the document was modified on the server. *)
Definition doc_changed : Doc.Env :=
  {| Doc.permission := Some {| has_permission := true |};
     Doc.get_value := Some {| message_modified := Some "2024-01-02 09:00:00" |};
     Doc.get_doc := in_flight; Doc.now := 1704200000000 |}.

(** Mount, the answer of the table, and the render it causes. *)
Definition doc_cycle (env : Doc.Env) : Doc.State * Store :=
  Doc.run "User" (Some "alice") [Render env; StoreAnswer; Render env]
          (Doc.initial, alice_table).

(** The list of all users, five rows, fetched on 2024-01-05 at 10:00 UTC;
    the latest row was modified on 2024-01-01. *)
Definition users_record : lastFetchType :=
  {| _id := "User_";
     name := Some "User_";
     doctype := "User";
     lastFetchedOn := 1704448800000;
     modified := "2024-01-01 10:00:00";
     count := Some 5;
     data := object_spread (JArr [JStr "a"; JStr "b"; JStr "c"; JStr "d"; JStr "e"]) |}.

Definition users_table : Store := {[ "User_" := users_record ]}.

(** Permission granted, a remote count and the latest [modified]. *)
Definition list_signal (n : Z) (latest : string) : DocList.Env :=
  {| DocList.permission := Some {| has_permission := true |};
     DocList.get_count := Some n;
     DocList.get_modified := Some [{| row_modified := latest |}];
     DocList.get_list := in_flight;
     DocList.now := 1704500000000 |}.

Definition list_cycle (tbl : Store) (env : DocList.Env)
    : Completion (DocList.State * Store) :=
  @DocList.run Reference.runtime "User" None [Render env; StoreAnswer; Render env]
               (DocList.initial, tbl).

(** The call ["report.totals"] with [{ year: 2023 }], cached on 2024-01-15
    at 00:00 UTC. *)
Definition totals_params : Params := [("year", JNum 2023)].

Definition totals_record : lastFetchType :=
  {| _id := "report.totals_year=2023";
     name := Some "report.totals_year=2023";
     doctype := "report.totals";
     lastFetchedOn := 1705276800000;
     modified := "2024-01-15 00:00:00";
     count := Some 1;
     data := JObj [("message", JNum 42)] |}.

Definition totals_table : Store := {[ "report.totals_year=2023" := totals_record ]}.

(** A render of the call hook with the given hint and answer of the fetch. *)
Definition call_env (hint : option DateArg) (swr : SWRResponse JSON) : Call.Env :=
  {| Call.lastModified := hint; Call.get_call := swr; Call.now := 1706800000000 |}.

(** The fetch failed and has no data. *)
Definition failed {A} : SWRResponse A :=
  {| swr_data := None; swr_error := Some {| error_message := "Network Error" |};
     swr_isLoading := false; swr_isValidating := false |}.

Definition call_run (evs : list (Event Call.Env)) : Completion (Call.State * Store) :=
  @Call.run Reference.runtime "report.totals" (Some totals_params) evs
            (Call.initial, totals_table).

(** The list of users as the server returns it. *)
Definition users_rows : list JSON :=
  [JObj [("name", JStr "alice")]; JObj [("name", JStr "bob")]].

(** Permission granted, the document was modified on the server, and the
    full fetch failed. *)
Definition doc_failed : Doc.Env :=
  {| Doc.permission := Some {| has_permission := true |};
     Doc.get_value := Some {| message_modified := Some "2024-01-02 09:00:00" |};
     Doc.get_doc := failed; Doc.now := 1704200000000 |}.

(** The list hook before the permission request has answered. *)
Definition list_pending : DocList.Env :=
  {| DocList.permission := None; DocList.get_count := None;
     DocList.get_modified := None; DocList.get_list := in_flight;
     DocList.now := 1704500000000 |}.

(** The permission request of the list hook answered [false]. *)
Definition list_denied : DocList.Env :=
  {| DocList.permission := Some {| has_permission := false |};
     DocList.get_count := None; DocList.get_modified := None;
     DocList.get_list := in_flight; DocList.now := 1704500000000 |}.

(** The list hook and the call hook while they load from the server, with
    a record read from the table. *)
Definition list_loading : DocList.State :=
  {| DocList.lastFetchedList := LFRecord users_record; DocList.shouldLoad := true;
     DocList.sync_deps := None; DocList.store_deps := None |}.

Definition call_loading : Call.State :=
  {| Call.lastFetchedData := LFRecord totals_record; Call.shouldLoad := true;
     Call.sync_deps := None; Call.store_deps := None |}.

(** Permission granted, one more row on the server, and the full fetch of
    the list failed. *)
Definition list_failed : DocList.Env :=
  {| DocList.permission := Some {| has_permission := true |};
     DocList.get_count := Some 6;
     DocList.get_modified := None;
     DocList.get_list := failed;
     DocList.now := 1704500000000 |}.

End Examples.

(** ** What the hooks do to the table *)

(** The key an action writes or deletes. *)
Definition action_key (a : Action) : option string :=
  match a with
  | SetShouldLoad _ => None
  | DbPut r => Some (_id r)
  | DbDelete id => Some id
  end.

(** Every operation on the table in [acts] is on one of the keys [ids]. *)
Definition within (ids : list string) (acts : list Action) : Prop :=
  Forall (fun a => match action_key a with
                   | Some k => k ∈ ids
                   | None => True
                   end) acts.

(** None of the actions deletes from the table. *)
Definition deletes_nothing (acts : list Action) : Prop :=
  Forall (fun a => match a with DbDelete _ => False | _ => True end) acts.

(** None of the actions puts a record in the table. *)
Definition puts_nothing (acts : list Action) : Prop :=
  Forall (fun a => match a with DbPut _ => False | _ => True end) acts.

(** A trace in which the caller never invokes [delete]. *)
Definition no_delete {Env} (evs : list (Event Env)) : Prop :=
  Forall (fun ev => match ev with ForceDelete => False | _ => True end) evs.

(** The second key the call hook may touch: [`${method}_${params}`]. *)
Definition call_error_key (method : string) (params : option Params) : string :=
  method ++ "_" ++ template_params params.

(** None of the actions turns [shouldLoad] off. *)
Definition never_unsets (acts : list Action) : Prop :=
  Forall (fun a => a <> SetShouldLoad false) acts.

(** What a hook that has seen the table answer [undefined] owes to its
    first effect: if the dependencies it recorded say so and (where there
    is one) that the permission was granted, [shouldLoad] is on. *)
Definition doc_miss_seen (st : Doc.State) : Prop :=
  forall m perm lfe,
    Doc.sync_deps st = Some (LFUndefined, m, perm, lfe) ->
    is_true perm = true -> Doc.shouldLoad st = true.

Definition list_miss_seen (st : DocList.State) : Prop :=
  forall lfe n m perm,
    DocList.sync_deps st = Some (lfe, LFUndefined, n, m, perm) ->
    is_true perm = true -> DocList.shouldLoad st = true.

Definition call_miss_seen (st : Call.State) : Prop :=
  forall hint,
    Call.sync_deps st = Some (LFUndefined, hint) -> Call.shouldLoad st = true.

(** The hint is not an invalid [Date] object. *)
Definition valid_hint (hint : option DateArg) : Prop :=
  forall d, hint = Some (DateObject d) -> date_time d <> None.

(** No render of the trace sees the permission granted. *)
Definition never_granted {Env} (hasPermission : Env -> option bool)
    (evs : list (Event Env)) : Prop :=
  Forall (fun ev => match ev with
                    | Render env => is_true (hasPermission env) = false
                    | _ => True
                    end) evs.

(** Whether the character [c] occurs in [s]. *)
Fixpoint occurs (c : ascii) (s : string) : bool :=
  match s with
  | EmptyString => false
  | String x s' => Ascii.eqb x c || occurs c s'
  end.


(** * The hooks that change the server

    [useFrappeCreateDoc], [useFrappeUpdateDoc] and [useFrappeDeleteDoc]
    keep the states [loading], [error] and [isCompleted];
    [useFrappePostCall], [useFrappePutCall] and [useFrappeDeleteCall] keep
    [result] as well.  A callback is the sequence of its state updates, in
    the order of the source; the request it sends is answered by a later
    event. *)
Module Mutation.

Inductive Kind : Type :=
| OfDoc    (* createDoc, updateDoc, deleteDoc: there is no [result] *)
| OfCall.  (* post, put, delete *)

Record State : Type := {
  result : option JSON;
  loading : bool;
  error : option Error;
  isCompleted : bool;
}.

(** [useState(null)], [useState(false)], [useState(null)], [useState(false)] *)
Definition initial : State :=
  {| result := None; loading := false; error := None; isCompleted := false |}.

Inductive Setter : Type :=
| SetResult (v : option JSON)
| SetLoading (b : bool)
| SetError (e : option Error)
| SetIsCompleted (b : bool).

Definition set (st : State) (s : Setter) : State :=
  match s with
  | SetResult v =>
      {| result := v; loading := loading st; error := error st;
         isCompleted := isCompleted st |}
  | SetLoading b =>
      {| result := result st; loading := b; error := error st;
         isCompleted := isCompleted st |}
  | SetError e =>
      {| result := result st; loading := loading st; error := e;
         isCompleted := isCompleted st |}
  | SetIsCompleted b =>
      {| result := result st; loading := loading st; error := error st;
         isCompleted := b |}
  end.

(** The updates only the hooks with a [result] make. *)
Definition when_call (k : Kind) (ss : list Setter) : list Setter :=
  match k with
  | OfCall => ss
  | OfDoc => []
  end.

(** The body of [call] / [createDoc] up to the request. *)
Definition call (k : Kind) : list Setter :=
  [SetError None; SetIsCompleted false; SetLoading true]
  ++ when_call k [SetResult None].

(** The [then] callback. *)
Definition on_fulfilled (k : Kind) (message : JSON) : list Setter :=
  when_call k [SetResult (Some message)]
  ++ [SetLoading false; SetIsCompleted true].

(** The [catch] callback. *)
Definition on_rejected (e : Error) : list Setter :=
  [SetLoading false; SetIsCompleted false; SetError (Some e)].

Definition reset (k : Kind) : list Setter :=
  when_call k [SetResult None]
  ++ [SetLoading false; SetError None; SetIsCompleted false].

Inductive Event : Type :=
| Invoke
| Fulfilled (message : JSON)
| Rejected (e : Error)
| Reset.

Definition setters (k : Kind) (ev : Event) : list Setter :=
  match ev with
  | Invoke => call k
  | Fulfilled message => on_fulfilled k message
  | Rejected e => on_rejected e
  | Reset => reset k
  end.

Definition apply (ss : list Setter) (st : State) : State := foldl set st ss.

(** The state after the callbacks of [evs] have run to their end. *)
Definition run (k : Kind) (evs : list Event) : State :=
  foldl (fun st ev => apply (setters k ev) st) initial evs.

(** The state after the first [n] state updates of [evs]. *)
Definition observed (k : Kind) (evs : list Event) (n : nat) : State :=
  apply (take n (flat_map (setters k) evs)) initial.

(** The caller waits for the answer of a request before sending the next;
    [pending] tells whether a request is out. *)
Fixpoint sequential (pending : bool) (evs : list Event) : bool :=
  match evs with
  | [] => true
  | Invoke :: evs' => negb pending && sequential true evs'
  | Fulfilled _ :: evs' | Rejected _ :: evs' => pending && sequential false evs'
  | Reset :: evs' => sequential pending evs'
  end.

(** What the hook reports after an event, in sequential use. *)
Definition after (k : Kind) (ev : Event) : State :=
  match ev with
  | Invoke =>
      {| result := None; loading := true; error := None; isCompleted := false |}
  | Fulfilled message =>
      {| result := match k with OfCall => Some message | OfDoc => None end;
         loading := false; error := None; isCompleted := true |}
  | Rejected e =>
      {| result := None; loading := false; error := Some e; isCompleted := false |}
  | Reset => initial
  end.

End Mutation.

(** ** useFrappeFileUpload *)
Module FileUpload.
Section Hook.
Context `{RT : JSRuntime}.

Record State : Type := {
  progress : number;
  loading : bool;
  error : option Error;
  isCompleted : bool;
}.

Definition initial : State :=
  {| progress := number_of_Z 0; loading := false; error := None;
     isCompleted := false |}.

Inductive Setter : Type :=
| SetProgress (p : number)
| SetLoading (b : bool)
| SetError (e : option Error)
| SetIsCompleted (b : bool).

Definition set (st : State) (s : Setter) : State :=
  match s with
  | SetProgress p =>
      {| progress := p; loading := loading st; error := error st;
         isCompleted := isCompleted st |}
  | SetLoading b =>
      {| progress := progress st; loading := b; error := error st;
         isCompleted := isCompleted st |}
  | SetError e =>
      {| progress := progress st; loading := loading st; error := e;
         isCompleted := isCompleted st |}
  | SetIsCompleted b =>
      {| progress := progress st; loading := loading st; error := error st;
         isCompleted := b |}
  end.

Definition reset : list Setter :=
  [SetProgress (number_of_Z 0); SetLoading false; SetError None;
   SetIsCompleted false].

(** The body of [upload] up to the request. *)
Definition upload : list Setter := reset ++ [SetLoading true].

(** The progress callback; [percent] is [Math.round((c / t) * 100)]. *)
Definition on_progress (percent : number) : list Setter := [SetProgress percent].

Definition on_fulfilled : list Setter :=
  [SetIsCompleted true; SetProgress (number_of_Z 100); SetLoading false].

Definition on_rejected (e : Error) : list Setter :=
  [SetError (Some e); SetLoading false].

Inductive Event : Type :=
| Upload
| Progress (percent : number)
| Fulfilled
| Rejected (e : Error)
| Reset.

Definition setters (ev : Event) : list Setter :=
  match ev with
  | Upload => upload
  | Progress percent => on_progress percent
  | Fulfilled => on_fulfilled
  | Rejected e => on_rejected e
  | Reset => reset
  end.

Definition apply (ss : list Setter) (st : State) : State := foldl set st ss.

Definition run (evs : list Event) : State :=
  foldl (fun st ev => apply (setters ev) st) initial evs.

Definition observed (evs : list Event) (n : nat) : State :=
  apply (take n (flat_map setters evs)) initial.

(** One upload at a time; the progress callback runs while it is out. *)
Fixpoint sequential (pending : bool) (evs : list Event) : bool :=
  match evs with
  | [] => true
  | Upload :: evs' => negb pending && sequential true evs'
  | Progress _ :: evs' => pending && sequential pending evs'
  | Fulfilled :: evs' | Rejected _ :: evs' => pending && sequential false evs'
  | Reset :: evs' => sequential pending evs'
  end.

(** What the state owes to the uploads so far. *)
Definition settled (pending : bool) (st : State) : Prop :=
  if pending
  then error st = None /\ isCompleted st = false
  else (isCompleted st = true ->
        progress st = number_of_Z 100 /\ error st = None)
       /\ loading st = false.

End Hook.
End FileUpload.

(** ** useFrappeAuth

    [login] and [logout] are promise chains.  A [then] callback receives
    the value its promise resolved with, performs its effects and returns
    a value; a returned value that is not a promise resolves the next
    promise as it is. *)
Module Auth.

Inductive Effect : Type :=
| ServerLogin (username password : string)
| ServerLogout
| ConsoleLog
| Mutate (user : option (option string))  (* updateCurrentUser(), updateCurrentUser(null) *)
| DeleteDatabase.                         (* indexdb.delete() *)

Inductive Value : Type :=
| Undefined
| Response
| Function (body : list Effect).

Definition Callback : Type := Value -> list Effect * Value.

(** [p.then(cb1).then(cb2)...] for a promise that is fulfilled with [v]
    after the effects [effs]. *)
Definition then_all (p : list Effect * Value) (cbs : list Callback)
    : list Effect * Value :=
  foldl (fun '(effs, v) cb => let '(effs', v') := cb v in ((effs ++ effs')%list, v'))
        p cbs.

(** Calling a value with no argument. *)
Definition invoke (f : Value) : list Effect :=
  match f with
  | Function body => body
  | Undefined | Response => []
  end.

Section Hook.
(** Whether the context holds a database. *)
Variable indexdb : bool.

(** [() => { if (indexdb) { indexdb.delete() } }] *)
Definition deleteDatabase : Value :=
  Function (if indexdb then [DeleteDatabase] else []).

(** [auth.loginWithUsernamePassword({ username, password })
      .then((m) => { console.log(m); updateCurrentUser() })] *)
Definition login (username password : string) : list Effect * Value :=
  then_all ([ServerLogin username password], Response)
           [fun m => ([ConsoleLog; Mutate None], Undefined)].

(** [auth.logout().then(() => deleteDatabase)
                  .then(() => updateCurrentUser(null))] *)
Definition logout : list Effect * Value :=
  then_all ([ServerLogout], Response)
           [fun _ => ([], deleteDatabase);
            fun _ => ([Mutate (Some None)], Undefined)].

End Hook.

(** What an effect does to the table: deleting the database empties it. *)
Definition store_effect (e : Effect) (tbl : Store) : Store :=
  match e with
  | DeleteDatabase => ∅
  | _ => tbl
  end.

Definition store_effects (effs : list Effect) (tbl : Store) : Store :=
  foldl (fun tbl e => store_effect e tbl) tbl effs.

Inductive Event : Type :=
| Login (username password : string)
| Logout.

Definition effects (indexdb : bool) (ev : Event) : list Effect :=
  match ev with
  | Login username password => fst (login username password)
  | Logout => fst (logout indexdb)
  end.

Definition run (indexdb : bool) (evs : list Event) (tbl : Store) : Store :=
  foldl (fun tbl ev => store_effects (effects indexdb ev) tbl) tbl evs.

End Auth.

(** ** useDebounce

    The hook keeps [debouncedValue]; its effect, which depends on
    [value] and [delay], starts a timer that will store the value of the
    render that started it, and the cleanup of the effect clears that
    timer.  [timer] is the value the pending timer will store. *)
Module Debounce.

Record State : Type := {
  debouncedValue : string;
  timer : option string;
  deps : string * Z;
}.

Inductive Event : Type :=
| Render (value : string) (delay : Z)
| Fire.   (* the pending timer runs *)

(** The first render: [useState(value)], and the effect runs. *)
Definition mount (value : string) (delay : Z) : State :=
  {| debouncedValue := value; timer := Some value; deps := (value, delay) |}.

Definition step (st : State) (ev : Event) : State :=
  match ev with
  | Render value delay =>
      if bool_decide (deps st = (value, delay)) then st
      else {| debouncedValue := debouncedValue st;
              timer := Some value;
              deps := (value, delay) |}
  | Fire =>
      match timer st with
      | Some v => {| debouncedValue := v; timer := None; deps := deps st |}
      | None => st
      end
  end.

Definition run (value : string) (delay : Z) (evs : list Event) : State :=
  foldl step (mount value delay) evs.

(** The value of the latest render. *)
Definition latest (st : State) : string := fst (deps st).

End Debounce.

(** ** Arguments of a list that do not count

    The arguments with the falsy members [limit_start: 0], [limit: 0] and
    [asDict: false] left out; and the arguments with no member at all. *)
Definition without_falsy (args : GetDocListArgs) : GetDocListArgs :=
  {| fields := fields args;
     filters := filters args;
     orFilters := orFilters args;
     limit_start := limit_start args ≫= (fun n => if truthy_number n then Some n else None);
     limit := limit args ≫= (fun n => if truthy_number n then Some n else None);
     orderBy := orderBy args;
     asDict := asDict args ≫= (fun b : bool => if b then Some b else None) |}.

Definition no_args : GetDocListArgs :=
  {| fields := None; filters := None; orFilters := None; limit_start := None;
     limit := None; orderBy := None; asDict := None |}.

(** * Properties *)

(** ** Basic facts about actions *)

Lemma shouldLoad_actions_app (a b : list Action) (s : bool) :
  shouldLoad_actions (a ++ b) s = shouldLoad_actions b (shouldLoad_actions a s).
Proof. unfold shouldLoad_actions. apply foldl_app. Qed.

Lemma store_actions_app (a b : list Action) (tbl : Store) :
  store_actions (a ++ b) tbl = store_actions b (store_actions a tbl).
Proof. unfold store_actions. apply foldl_app. Qed.

Lemma deps_changed_same {D} `{EqDecision D} (d : D) :
  deps_changed (Some d) d = false.
Proof. unfold deps_changed. rewrite bool_decide_eq_true_2; done. Qed.

Lemma truthy_string_spec (s : string) : truthy_string s = true <-> s <> "".
Proof.
  unfold truthy_string. destruct (String.eqb_spec s ""); simpl; split; congruence.
Qed.

(** ** The result projector *)

(** C10.  In the document hook and in the list hook, while the answer of
    the permission request has not arrived ([hasPermission] is
    [undefined]), the [error] of the result is the 403 FORBIDDEN
    [CustomError], whatever the state of the hook and whatever the full
    fetch holds, its error included. *)
Theorem pending_permission_is_forbidden :
  (forall doctype st env,
      Doc.hasPermission env = None ->
      result_error (Doc.result doctype st env) = forbidden doctype)
  /\
  (forall doctype st env,
      DocList.hasPermission env = None ->
      result_error (DocList.result doctype st env) = forbidden doctype).
Proof.
  split; intros * Hperm.
  - unfold Doc.result; simpl. rewrite Hperm. reflexivity.
  - unfold DocList.result; simpl. rewrite Hperm. reflexivity.
Qed.

(** C8.  What the three hooks return while the read of the table issued on
    mount is still pending ([lastFetched] is [null]) and nothing has been
    loaded from the server: [data] is [undefined], and [isLoading] is
    [false], since the flag is computed as [lastFetched === undefined]. *)
Theorem pending_read_is_not_loading :
  (forall doctype st env,
      Doc.lastFetched st = LFNull -> Doc.shouldLoad st = false ->
      isLoading (Doc.result doctype st env) = false
      /\ result_data (Doc.result doctype st env) = None)
  /\
  (forall doctype st env,
      DocList.lastFetchedList st = LFNull -> DocList.shouldLoad st = false ->
      isLoading (DocList.result doctype st env) = false
      /\ result_data (DocList.result doctype st env) = None)
  /\
  (forall st env,
      Call.lastFetchedData st = LFNull -> Call.shouldLoad st = false ->
      isLoading (Call.result st env) = false
      /\ result_data (Call.result st env) = None).
Proof.
  split; [|split]; intros * Hlf Hload.
  - unfold Doc.result; simpl. rewrite Hload, Hlf. done.
  - unfold DocList.result; simpl. rewrite Hload, Hlf. done.
  - unfold Call.result; simpl. rewrite Hload, Hlf. done.
Qed.

(** The same at the state every hook is mounted in. *)
Lemma pending_read_is_not_loading_witness :
  (isLoading (Doc.result "User" Doc.initial Examples.doc_pending) = false
   /\ result_data (Doc.result "User" Doc.initial Examples.doc_pending) = None)
  /\ (isLoading (DocList.result "User" DocList.initial Examples.list_pending) = false
      /\ result_data (DocList.result "User" DocList.initial Examples.list_pending) = None)
  /\ (isLoading (Call.result Call.initial (Examples.call_env None Examples.in_flight))
      = false
      /\ result_data (Call.result Call.initial (Examples.call_env None Examples.in_flight))
         = None).
Proof.
  destruct pending_read_is_not_loading as (Hdoc & Hlist & Hcall).
  split; [|split].
  - exact (Hdoc "User" Doc.initial Examples.doc_pending eq_refl eq_refl).
  - exact (Hlist "User" DocList.initial Examples.list_pending eq_refl eq_refl).
  - exact (Hcall Call.initial (Examples.call_env None Examples.in_flight) eq_refl eq_refl).
Defined.

(** With the store's answer [undefined] and no permission answer yet, the
    flag is [true]: this is the part of the loading phase the flag covers. *)
Lemma absent_record_is_loading doctype st env :
  Doc.lastFetched st = LFUndefined -> Doc.shouldLoad st = false ->
  isLoading (Doc.result doctype st env) = true
  /\ result_data (Doc.result doctype st env) = None.
Proof.
  intros Hlf Hload. unfold Doc.result; simpl. rewrite Hload, Hlf. done.
Qed.

(** C9, as amended.  While the hook loads from the server ([shouldLoad] is
    set, and the permission is granted where there is one), [data],
    [isLoading] and [isValidating] are those of the full fetch, whether or
    not a record was read from the table; the cached payload is not
    served. *)
Theorem loading_serves_fetch_data :
  (forall doctype st env,
      Doc.shouldLoad st = true -> Doc.hasPermission env = Some true ->
      result_data (Doc.result doctype st env)
        = FrappeDoc_value <$> swr_data (Doc.get_doc env)
      /\ isValidating (Doc.result doctype st env) = swr_isValidating (Doc.get_doc env)
      /\ isLoading (Doc.result doctype st env) = swr_isLoading (Doc.get_doc env))
  /\
  (forall doctype st env,
      DocList.shouldLoad st = true -> DocList.hasPermission env = Some true ->
      result_data (DocList.result doctype st env)
        = JArr <$> swr_data (DocList.get_list env)
      /\ isValidating (DocList.result doctype st env)
         = swr_isValidating (DocList.get_list env)
      /\ isLoading (DocList.result doctype st env) = swr_isLoading (DocList.get_list env))
  /\
  (forall st env,
      Call.shouldLoad st = true ->
      result_data (Call.result st env) = swr_data (Call.get_call env)
      /\ isValidating (Call.result st env) = swr_isValidating (Call.get_call env)
      /\ isLoading (Call.result st env) = swr_isLoading (Call.get_call env)).
Proof.
  split; [|split].
  - intros doctype st env Hload Hperm.
    unfold Doc.result, Doc.doc_response, Doc.doc_key; simpl.
    rewrite Hload, Hperm. done.
  - intros doctype st env Hload Hperm.
    unfold DocList.result, DocList.list_response, DocList.list_key; simpl.
    rewrite Hload, Hperm. done.
  - intros st env Hload.
    unfold Call.result, Call.call_response, Call.call_key; simpl.
    rewrite Hload. done.
Qed.

Lemma pending_permission_is_forbidden_witness :
  result_error (Doc.result "User" (fst (Examples.doc_cycle Examples.doc_pending))
                           Examples.doc_pending)
  = forbidden "User"
  /\ result_error (DocList.result "User" DocList.initial Examples.list_pending)
     = forbidden "User".
Proof.
  destruct pending_permission_is_forbidden as (Hdoc & Hlist).
  split.
  - exact (Hdoc "User" _ Examples.doc_pending eq_refl).
  - exact (Hlist "User" DocList.initial Examples.list_pending eq_refl).
Defined.

(** C9 as stated fails.  The cached document was modified on the server, so
    the hook loads it; while that request is in flight the result carries
    no data, although the table held a record for the document. *)
Lemma loading_hides_cached_payload :
  let st := (Examples.doc_cycle Examples.doc_changed).1 in
  Doc.lastFetched st = LFRecord Examples.alice_record
  /\ fetch_issued (Doc.doc_key st Examples.doc_changed) = true
  /\ isValidating (Doc.result "User" st Examples.doc_changed) = true
  /\ result_data (Doc.result "User" st Examples.doc_changed) = None
  /\ result_data (Doc.result "User" st Examples.doc_changed)
     <> Some (data Examples.alice_record).
Proof. vm_compute. repeat split; congruence. Qed.

Lemma loading_serves_fetch_data_witness :
  (let st := fst (Examples.doc_cycle Examples.doc_changed) in
   result_data (Doc.result "User" st Examples.doc_changed) = None
   /\ isValidating (Doc.result "User" st Examples.doc_changed) = true
   /\ isLoading (Doc.result "User" st Examples.doc_changed) = true)
  /\ (let env := Examples.list_signal 6 "2024-01-03 00:00:00" in
      result_data (DocList.result "User" Examples.list_loading env) = None
      /\ isValidating (DocList.result "User" Examples.list_loading env) = true
      /\ isLoading (DocList.result "User" Examples.list_loading env) = true)
  /\ (let env := Examples.call_env None Examples.in_flight in
      result_data (Call.result Examples.call_loading env) = None
      /\ isValidating (Call.result Examples.call_loading env) = true
      /\ isLoading (Call.result Examples.call_loading env) = true).
Proof.
  destruct loading_serves_fetch_data as (Hdoc & Hlist & Hcall).
  split; [|split].
  - exact (Hdoc "User" (fst (Examples.doc_cycle Examples.doc_changed))
                Examples.doc_changed eq_refl eq_refl).
  - exact (Hlist "User" Examples.list_loading
                 (Examples.list_signal 6 "2024-01-03 00:00:00") eq_refl eq_refl).
  - exact (Hcall Examples.call_loading (Examples.call_env None Examples.in_flight)
                 eq_refl).
Defined.

(** ** The staleness decision of the document hook *)

(** The decision once the permission is granted. *)
Lemma document_staleness_granted doctype docname lastFetched modified hasPermission :
  hasPermission = Some true ->
  shouldLoad_actions
    (Doc.sync_effect doctype docname lastFetched modified hasPermission) false = true
  <->
  lastFetched = LFUndefined
  \/ (exists r m,
         lastFetched = LFRecord r /\ modified = Some m
         /\ ((exists s, message_modified m = Some s /\ s <> "" /\ s <> db.modified r)
             \/ message_modified m = None)).
Proof.
  intros ->. unfold Doc.sync_effect. simpl.
  destruct lastFetched as [| |r]; simpl.
  - split; [discriminate|].
    intros [?|(r & m & ? & _)]; discriminate.
  - split; [intros _; left|]; reflexivity.
  - destruct modified as [m|]; simpl.
    + destruct (message_modified m) as [s|] eqn:Hs; simpl.
      * destruct (truthy_string s) eqn:Ht; simpl.
        -- apply truthy_string_spec in Ht.
           case_bool_decide as Heq; simpl.
           ++ split; [discriminate|].
              intros [?|(r' & m' & [= <-] & [= <-] & [(s' & Hs' & _ & Hne)|Hnone])];
                [discriminate| |congruence].
              rewrite Hs in Hs'. injection Hs' as <-. congruence.
           ++ split; [|reflexivity]. intros _. right.
              exists r, m. repeat split; try done.
              left. exists s. repeat split; try done. congruence.
        -- split; [discriminate|].
           intros [?|(r' & m' & [= <-] & [= <-] & [(s' & Hs' & Hne & _)|Hnone])];
             [discriminate| |congruence].
           rewrite Hs in Hs'. injection Hs' as <-.
           apply truthy_string_spec in Hne. congruence.
      * split; [|reflexivity]. intros _. right.
        exists r, m. repeat split; try done. right. done.
    + split; [discriminate|].
      intros [?|(r' & m' & _ & ? & _)]; discriminate.
Qed.

(** C3, as amended.  The first effect of the document hook turns
    [shouldLoad] on exactly when the permission is granted and: the table
    has no record; or a record is cached and the [modified] the server
    reports is a non-empty string (the guard [modified.message.modified &&]
    passes) other than the string stored in the record; or a record is
    cached and the server's answer carries no [modified] at all. *)
Theorem document_staleness_decision doctype docname lastFetched modified hasPermission :
  shouldLoad_actions
    (Doc.sync_effect doctype docname lastFetched modified hasPermission) false = true
  <->
  hasPermission = Some true
  /\ (lastFetched = LFUndefined
      \/ (exists r m,
             lastFetched = LFRecord r /\ modified = Some m
             /\ ((exists s, message_modified m = Some s /\ s <> "" /\ s <> db.modified r)
                 \/ message_modified m = None))).
Proof.
  destruct (decide (hasPermission = Some true)) as [Hperm|Hperm].
  - rewrite (document_staleness_granted doctype docname lastFetched modified
               hasPermission Hperm).
    tauto.
  - split; [|tauto]. intros Hset. exfalso.
    unfold Doc.sync_effect in Hset.
    assert (Hfalse : is_true hasPermission = false).
    { destruct hasPermission as [[]|]; [congruence|reflexivity|reflexivity]. }
    rewrite Hfalse in Hset. simpl in Hset.
    destruct (lastFetchExist lastFetched); discriminate.
Qed.

(** C3 as stated fails.  With no record in the table and the permission
    denied, [shouldLoad] is never turned on; and with a record cached and
    the permission granted, an empty [modified] from the server, which
    differs from the stored string, does not turn it on either. *)
Lemma document_staleness_is_gated :
  (let c := Doc.run "User" (Some "alice")
              [Render Examples.doc_denied; StoreAnswer; Render Examples.doc_denied]
              (Doc.initial, ∅) in
   Doc.lastFetched (fst c) = LFUndefined /\ Doc.shouldLoad (fst c) = false)
  /\ (shouldLoad_actions
        (Doc.sync_effect "User" (Some "alice") (LFRecord Examples.alice_record)
           (Some {| message_modified := Some "" |}) (Some true)) false = false
      /\ "" <> modified Examples.alice_record).
Proof. vm_compute. repeat split. discriminate. Qed.

(** ** A cache hit issues no fetch *)

Section DocQuiet.
Variable doctype : string.
Variable docname : option string.
Variable r : lastFetchType.

Lemma doc_sync_effect_pending modified hasPermission :
  Doc.sync_effect doctype docname LFNull modified hasPermission = [].
Proof.
  unfold Doc.sync_effect. destruct (is_true hasPermission); reflexivity.
Qed.

Lemma doc_sync_effect_unchanged modified hasPermission :
  (forall m, modified = Some m -> message_modified m = Some (db.modified r)) ->
  shouldLoad_actions
    (Doc.sync_effect doctype docname (LFRecord r) modified hasPermission) false
  = false.
Proof.
  intros Hsame. unfold Doc.sync_effect.
  destruct (is_true hasPermission); simpl; [|reflexivity].
  destruct modified as [m|]; simpl; [|reflexivity].
  rewrite (Hsame m eq_refl). simpl.
  rewrite bool_decide_eq_true_2 by reflexivity.
  rewrite andb_false_r. reflexivity.
Qed.

Lemma doc_response_idle st env :
  Doc.shouldLoad st = false -> Doc.doc_response st env = swr_disabled.
Proof. intros H. unfold Doc.doc_response, Doc.doc_key. rewrite H. reflexivity. Qed.

Lemma doc_step_hit ev c :
  quiet_event (doc_unchanged r) ev -> doc_hit doctype docname r c ->
  doc_hit doctype docname r (Doc.step doctype docname ev c).
Proof.
  destruct c as [st tbl]. intros Hq [Hload Hlf]. simpl in Hload, Hlf.
  destruct ev as [env| | |]; simpl in Hq; try contradiction.
  - (* a render *)
    unfold Doc.step, Doc.effects, doc_hit. simpl.
    rewrite (doc_response_idle st env Hload). simpl.
    rewrite shouldLoad_actions_app, store_actions_app.
    assert (Hstore : forall b : bool,
               (if b then Doc.store_effect doctype docname None None
                              (lastFetchExist (Doc.lastFetched st)) (Doc.now env)
                else []) = []) by (intros []; reflexivity).
    rewrite Hstore. simpl. rewrite Hload.
    destruct Hlf as [[Hnull Htbl]|Hrec].
    + rewrite Hnull. rewrite doc_sync_effect_pending.
      destruct (deps_changed _ _); simpl; split; auto.
    + rewrite Hrec.
      destruct (deps_changed _ _); simpl; [|split; auto].
      split; [|auto].
      apply doc_sync_effect_unchanged.
      intros m Hm. apply Hq.
      unfold Doc.modified_data, Doc.modified_key in Hm. rewrite Hrec in Hm.
      simpl in Hm. destruct (is_true (Doc.hasPermission env)); simpl in Hm; congruence.
  - (* the table answers *)
    unfold Doc.step, doc_hit.
    destruct Hlf as [[Hnull Htbl]|Hrec].
    + rewrite Hnull. destruct (Doc.sync_deps st); simpl; [|auto].
      split; [assumption|]. right. unfold table_get. rewrite Htbl. reflexivity.
    + rewrite Hrec. simpl. auto.
Qed.

Lemma doc_run_hit evs c :
  quiet (doc_unchanged r) evs -> doc_hit doctype docname r c ->
  doc_hit doctype docname r (Doc.run doctype docname evs c).
Proof.
  intros Hq. revert c. induction Hq as [|ev evs Hev _ IH]; intros c Hc; simpl.
  - exact Hc.
  - apply IH. apply doc_step_hit; assumption.
Qed.

End DocQuiet.

Section ListQuiet.
Context `{RT : JSRuntime}.
Variable doctype : string.
Variable args : option GetDocListArgs.
Variable r : lastFetchType.

Lemma list_sync_effect_pending listCount modified hasPermission :
  DocList.sync_effect doctype args LFNull listCount modified hasPermission = Ok [].
Proof.
  unfold DocList.sync_effect. destruct (is_true hasPermission); reflexivity.
Qed.

Lemma list_sync_effect_unchanged listCount modified hasPermission :
  (forall n, listCount = Some n -> count r = Some n) ->
  (forall row rest,
      modified = Some (row :: rest) ->
      exists t, convertDateToMiliseconds (row_modified row) = Ok t
                /\ number_gt t (Some (lastFetchedOn r)) = false) ->
  exists acts,
    DocList.sync_effect doctype args (LFRecord r) listCount modified hasPermission
    = Ok acts
    /\ shouldLoad_actions acts false = false.
Proof.
  intros Hcount Hmod. unfold DocList.sync_effect.
  destruct (is_true hasPermission); simpl; [|eauto].
  assert (Hsame : DocList.count_differs listCount r = false).
  { unfold DocList.count_differs. destruct listCount as [n|]; [|reflexivity].
    rewrite (Hcount n eq_refl). rewrite bool_decide_eq_true_2 by reflexivity.
    apply andb_false_r. }
  rewrite Hsame. unfold DocList.modified_newer.
  destruct modified as [[|row rest]|]; simpl; eauto.
  destruct (Hmod row rest eq_refl) as (t & -> & Hgt). simpl.
  unfold Math_floor. rewrite Hgt. eauto.
Qed.

Lemma list_response_idle st env :
  DocList.shouldLoad st = false -> DocList.list_response st env = swr_disabled.
Proof.
  intros H. unfold DocList.list_response, DocList.list_key. rewrite H. reflexivity.
Qed.

Lemma list_step_hit ev c :
  quiet_event (list_unchanged r) ev -> list_hit doctype args r c ->
  exists c', DocList.step doctype args ev c = Ok c' /\ list_hit doctype args r c'.
Proof.
  destruct c as [st tbl]. intros Hq [Hload Hlf]. simpl in Hload, Hlf.
  destruct ev as [env| | |]; simpl in Hq; try contradiction.
  - (* a render *)
    unfold DocList.step, DocList.effects, list_hit.
    rewrite (list_response_idle st env Hload). simpl.
    assert (Hstore : forall b : bool,
               (if b then DocList.store_effect doctype args None None
                              (lastFetchExist (DocList.lastFetchedList st))
                              (DocList.listCount env) (DocList.modified_data st env)
                              (DocList.now env)
                else Ok []) = Ok []) by (intros []; reflexivity).
    destruct Hlf as [[Hnull Htbl]|Hrec].
    + rewrite Hnull in *. rewrite list_sync_effect_pending.
      destruct (deps_changed _ _); simpl; rewrite Hstore; simpl;
        eexists; (split; [reflexivity|]); simpl; rewrite Hload; auto.
    + rewrite Hrec in *.
      destruct Hq as [Hcount Hmod].
      destruct (list_sync_effect_unchanged (DocList.listCount env)
                  (DocList.modified_data st env) (DocList.hasPermission env))
        as (acts & Hacts & Hkeep).
      { intros n Hn. apply Hcount. unfold DocList.listCount in Hn.
        destruct (DocList.count_key env); congruence. }
      { intros row rest Hrow. apply (Hmod row rest).
        unfold DocList.modified_data in Hrow.
        destruct (DocList.modified_key st env); congruence. }
      rewrite Hacts.
      destruct (deps_changed _ _); simpl; rewrite Hstore; simpl;
        eexists; (split; [reflexivity|]); simpl; rewrite ?app_nil_r, Hload; auto.
  - (* the table answers *)
    unfold DocList.step, list_hit.
    destruct Hlf as [[Hnull Htbl]|Hrec].
    + rewrite Hnull. destruct (DocList.sync_deps st); simpl;
        eexists; (split; [reflexivity|]); simpl; [|auto].
      split; [assumption|]. right. unfold table_get. rewrite Htbl. reflexivity.
    + rewrite Hrec. eexists; split; [reflexivity|]. simpl. auto.
Qed.

Lemma list_run_hit evs c :
  quiet (list_unchanged r) evs -> list_hit doctype args r c ->
  exists c', DocList.run doctype args evs c = Ok c' /\ list_hit doctype args r c'.
Proof.
  intros Hq. revert c. induction Hq as [|ev evs Hev _ IH]; intros c Hc; simpl.
  - eauto.
  - destruct (list_step_hit ev c Hev Hc) as (c1 & -> & Hc1). simpl. apply IH, Hc1.
Qed.

End ListQuiet.

Section CallQuiet.
Context `{RT : JSRuntime}.
Variable method : string.
Variable params : option Params.
Variable r : lastFetchType.

Lemma call_sync_effect_unchanged lastModified :
  (forall d, lastModified = Some d -> truthy_date d = true ->
             exists t, convertDateToMilisecondsForGetCall d = Ok t
                       /\ number_gt t (Some (lastFetchedOn r)) = false) ->
  Call.sync_effect (LFRecord r) lastModified = Ok [].
Proof.
  intros Hhint. unfold Call.sync_effect, Call.hint_newer.
  destruct lastModified as [d|]; [|reflexivity].
  destruct (truthy_date d) eqn:Ht; [|reflexivity].
  destruct (Hhint d eq_refl Ht) as (t & -> & Hgt). simpl.
  unfold Math_floor. rewrite Hgt. reflexivity.
Qed.

Lemma call_response_idle st env :
  Call.shouldLoad st = false -> Call.call_response st env = swr_disabled.
Proof.
  intros H. unfold Call.call_response, Call.call_key. rewrite H. reflexivity.
Qed.

Lemma call_step_hit ev c :
  quiet_event (call_unchanged r) ev -> call_hit method params r c ->
  exists c', Call.step method params ev c = Ok c' /\ call_hit method params r c'.
Proof.
  destruct c as [st tbl]. intros Hq [Hload Hlf]. simpl in Hload, Hlf.
  destruct ev as [env| | |]; simpl in Hq; try contradiction.
  - (* a render *)
    unfold Call.step, Call.effects, call_hit.
    rewrite (call_response_idle st env Hload). simpl.
    assert (Hstore : forall b : bool,
               (if b then Call.store_effect method params None None
                              (lastFetchExist (Call.lastFetchedData st))
                              (Call.lastModified env) (Call.now env)
                else Ok []) = Ok []) by (intros []; reflexivity).
    destruct Hlf as [[Hnull Htbl]|Hrec].
    + rewrite Hnull in *. simpl.
      destruct (deps_changed _ _); simpl; rewrite Hstore; simpl;
        eexists; (split; [reflexivity|]); simpl; rewrite Hload; auto.
    + rewrite Hrec in *.
      rewrite (call_sync_effect_unchanged (Call.lastModified env) Hq).
      destruct (deps_changed _ _); simpl; rewrite Hstore; simpl;
        eexists; (split; [reflexivity|]); simpl; rewrite Hload; auto.
  - (* the table answers *)
    unfold Call.step, call_hit.
    destruct Hlf as [[Hnull Htbl]|Hrec].
    + rewrite Hnull. destruct (Call.sync_deps st); simpl;
        eexists; (split; [reflexivity|]); simpl; [|auto].
      split; [assumption|]. right. unfold table_get. rewrite Htbl. reflexivity.
    + rewrite Hrec. eexists; split; [reflexivity|]. simpl. auto.
Qed.

Lemma call_run_hit evs c :
  quiet (call_unchanged r) evs -> call_hit method params r c ->
  exists c', Call.run method params evs c = Ok c' /\ call_hit method params r c'.
Proof.
  intros Hq. revert c. induction Hq as [|ev evs Hev _ IH]; intros c Hc; simpl.
  - eauto.
  - destruct (call_step_hit ev c Hev Hc) as (c1 & -> & Hc1). simpl. apply IH, Hc1.
Qed.

End CallQuiet.

(** ** Loss of permission *)

Lemma deps_changed_false {D} `{EqDecision D} (prev : option D) (cur : D) :
  deps_changed prev cur = false -> prev = Some cur.
Proof.
  unfold deps_changed. destruct prev as [p|]; [|discriminate].
  case_bool_decide; [congruence|discriminate].
Qed.

Lemma is_true_false_key (s : bool) (perm : option bool) :
  is_true perm = false -> key_when (s && is_true perm) = KeyNull.
Proof. intros ->. rewrite andb_false_r. reflexivity. Qed.

Section DocDenied.
Variable doctype : string.
Variable docname : option string.

(** A render in which the permission is not granted and a record is held. *)
Lemma doc_render_denied st (tbl : Store) env r :
  doc_tombstoned doctype docname (st, tbl) ->
  Doc.lastFetched st = LFRecord r ->
  is_true (Doc.hasPermission env) = false ->
  let c' := Doc.step doctype docname (Render env) (st, tbl) in
  snd c' !! Doc.id doctype docname = None
  /\ Doc.shouldLoad (fst c') = Doc.shouldLoad st
  /\ Doc.lastFetched (fst c') = LFRecord r.
Proof.
  intros Hinv Hlf Hperm. simpl.
  unfold Doc.effects, Doc.doc_response, Doc.doc_key.
  rewrite (is_true_false_key _ _ Hperm). simpl.
  assert (Hstore : forall b : bool,
             (if b then Doc.store_effect doctype docname None None
                            (lastFetchExist (Doc.lastFetched st)) (Doc.now env)
              else []) = []) by (intros []; reflexivity).
  rewrite Hstore, app_nil_r.
  destruct (deps_changed _ _) eqn:Hch.
  - unfold Doc.sync_effect. rewrite Hperm, Hlf. simpl.
    split; [apply lookup_delete_eq|]. auto.
  - apply deps_changed_false in Hch.
    unfold doc_tombstoned in Hinv. simpl in Hinv. rewrite Hch in Hinv.
    destruct Hinv as [_ Hinv]. simpl. split; [|auto].
    apply Hinv; [reflexivity| |assumption]. rewrite Hlf. reflexivity.
Qed.

Lemma doc_step_tombstoned ev c :
  doc_tombstoned doctype docname c ->
  doc_tombstoned doctype docname (Doc.step doctype docname ev c).
Proof.
  destruct c as [st tbl]. intros Hinv.
  destruct ev as [env| | |].
  - (* a render *)
    unfold doc_tombstoned. simpl. split; [left; reflexivity|].
    intros _ Hex Hperm.
    destruct (Doc.lastFetched st) as [| |r] eqn:Hlf; try discriminate.
    apply (doc_render_denied st tbl env r Hinv Hlf Hperm).
  - (* the table answers *)
    unfold Doc.step.
    destruct (Doc.lastFetched st) eqn:Hlf; try exact Hinv.
    destruct (Doc.sync_deps st) as [[[[lf m] perm] lfe]|] eqn:Hdeps; [|exact Hinv].
    unfold doc_tombstoned in *. simpl in *. rewrite Hdeps in *.
    destruct Hinv as [Hsame _].
    assert (lf = LFNull) as -> by (destruct Hsame; congruence).
    split; [right; reflexivity|]. intros _ Hex. discriminate.
  - (* mutate *)
    unfold Doc.step, Doc.forceRefresh, doc_tombstoned in *. simpl in *.
    destruct (Doc.sync_deps st) as [[[[lf m] perm] lfe]|]; [|exact I].
    destruct (Doc.shouldLoad st); exact Hinv.
  - (* delete *)
    unfold Doc.step, Doc.forceDelete, doc_tombstoned in *. simpl in *.
    destruct (Doc.sync_deps st) as [[[[lf m] perm] lfe]|]; [|exact I].
    destruct Hinv as [Hsame Hgone]. split; [exact Hsame|].
    intros H1 H2 H3. specialize (Hgone H1 H2 H3).
    destruct (lastFetchExist (Doc.lastFetched st)); simpl; [|exact Hgone].
    apply lookup_delete_eq.
Qed.

Lemma doc_run_tombstoned evs c :
  doc_tombstoned doctype docname c ->
  doc_tombstoned doctype docname (Doc.run doctype docname evs c).
Proof.
  revert c. induction evs as [|ev evs IH]; intros c Hc; simpl; [exact Hc|].
  apply IH, doc_step_tombstoned, Hc.
Qed.

End DocDenied.

Section ListDenied.
Context `{RT : JSRuntime}.
Variable doctype : string.
Variable args : option GetDocListArgs.

Lemma list_render_denied st (tbl : Store) env r :
  list_tombstoned doctype args (st, tbl) ->
  DocList.lastFetchedList st = LFRecord r ->
  is_true (DocList.hasPermission env) = false ->
  exists c',
    DocList.step doctype args (Render env) (st, tbl) = Ok c'
    /\ snd c' !! DocList.id doctype args = None
    /\ DocList.shouldLoad (fst c') = DocList.shouldLoad st
    /\ DocList.lastFetchedList (fst c') = LFRecord r.
Proof.
  intros Hinv Hlf Hperm. simpl.
  unfold DocList.effects, DocList.list_response, DocList.list_key.
  rewrite (is_true_false_key _ _ Hperm). simpl.
  assert (Hstore : forall b : bool,
             (if b then DocList.store_effect doctype args None None
                            (lastFetchExist (DocList.lastFetchedList st))
                            (DocList.listCount env) (DocList.modified_data st env)
                            (DocList.now env)
              else Ok []) = Ok []) by (intros []; reflexivity).
  destruct (deps_changed _ _) eqn:Hch.
  - unfold DocList.sync_effect. rewrite Hperm, Hlf. simpl.
    rewrite Hstore. simpl. eexists. split; [reflexivity|]. simpl.
    split; [apply lookup_delete_eq|]. auto.
  - apply deps_changed_false in Hch.
    unfold list_tombstoned in Hinv. simpl in Hinv. rewrite Hch in Hinv.
    destruct Hinv as [_ Hinv]. simpl. rewrite Hstore. simpl.
    eexists. split; [reflexivity|]. simpl. split; [|auto].
    apply Hinv; [reflexivity| |assumption]. rewrite Hlf. reflexivity.
Qed.

Lemma list_step_tombstoned ev c c' :
  DocList.step doctype args ev c = Ok c' ->
  list_tombstoned doctype args c ->
  list_tombstoned doctype args c'.
Proof.
  destruct c as [st tbl]. intros Hstep Hinv.
  destruct ev as [env| | |].
  - (* a render *)
    simpl in Hstep.
    destruct (DocList.effects doctype args st env) as [acts|] eqn:Hacts;
      [|discriminate].
    simpl in Hstep. injection Hstep as <-.
    unfold list_tombstoned. simpl. split; [left; reflexivity|].
    intros _ Hex Hperm.
    destruct (DocList.lastFetchedList st) as [| |r] eqn:Hlf; try discriminate.
    destruct (list_render_denied st tbl env r Hinv Hlf Hperm)
      as (c1 & Hc1 & Hgone & _).
    simpl in Hc1. rewrite Hacts in Hc1. simpl in Hc1. injection Hc1 as <-.
    exact Hgone.
  - (* the table answers *)
    unfold DocList.step in Hstep.
    destruct (DocList.lastFetchedList st) eqn:Hlf;
      try (injection Hstep as <-; exact Hinv).
    destruct (DocList.sync_deps st) as [[[[[lfe lf] n] m] perm]|] eqn:Hdeps;
      injection Hstep as <-; [|unfold list_tombstoned in *; simpl in *;
                                rewrite Hdeps in *; exact Hinv].
    unfold list_tombstoned in *. simpl in *. rewrite Hdeps in *.
    destruct Hinv as [Hsame _].
    assert (lf = LFNull) as -> by (destruct Hsame; congruence).
    split; [right; reflexivity|]. intros _ Hex. discriminate.
  - (* mutate *)
    injection Hstep as <-.
    unfold DocList.forceRefresh, list_tombstoned in *. simpl in *.
    destruct (DocList.sync_deps st) as [[[[[lfe lf] n] m] perm]|]; [|exact I].
    destruct (DocList.shouldLoad st); exact Hinv.
  - (* delete *)
    injection Hstep as <-.
    unfold DocList.forceDelete, list_tombstoned in *. simpl in *.
    destruct (DocList.sync_deps st) as [[[[[lfe lf] n] m] perm]|]; [|exact I].
    destruct Hinv as [Hsame Hgone]. split; [exact Hsame|].
    intros H1 H2 H3. specialize (Hgone H1 H2 H3).
    destruct (lastFetchExist (DocList.lastFetchedList st)); simpl; [|exact Hgone].
    apply lookup_delete_eq.
Qed.

Lemma list_run_tombstoned evs c c' :
  DocList.run doctype args evs c = Ok c' ->
  list_tombstoned doctype args c ->
  list_tombstoned doctype args c'.
Proof.
  revert c. induction evs as [|ev evs IH]; intros c Hrun Hc; simpl in Hrun.
  - injection Hrun as <-. exact Hc.
  - destruct (DocList.step doctype args ev c) as [c1|] eqn:Hstep; [|discriminate].
    simpl in Hrun. apply (IH c1 Hrun). apply (list_step_tombstoned ev c c1 Hstep Hc).
Qed.

End ListDenied.

(** C2, as amended.  The hook holds a cached record [r] and renders with a
    permission answer of [false].  After that render the table has no
    record under the identity, the full fetch receives a [null] key, and
    [error] is the 403 [CustomError].  [data] is [undefined] only if the
    hook was loading from the server; otherwise it is still the payload of
    [r], which the hook keeps in its state. *)
Theorem permission_denied_tombstones `{RT : JSRuntime} :
  (forall doctype docname (tbl0 : Store) evs st tbl r env,
      Doc.run doctype docname evs (Doc.initial, tbl0) = (st, tbl) ->
      Doc.lastFetched st = LFRecord r ->
      Doc.hasPermission env = Some false ->
      let c' := Doc.step doctype docname (Render env) (st, tbl) in
      snd c' !! Doc.id doctype docname = None
      /\ fetch_issued (Doc.doc_key (fst c') env) = false
      /\ result_error (Doc.result doctype (fst c') env) = forbidden doctype
      /\ result_data (Doc.result doctype (fst c') env)
         = if Doc.shouldLoad (fst c') then None else Some (data r))
  /\
  (forall doctype args (tbl0 : Store) evs st tbl r env,
      DocList.run doctype args evs (DocList.initial, tbl0) = Ok (st, tbl) ->
      DocList.lastFetchedList st = LFRecord r ->
      DocList.hasPermission env = Some false ->
      exists c',
        DocList.step doctype args (Render env) (st, tbl) = Ok c'
        /\ snd c' !! DocList.id doctype args = None
        /\ fetch_issued (DocList.list_key (fst c') env) = false
        /\ result_error (DocList.result doctype (fst c') env) = forbidden doctype
        /\ result_data (DocList.result doctype (fst c') env)
           = if DocList.shouldLoad (fst c') then None else Some (data r)).
Proof.
  split.
  - intros doctype docname tbl0 evs st tbl r env Hrun Hlf Hperm c'.
    assert (Hinv : doc_tombstoned doctype docname (st, tbl)).
    { rewrite <- Hrun. apply doc_run_tombstoned. exact I. }
    assert (Hfalse : is_true (Doc.hasPermission env) = false) by (rewrite Hperm; reflexivity).
    destruct (doc_render_denied doctype docname st tbl env r Hinv Hlf Hfalse)
      as (Hgone & Hload & Hlf').
    fold c' in Hgone, Hload, Hlf'. clearbody c'.
    split; [exact Hgone|].
    unfold Doc.result, Doc.doc_response, Doc.doc_key.
    rewrite (is_true_false_key _ _ Hfalse). simpl. rewrite Hfalse, Hlf'.
    repeat split. all: destruct (Doc.shouldLoad (fst c')); reflexivity.
  - intros doctype args tbl0 evs st tbl r env Hrun Hlf Hperm.
    assert (Hinv : list_tombstoned doctype args (st, tbl)).
    { apply (list_run_tombstoned doctype args evs _ _ Hrun). exact I. }
    assert (Hfalse : is_true (DocList.hasPermission env) = false)
      by (rewrite Hperm; reflexivity).
    destruct (list_render_denied doctype args st tbl env r Hinv Hlf Hfalse)
      as (c' & Hstep & Hgone & Hload & Hlf').
    exists c'. split; [exact Hstep|]. split; [exact Hgone|].
    unfold DocList.result, DocList.list_response, DocList.list_key.
    rewrite (is_true_false_key _ _ Hfalse). simpl. rewrite Hfalse, Hlf'.
    repeat split. all: destruct (DocList.shouldLoad (fst c')); reflexivity.
Qed.

Lemma permission_denied_tombstones_witness :
  (let c' := Doc.step "User" (Some "alice") (Render Examples.doc_denied)
               (Doc.run "User" (Some "alice") [Render Examples.doc_pending; StoreAnswer]
                        (Doc.initial, Examples.alice_table)) in
   snd c' !! "User_alice" = None
   /\ fetch_issued (Doc.doc_key (fst c') Examples.doc_denied) = false
   /\ result_error (Doc.result "User" (fst c') Examples.doc_denied) = forbidden "User"
   /\ result_data (Doc.result "User" (fst c') Examples.doc_denied)
      = if Doc.shouldLoad (fst c') then None else Some (data Examples.alice_record))
  /\ (exists c',
        @DocList.step Reference.runtime "User" None (Render Examples.list_denied)
          ({| DocList.lastFetchedList := LFRecord Examples.users_record;
              DocList.shouldLoad := false;
              DocList.sync_deps := Some (false, LFNull, None, None, None);
              DocList.store_deps := Some None |}, Examples.users_table) = Ok c'
        /\ snd c' !! "User_" = None
        /\ fetch_issued (DocList.list_key (fst c') Examples.list_denied) = false
        /\ result_error (DocList.result "User" (fst c') Examples.list_denied)
           = forbidden "User"
        /\ result_data (DocList.result "User" (fst c') Examples.list_denied)
           = if DocList.shouldLoad (fst c') then None
             else Some (data Examples.users_record)).
Proof.
  destruct (@permission_denied_tombstones Reference.runtime) as (Hdoc & Hlist).
  split.
  - exact (Hdoc "User" (Some "alice") Examples.alice_table
                [Render Examples.doc_pending; StoreAnswer] _ _
                Examples.alice_record Examples.doc_denied
                eq_refl eq_refl eq_refl).
  - exact (Hlist "User" None Examples.users_table
                 [Render Examples.list_pending; StoreAnswer] _ _
                 Examples.users_record Examples.list_denied
                 eq_refl eq_refl eq_refl).
Defined.

(** C2 as stated fails.  The record of ["User"/"alice"] is in the table and
    the permission request answers [false]: the record is deleted and the
    error is the 403 one, but the [data] returned is the cached payload,
    not [undefined]. *)
Lemma denied_result_keeps_cached_payload :
  let c := Examples.doc_cycle Examples.doc_denied in
  Examples.alice_table !! "User_alice" = Some Examples.alice_record
  /\ snd c !! "User_alice" = None
  /\ result_error (Doc.result "User" (fst c) Examples.doc_denied) = forbidden "User"
  /\ result_data (Doc.result "User" (fst c) Examples.doc_denied)
     = Some (data Examples.alice_record)
  /\ result_data (Doc.result "User" (fst c) Examples.doc_denied) <> None.
Proof. vm_compute. repeat split; congruence. Qed.

(** ** The staleness decision of the list hook *)

Lemma count_differs_spec (listCount : option Z) (r : lastFetchType) :
  DocList.count_differs listCount r = true
  <-> exists n, listCount = Some n /\ count r <> Some n.
Proof.
  unfold DocList.count_differs. destruct listCount as [n|].
  - assert (Hn : truthy_number n || (n =? 0) = true).
    { unfold truthy_number. destruct (n =? 0); reflexivity. }
    rewrite Hn. simpl. case_bool_decide as Heq; simpl.
    + split; [discriminate|]. intros (n' & [= <-] & Hne). congruence.
    + split; [|reflexivity]. intros _. exists n. split; [reflexivity|congruence].
  - split; [discriminate|]. intros (n & ? & _). discriminate.
Qed.

(** X19.  What the list hook decides.  A list record [r] is cached and the
    permission is granted.  The one-row query on [modified] is issued
    exactly when the remote count has arrived and equals the cached count.
    A remote count that differs from the cached one turns [shouldLoad] on.
    With equal counts, the timestamp of the latest row, converted to
    milliseconds, is compared with the time of the last fetch
    ([lastFetchedOn]): [shouldLoad] is turned on when it is strictly
    greater.  When the decision leaves [shouldLoad] off, the render issues
    no full fetch. *)
Theorem list_staleness_two_stage `{RT : JSRuntime} doctype args st env r :
  DocList.lastFetchedList st = LFRecord r ->
  DocList.hasPermission env = Some true ->
  let decision :=
    DocList.sync_effect doctype args (LFRecord r) (DocList.listCount env)
                        (DocList.modified_data st env) (DocList.hasPermission env) in
  (fetch_issued (DocList.modified_key st env) = true
   <-> exists n, DocList.get_count env = Some n /\ count r = Some n)
  /\ (forall n, DocList.get_count env = Some n -> count r <> Some n ->
                decision = Ok [SetShouldLoad true])
  /\ (forall n row rest t,
         DocList.get_count env = Some n -> count r = Some n ->
         DocList.get_modified env = Some (row :: rest) ->
         convertDateToMiliseconds (row_modified row) = Ok t ->
         decision = Ok (if number_gt t (Some (lastFetchedOn r))
                        then [SetShouldLoad true] else []))
  /\ (DocList.shouldLoad st = false -> decision = Ok [] ->
      forall tbl : Store, exists st' tbl',
        DocList.step doctype args (Render env) (st, tbl) = Ok (st', tbl')
        /\ DocList.shouldLoad st' = false
        /\ fetch_issued (DocList.list_key st' env) = false).
Proof.
  intros Hlf Hperm decision.
  assert (Hcount : DocList.listCount env = DocList.get_count env).
  { unfold DocList.listCount, DocList.count_key. rewrite Hperm. reflexivity. }
  assert (Hkey : DocList.countNotChanged st env = true
                 <-> exists n, DocList.get_count env = Some n /\ count r = Some n).
  { unfold DocList.countNotChanged. rewrite Hcount, Hlf. simpl.
    destruct (DocList.get_count env) as [n|].
    - rewrite bool_decide_eq_true_2 by discriminate. simpl.
      rewrite bool_decide_eq_true. split.
      + intros Heq. exists n. split; [reflexivity|congruence].
      + intros (n' & [= <-] & ->). reflexivity.
    - rewrite bool_decide_eq_false_2 by (intros H; apply H; reflexivity). simpl.
      split; [discriminate|]. intros (n & ? & _). discriminate. }
  split; [|split; [|split]].
  - unfold DocList.modified_key, key_when.
    destruct (DocList.countNotChanged st env); simpl.
    + split; [intros _; apply Hkey; reflexivity|reflexivity].
    + split; [discriminate|]. intros H. apply Hkey in H. discriminate.
  - intros n Hn Hne. unfold decision, DocList.sync_effect.
    rewrite Hperm, Hcount. simpl.
    rewrite (proj2 (count_differs_spec (DocList.get_count env) r)); [reflexivity|].
    exists n. auto.
  - intros n row rest t Hn Hsame Hrow Hconv. unfold decision, DocList.sync_effect.
    rewrite Hperm, Hcount. simpl.
    destruct (DocList.count_differs (DocList.get_count env) r) eqn:Hd.
    { apply count_differs_spec in Hd. destruct Hd as (n' & Hn' & Hne). congruence. }
    assert (Hmod : DocList.modified_data st env = Some (row :: rest)).
    { unfold DocList.modified_data, DocList.modified_key.
      rewrite (proj2 Hkey) by eauto. simpl. exact Hrow. }
    rewrite Hmod. simpl. rewrite Hconv. simpl. reflexivity.
  - intros Hload Hdec tbl.
    unfold DocList.step, DocList.effects.
    rewrite (list_response_idle st env Hload). simpl.
    rewrite Hlf. fold decision. rewrite Hdec.
    assert (Hstore : forall b : bool,
               (if b then DocList.store_effect doctype args None None true
                              (DocList.listCount env) (DocList.modified_data st env)
                              (DocList.now env)
                else Ok []) = Ok []) by (intros []; reflexivity).
    assert (Hsync : forall b : bool, (if b then Ok [] else Ok []) = @Ok (list Action) [])
      by (intros []; reflexivity).
    rewrite Hsync. simpl. rewrite Hstore. simpl.
    eexists _, _. split; [reflexivity|].
    unfold DocList.list_key. simpl. rewrite Hload.
    split; reflexivity.
Qed.

Lemma list_staleness_two_stage_witness :
  let st := {| DocList.lastFetchedList := LFRecord Examples.users_record;
               DocList.shouldLoad := false;
               DocList.sync_deps := None; DocList.store_deps := None |} in
  let env := Examples.list_signal 5 "2024-01-05 10:00:01" in
  @DocList.sync_effect Reference.runtime "User" None (LFRecord Examples.users_record)
     (DocList.listCount env) (DocList.modified_data st env) (DocList.hasPermission env)
  = Ok [SetShouldLoad true].
Proof.
  intros st env.
  exact (proj1 (proj2 (proj2
           (@list_staleness_two_stage Reference.runtime "User" None st env
              Examples.users_record eq_refl eq_refl)))
           5 {| row_modified := "2024-01-05 10:00:01" |} [] (Some 1704448801000)
           eq_refl eq_refl eq_refl eq_refl).
Defined.

(** C4.  The second stage of the list hook compares the latest
    [modified] with the time of the last fetch, where its own comment, the
    README and the claim compare with the latest-modified value stored in
    the record; the hook writes that value and never reads it.  Five rows
    are cached, fetched on 2024-01-05 at 10:00, and the record stores the
    latest [modified] 2024-01-01 10:00:00.  The server still counts five
    rows and reports a latest [modified] of 2024-01-03: this is strictly
    newer than the stored value, yet the hook does not load, because it is
    older than the last fetch.  Conversely, when the stored [modified] is
    ahead of the time of the last fetch (a server whose zone is ahead of
    the client's), a latest [modified] equal to the stored one makes the
    hook load. *)
Lemma list_compares_with_last_fetch :
  let r := Examples.users_record in
  let env := Examples.list_signal 5 "2024-01-03 00:00:00" in
  @list_stale_as_specified Reference.runtime r 5 "2024-01-03 00:00:00" = Ok true
  /\ (exists st tbl,
         Examples.list_cycle Examples.users_table env = Ok (st, tbl)
         /\ DocList.shouldLoad st = false
         /\ fetch_issued (DocList.list_key st env) = false)
  /\ (let r' := {| _id := "User_"; name := Some "User_"; doctype := "User";
                   lastFetchedOn := 1704448800000;
                   modified := "2024-01-05 12:00:00";
                   count := Some 5; data := data r |} in
      let env' := Examples.list_signal 5 "2024-01-05 12:00:00" in
      @list_stale_as_specified Reference.runtime r' 5 "2024-01-05 12:00:00" = Ok false
      /\ exists st tbl,
           Examples.list_cycle {[ "User_" := r' ]} env' = Ok (st, tbl)
           /\ DocList.shouldLoad st = true
           /\ fetch_issued (DocList.list_key st env') = true).
Proof.
  vm_compute. split; [reflexivity|]. split.
  - eexists _, _. repeat split.
  - split; [reflexivity|]. eexists _, _. repeat split.
Qed.

(** ** The staleness decision of the call hook *)

(** A timestamp without a space has no time component: the conversion
    reads [split] of [undefined] and throws. *)
Lemma convertDateToMiliseconds_date_only `{RT : JSRuntime} (s : string) :
  split " " s !! 1%nat = None ->
  convertDateToMiliseconds s = Throw TypeError.
Proof.
  intros H. unfold convertDateToMiliseconds. rewrite H.
  destruct (split " " s !! 0%nat); reflexivity.
Qed.

(** X1.  When the hint of the call hook converts, the first effect turns
    [shouldLoad] on exactly when no record is cached, or the hint is truthy
    and its milliseconds are strictly greater than the time of the last
    fetch. *)
Lemma call_staleness_decision `{RT : JSRuntime} lastFetchedData lastModified :
  (forall d, lastModified = Some d -> truthy_date d = true ->
             exists t, convertDateToMilisecondsForGetCall d = Ok t) ->
  exists acts,
    Call.sync_effect lastFetchedData lastModified = Ok acts
    /\ (shouldLoad_actions acts false = true
        <-> lastFetchedData = LFUndefined
            \/ exists r d t,
                lastFetchedData = LFRecord r /\ lastModified = Some d
                /\ truthy_date d = true
                /\ convertDateToMilisecondsForGetCall d = Ok (Some t)
                /\ lastFetchedOn r < t).
Proof.
  intros Hconv. unfold Call.sync_effect, Call.hint_newer.
  destruct lastFetchedData as [| |r].
  - eexists. split; [reflexivity|]. simpl. split; [discriminate|].
    intros [?|(r & d & t & ? & _)]; discriminate.
  - eexists. split; [reflexivity|]. simpl. split; [auto|reflexivity].
  - destruct lastModified as [d|].
    + destruct (truthy_date d) eqn:Ht.
      * destruct (Hconv d eq_refl Ht) as (t & Hd). rewrite Hd. simpl.
        unfold Math_floor.
        destruct (number_gt t (Some (lastFetchedOn r))) eqn:Hgt;
          (eexists; split; [reflexivity|]); simpl.
        -- split; [|reflexivity]. intros _. right.
           destruct t as [t|]; [|discriminate]. simpl in Hgt.
           apply Z.ltb_lt in Hgt. exists r, d, t. auto.
        -- split; [discriminate|].
           intros [?|(r' & d' & t' & [= <-] & [= <-] & _ & Hd' & Hlt)]; [discriminate|].
           rewrite Hd in Hd'. injection Hd' as ->. simpl in Hgt.
           apply Z.ltb_ge in Hgt. lia.
      * eexists. split; [reflexivity|]. simpl. split; [discriminate|].
        intros [?|(r' & d' & t' & _ & [= <-] & Ht' & _)]; [discriminate|congruence].
    + eexists. split; [reflexivity|]. simpl. split; [discriminate|].
      intros [?|(r' & d' & t' & _ & ? & _)]; discriminate.
Qed.

(** C5.  The call ["report.totals"] is cached since 2024-01-15 and the
    caller supplies the hint ["2024-02-01"], a date without a time, as the
    documentation of the hook does.  On every runtime the first effect
    throws a [TypeError] instead of turning [shouldLoad] on, and the run of
    the hook from its mount ends with that exception. *)
Theorem date_only_hint_throws :
  (forall (RT : JSRuntime) r,
      Call.sync_effect (LFRecord r) (Some (DateString "2024-02-01")) = Throw TypeError)
  /\ (let env := Examples.call_env (Some (DateString "2024-02-01")) Examples.in_flight in
      Examples.call_run [Render env; StoreAnswer] <> Throw TypeError
      /\ Examples.call_run [Render env; StoreAnswer; Render env] = Throw TypeError).
Proof.
  split.
  - intros RT r. unfold Call.sync_effect, Call.hint_newer. simpl truthy_date.
    unfold convertDateToMilisecondsForGetCall.
    rewrite convertDateToMiliseconds_date_only by reflexivity. reflexivity.
  - vm_compute. split; [discriminate|reflexivity].
Qed.

(** ** Writing through *)

(** C6.  What the list hook stores when the full fetch has returned the
    rows [rows]: a record under the identity of the hook, stamped with the
    clock, whose payload is the object [{ ...rows }] keyed by the indices
    of the rows, and not the array that was fetched. *)
Theorem list_store_effect_spreads_rows `{RT : JSRuntime}
    doctype args rows error lastFetchExist listCount modified now :
  exists r,
    DocList.store_effect doctype args (Some rows) error lastFetchExist
                         listCount modified now
    = Ok [DbPut r]
    /\ _id r = DocList.id doctype args
    /\ lastFetchedOn r = now
    /\ data r = JObj (index_props rows)
    /\ data r <> JArr rows.
Proof.
  unfold DocList.store_effect.
  assert (Hm : exists m, DocList.stored_modified modified now = Ok m).
  { unfold DocList.stored_modified, formatedTimestamp.
    destruct modified as [[|row rest]|]; simpl; eauto.
    destruct (truthy_string (row_modified row)); simpl; eauto. }
  destruct Hm as (m & ->). simpl.
  eexists. split; [reflexivity|]. simpl. repeat split. discriminate.
Qed.

(** The same on the list of users: the table ends up with an object where
    the server returned an array of two rows. *)
Lemma list_write_through_example :
  let env := {| DocList.permission := Some {| has_permission := true |};
                DocList.get_count := Some 2;
                DocList.get_modified := None;
                DocList.get_list :=
                  {| swr_data := Some Examples.users_rows; swr_error := None;
                     swr_isLoading := false; swr_isValidating := false |};
                DocList.now := 1706800000000 |} in
  exists st tbl r,
    @DocList.run Reference.runtime "User" None [Render env; StoreAnswer; Render env; Render env]
                 (DocList.initial, ∅) = Ok (st, tbl)
    /\ tbl !! "User_" = Some r
    /\ data r = JObj [("0", JObj [("name", JStr "alice")]);
                      ("1", JObj [("name", JStr "bob")])]
    /\ data r <> JArr Examples.users_rows
    /\ result_data (DocList.result "User" st env) = Some (JArr Examples.users_rows).
Proof.
  vm_compute. eexists _, _, _. repeat split. discriminate.
Qed.

(** What the document hook stores when the full fetch has returned the
    document [d]: the payload is the document, and the record is stamped
    with the clock, so the stamps of successive writes are ordered as the
    readings of the clock are. *)
Lemma doc_store_effect_writes_through doctype docname d error lastFetchExist now :
  exists r,
    Doc.store_effect doctype docname (Some d) error lastFetchExist now = [DbPut r]
    /\ _id r = Doc.id doctype docname
    /\ lastFetchedOn r = now
    /\ data r = FrappeDoc_value d
    /\ modified r = doc_modified d.
Proof. eexists. repeat split. Qed.

(** X2.  A render of the document hook in which the hook is loading, the
    permission is granted and the document arrives puts it in the table
    under the identity of the hook, stamped with the clock of that
    render. *)
Lemma doc_render_writes_through doctype docname st (tbl : Store) env d :
  Doc.shouldLoad st = true ->
  Doc.hasPermission env = Some true ->
  swr_data (Doc.get_doc env) = Some d ->
  Doc.store_deps st <> Some (Some d) ->
  exists r,
    snd (Doc.step doctype docname (Render env) (st, tbl)) !! Doc.id doctype docname
    = Some r
    /\ data r = FrappeDoc_value d
    /\ lastFetchedOn r = Doc.now env.
Proof.
  intros Hload Hperm Hdata Hdeps. simpl.
  unfold Doc.effects, Doc.doc_response, Doc.doc_key.
  rewrite Hload, Hperm. simpl. rewrite Hdata.
  assert (Hch : deps_changed (Doc.store_deps st) (Some d) = true).
  { unfold deps_changed. destruct (Doc.store_deps st) as [p|]; [|reflexivity].
    rewrite bool_decide_eq_false_2 by congruence. reflexivity. }
  rewrite Hch. rewrite store_actions_app. simpl.
  eexists. split; [apply lookup_insert_eq|]. simpl. auto.
Qed.

(** ** A failed fetch *)

Lemma doc_sync_effect_granted_keeps_store doctype docname lastFetched modified
    hasPermission (tbl : Store) :
  is_true hasPermission = true ->
  store_actions (Doc.sync_effect doctype docname lastFetched modified hasPermission) tbl
  = tbl.
Proof.
  intros Hperm. unfold Doc.sync_effect. rewrite Hperm. simpl.
  repeat (match goal with |- context [if ?b then _ else _] => destruct b end);
    reflexivity.
Qed.

(** The second effect depends on [data] alone.  In a render in which the
    full fetch reports an error and has no data, after a render in which it
    had no data either, the effect is not run and the table is left as it
    is, whether a record is cached or not. *)
Lemma doc_fetch_error_keeps_store doctype docname st (tbl : Store) env :
  Doc.store_deps st = Some None ->
  Doc.hasPermission env = Some true ->
  swr_data (Doc.get_doc env) = None ->
  snd (Doc.step doctype docname (Render env) (st, tbl)) = tbl.
Proof.
  intros Hdeps Hperm Hdata. simpl. unfold Doc.effects.
  assert (Hnone : swr_data (Doc.doc_response st env) = None).
  { unfold Doc.doc_response, useSWR. destruct (Doc.doc_key st env); [exact Hdata|reflexivity]. }
  rewrite Hnone, Hdeps, deps_changed_same. rewrite app_nil_r.
  destruct (deps_changed _ _); [|reflexivity].
  apply doc_sync_effect_granted_keeps_store. rewrite Hperm. reflexivity.
Qed.

(** C7.  A record is cached, the hook finds it stale and loads from the
    server, and the full fetch fails.  The error is returned, and the
    cached record is still in the table.  In the call hook the branch that
    handles the error would delete [`${method}_${params}`], which is not
    the [_id] the record is stored under; in every hook that branch belongs
    to an effect whose only dependency is [data], which the failure leaves
    unchanged. *)
Theorem fetch_error_keeps_record :
  (let hint := Some (DateString "2024-02-01 00:00:00") in
   let loading := Examples.call_env hint Examples.in_flight in
   let errored := Examples.call_env hint Examples.failed in
   exists st tbl,
     Examples.call_run [Render loading; StoreAnswer; Render loading;
                        Render loading; Render errored] = Ok (st, tbl)
     /\ Call.lastFetchedData st = LFRecord Examples.totals_record
     /\ fetch_issued (Call.call_key st) = true
     /\ result_error (Call.result st errored)
        = Some (RequestError {| error_message := "Network Error" |})
     /\ tbl !! "report.totals_year=2023" = Some Examples.totals_record
     /\ @Call.store_effect Reference.runtime "report.totals"
          (Some Examples.totals_params) None
          (Some {| error_message := "Network Error" |}) true hint 1706800000000
        = Ok [DbDelete "report.totals_[object Object]"])
  /\
  (let c := Doc.run "User" (Some "alice")
              [Render Examples.doc_changed; StoreAnswer; Render Examples.doc_changed;
               Render Examples.doc_changed; Render Examples.doc_failed]
              (Doc.initial, Examples.alice_table) in
   Doc.lastFetched (fst c) = LFRecord Examples.alice_record
   /\ fetch_issued (Doc.doc_key (fst c) Examples.doc_failed) = true
   /\ result_error (Doc.result "User" (fst c) Examples.doc_failed)
      = Some (RequestError {| error_message := "Network Error" |})
   /\ snd c !! "User_alice" = Some Examples.alice_record)
  /\
  (let loading := Examples.list_signal 6 "2024-01-03 00:00:00" in
   exists st tbl,
     @DocList.run Reference.runtime "User" None
        [Render loading; StoreAnswer; Render loading; Render loading;
         Render Examples.list_failed]
        (DocList.initial, Examples.users_table) = Ok (st, tbl)
     /\ DocList.lastFetchedList st = LFRecord Examples.users_record
     /\ fetch_issued (DocList.list_key st Examples.list_failed) = true
     /\ result_error (DocList.result "User" st Examples.list_failed)
        = Some (RequestError {| error_message := "Network Error" |})
     /\ tbl !! "User_" = Some Examples.users_record).
Proof.
  split; [|split].
  - vm_compute. eexists _, _. repeat split.
  - vm_compute. repeat split.
  - vm_compute. eexists _, _. repeat split.
Qed.

(** ** Further concrete evaluations *)

Lemma call_staleness_decision_witness :
  exists acts,
    @Call.sync_effect Reference.runtime (LFRecord Examples.totals_record)
                      (Some (DateString "2024-02-01 00:00:00")) = Ok acts
    /\ (shouldLoad_actions acts false = true
        <-> LFRecord Examples.totals_record = LFUndefined
            \/ exists r d t,
                LFRecord Examples.totals_record = LFRecord r
                /\ Some (DateString "2024-02-01 00:00:00") = Some d
                /\ truthy_date d = true
                /\ @convertDateToMilisecondsForGetCall Reference.runtime d = Ok (Some t)
                /\ lastFetchedOn r < t).
Proof.
  apply (@call_staleness_decision Reference.runtime).
  intros d [= <-] _. eexists. reflexivity.
Defined.

Lemma doc_render_writes_through_witness :
  let st := {| Doc.lastFetched := LFUndefined; Doc.shouldLoad := true;
               Doc.sync_deps := None; Doc.store_deps := Some None |} in
  let env := {| Doc.permission := Some {| has_permission := true |};
                Doc.get_value := None;
                Doc.get_doc := {| swr_data := Some Examples.alice_doc; swr_error := None;
                                  swr_isLoading := false; swr_isValidating := false |};
                Doc.now := 1704103205000 |} in
  exists r,
    snd (Doc.step "User" (Some "alice") (Render env) (st, ∅)) !! "User_alice" = Some r
    /\ data r = FrappeDoc_value Examples.alice_doc
    /\ lastFetchedOn r = 1704103205000.
Proof.
  intros st env.
  apply (doc_render_writes_through "User" (Some "alice") st ∅ env Examples.alice_doc);
    [reflexivity|reflexivity|reflexivity|discriminate].
Defined.

(** * Further properties of the offline hooks *)

(** ** The keys the hooks touch *)

Lemma store_actions_frame ids acts (tbl : Store) k :
  within ids acts -> k ∉ ids -> store_actions acts tbl !! k = tbl !! k.
Proof.
  intros Hin Hk. revert tbl.
  induction Hin as [|a acts Ha _ IH]; intros tbl; [reflexivity|].
  change (store_actions (a :: acts) tbl) with (store_actions acts (store_action a tbl)).
  rewrite IH. destruct a as [b|r|id]; simpl in *; [reflexivity| |].
  - apply lookup_insert_ne. intros Heq. apply Hk. rewrite <- Heq. exact Ha.
  - apply lookup_delete_ne. intros Heq. apply Hk. rewrite <- Heq. exact Ha.
Qed.

Lemma within_app ids a b : within ids a -> within ids b -> within ids (a ++ b).
Proof. apply Forall_app_2. Qed.

Lemma within_nil ids : within ids [].
Proof. constructor. Qed.

Lemma doc_sync_effect_within doctype docname lf m perm :
  within [Doc.id doctype docname] (Doc.sync_effect doctype docname lf m perm).
Proof.
  unfold Doc.sync_effect.
  repeat (match goal with |- context [if ?b then _ else _] => destruct b end);
    repeat constructor.
Qed.

Lemma doc_store_effect_within doctype docname data error lfe now :
  within [Doc.id doctype docname] (Doc.store_effect doctype docname data error lfe now).
Proof.
  unfold Doc.store_effect. destruct data as [d|].
  - repeat constructor.
  - destruct (_ && _); repeat constructor.
Qed.

Lemma doc_effects_within doctype docname st env :
  within [Doc.id doctype docname] (Doc.effects doctype docname st env).
Proof.
  unfold Doc.effects. apply within_app.
  - destruct (deps_changed _ _); [apply doc_sync_effect_within|apply within_nil].
  - destruct (deps_changed _ _); [apply doc_store_effect_within|apply within_nil].
Qed.

Lemma doc_forceDelete_within doctype docname st :
  within [Doc.id doctype docname] (Doc.forceDelete doctype docname st).
Proof.
  unfold Doc.forceDelete. destruct (lastFetchExist _); repeat constructor.
Qed.

Lemma doc_step_frame doctype docname ev c k :
  k <> Doc.id doctype docname ->
  snd (Doc.step doctype docname ev c) !! k = snd c !! k.
Proof.
  intros Hk. destruct c as [st tbl].
  assert (Hnot : k ∉ [Doc.id doctype docname]) by (rewrite list_elem_of_singleton; exact Hk).
  destruct ev as [env| | |]; simpl.
  - apply (store_actions_frame _ _ _ _ (doc_effects_within doctype docname st env) Hnot).
  - destruct (Doc.lastFetched st), (Doc.sync_deps st); reflexivity.
  - unfold Doc.forceRefresh. destruct (Doc.shouldLoad st); reflexivity.
  - apply (store_actions_frame _ _ _ _ (doc_forceDelete_within doctype docname st) Hnot).
Qed.

Lemma doc_run_frame doctype docname evs c k :
  k <> Doc.id doctype docname ->
  snd (Doc.run doctype docname evs c) !! k = snd c !! k.
Proof.
  intros Hk. revert c. induction evs as [|ev evs IH]; intros c; simpl; [reflexivity|].
  rewrite IH. apply doc_step_frame, Hk.
Qed.

Lemma bind_two_inv (m1 m2 : Completion (list Action)) acts :
  (a1 <-! m1; a2 <-! m2; Ok (a1 ++ a2)%list) = Ok acts ->
  exists a1 a2, m1 = Ok a1 /\ m2 = Ok a2 /\ acts = (a1 ++ a2)%list.
Proof.
  destruct m1 as [a1|]; simpl; [|discriminate].
  destruct m2 as [a2|]; simpl; [|discriminate].
  intros [= <-]. eauto.
Qed.

Lemma if_ok_inv (b : bool) (m : Completion (list Action)) acts :
  (if b then m else Ok []) = Ok acts -> (b = true /\ m = Ok acts) \/ acts = [].
Proof. destruct b; [auto|]. intros [= <-]. auto. Qed.

Section ListFrame.
Context `{RT : JSRuntime}.
Variable doctype : string.
Variable args : option GetDocListArgs.

Lemma list_sync_effect_within lf n m perm acts :
  DocList.sync_effect doctype args lf n m perm = Ok acts ->
  within [DocList.id doctype args] acts.
Proof.
  unfold DocList.sync_effect. intros H.
  destruct (negb (is_true perm)).
  - injection H as <-. destruct (lastFetchExist lf); repeat constructor.
  - destruct lf as [| |r]; try (injection H as <-; repeat constructor).
    destruct (DocList.count_differs n r); [injection H as <-; repeat constructor|].
    destruct (DocList.modified_newer m r) as [[]|]; simpl in H;
      try discriminate; injection H as <-; repeat constructor.
Qed.

Lemma list_store_effect_within data error lfe n m now acts :
  DocList.store_effect doctype args data error lfe n m now = Ok acts ->
  within [DocList.id doctype args] acts.
Proof.
  unfold DocList.store_effect. intros H. destruct data as [rows|].
  - destruct (DocList.stored_modified m now); simpl in H; [|discriminate].
    injection H as <-. repeat constructor.
  - injection H as <-. destruct (_ && _); repeat constructor.
Qed.

Lemma list_effects_within st env acts :
  DocList.effects doctype args st env = Ok acts ->
  within [DocList.id doctype args] acts.
Proof.
  unfold DocList.effects. intros H.
  apply bind_two_inv in H. destruct H as (a1 & a2 & H1 & H2 & ->).
  apply within_app.
  - apply if_ok_inv in H1. destruct H1 as [[_ H1]| ->]; [|apply within_nil].
    apply (list_sync_effect_within _ _ _ _ _ H1).
  - apply if_ok_inv in H2. destruct H2 as [[_ H2]| ->]; [|apply within_nil].
    apply (list_store_effect_within _ _ _ _ _ _ _ H2).
Qed.

Lemma list_forceDelete_within st :
  within [DocList.id doctype args] (DocList.forceDelete doctype args st).
Proof.
  unfold DocList.forceDelete. destruct (lastFetchExist _); repeat constructor.
Qed.

Lemma list_step_frame ev c c' k :
  DocList.step doctype args ev c = Ok c' ->
  k <> DocList.id doctype args ->
  snd c' !! k = snd c !! k.
Proof.
  intros Hstep Hk. destruct c as [st tbl].
  assert (Hnot : k ∉ [DocList.id doctype args])
    by (rewrite list_elem_of_singleton; exact Hk).
  destruct ev as [env| | |]; simpl in Hstep.
  - destruct (DocList.effects doctype args st env) as [acts|] eqn:Hacts;
      simpl in Hstep; [|discriminate].
    injection Hstep as <-. simpl.
    apply (store_actions_frame _ _ _ _ (list_effects_within st env acts Hacts) Hnot).
  - destruct (DocList.lastFetchedList st), (DocList.sync_deps st);
      injection Hstep as <-; reflexivity.
  - injection Hstep as <-. simpl.
    unfold DocList.forceRefresh. destruct (DocList.shouldLoad st); reflexivity.
  - injection Hstep as <-. simpl.
    apply (store_actions_frame _ _ _ _ (list_forceDelete_within st) Hnot).
Qed.

Lemma list_run_frame evs c c' k :
  DocList.run doctype args evs c = Ok c' ->
  k <> DocList.id doctype args ->
  snd c' !! k = snd c !! k.
Proof.
  revert c. induction evs as [|ev evs IH]; intros c Hrun Hk; simpl in Hrun.
  - injection Hrun as <-. reflexivity.
  - destruct (DocList.step doctype args ev c) as [c1|] eqn:Hstep; [|discriminate].
    simpl in Hrun. rewrite (IH c1 Hrun Hk). apply (list_step_frame ev c c1 k Hstep Hk).
Qed.

End ListFrame.

Section CallFrame.
Context `{RT : JSRuntime}.
Variable method : string.
Variable params : option Params.

Lemma call_sync_effect_within lf hint acts :
  Call.sync_effect lf hint = Ok acts ->
  within [Call.id method params; call_error_key method params] acts.
Proof.
  unfold Call.sync_effect. intros H.
  destruct lf as [| |r]; try (injection H as <-; repeat constructor).
  destruct (Call.hint_newer hint r) as [[]|]; simpl in H;
    try discriminate; injection H as <-; repeat constructor.
Qed.

Lemma call_store_effect_within data error lfe hint now acts :
  Call.store_effect method params data error lfe hint now = Ok acts ->
  within [Call.id method params; call_error_key method params] acts.
Proof.
  unfold Call.store_effect. intros H. destruct (Call.truthy_data data).
  - destruct (Call.stored_modified hint now); simpl in H; [|discriminate].
    injection H as <-. repeat constructor.
  - injection H as <-. destruct (_ && _); [|constructor].
    constructor; [|constructor]. simpl. unfold call_error_key.
    apply elem_of_cons. right. apply list_elem_of_singleton. reflexivity.
Qed.

Lemma call_effects_within st env acts :
  Call.effects method params st env = Ok acts ->
  within [Call.id method params; call_error_key method params] acts.
Proof.
  unfold Call.effects. intros H.
  apply bind_two_inv in H. destruct H as (a1 & a2 & H1 & H2 & ->).
  apply within_app.
  - apply if_ok_inv in H1. destruct H1 as [[_ H1]| ->]; [|apply within_nil].
    apply (call_sync_effect_within _ _ _ H1).
  - apply if_ok_inv in H2. destruct H2 as [[_ H2]| ->]; [|apply within_nil].
    apply (call_store_effect_within _ _ _ _ _ _ H2).
Qed.

Lemma call_forceDelete_within st :
  within [Call.id method params; call_error_key method params]
         (Call.forceDelete method params st).
Proof.
  unfold Call.forceDelete. destruct (lastFetchExist _); repeat constructor.
Qed.

Lemma call_step_frame ev c c' k :
  Call.step method params ev c = Ok c' ->
  k <> Call.id method params -> k <> call_error_key method params ->
  snd c' !! k = snd c !! k.
Proof.
  intros Hstep Hk Hk'. destruct c as [st tbl].
  assert (Hnot : k ∉ [Call.id method params; call_error_key method params]).
  { rewrite !not_elem_of_cons. repeat split; try assumption. apply not_elem_of_nil. }
  destruct ev as [env| | |]; simpl in Hstep.
  - destruct (Call.effects method params st env) as [acts|] eqn:Hacts;
      simpl in Hstep; [|discriminate].
    injection Hstep as <-. simpl.
    apply (store_actions_frame _ _ _ _ (call_effects_within st env acts Hacts) Hnot).
  - destruct (Call.lastFetchedData st), (Call.sync_deps st);
      injection Hstep as <-; reflexivity.
  - injection Hstep as <-. simpl.
    unfold Call.forceRefresh. destruct (Call.shouldLoad st); reflexivity.
  - injection Hstep as <-. simpl.
    apply (store_actions_frame _ _ _ _ (call_forceDelete_within st) Hnot).
Qed.

Lemma call_run_frame evs c c' k :
  Call.run method params evs c = Ok c' ->
  k <> Call.id method params -> k <> call_error_key method params ->
  snd c' !! k = snd c !! k.
Proof.
  revert c. induction evs as [|ev evs IH]; intros c Hrun Hk Hk'; simpl in Hrun.
  - injection Hrun as <-. reflexivity.
  - destruct (Call.step method params ev c) as [c1|] eqn:Hstep; [|discriminate].
    simpl in Hrun. rewrite (IH c1 Hrun Hk Hk').
    apply (call_step_frame ev c c1 k Hstep Hk Hk').
Qed.

End CallFrame.

(** X3.  Whatever happens to a hook, the records of other identities are
    left alone: the document hook and the list hook only ever put or
    delete under their own [_id]; the call hook does so under its own
    [_id] and under [`${method}_${params}`], the key its error branch
    deletes. *)
Theorem hooks_touch_their_own_record `{RT : JSRuntime} :
  (forall doctype docname evs c k,
      k <> Doc.id doctype docname ->
      snd (Doc.run doctype docname evs c) !! k = snd c !! k)
  /\
  (forall doctype args evs c c' k,
      DocList.run doctype args evs c = Ok c' ->
      k <> DocList.id doctype args ->
      snd c' !! k = snd c !! k)
  /\
  (forall method params evs c c' k,
      Call.run method params evs c = Ok c' ->
      k <> Call.id method params -> k <> call_error_key method params ->
      snd c' !! k = snd c !! k).
Proof.
  split; [|split].
  - intros. apply doc_run_frame. assumption.
  - intros. eapply list_run_frame; eassumption.
  - intros. eapply call_run_frame; eassumption.
Qed.

(** ** [shouldLoad] is only turned off by [delete] *)

Lemma shouldLoad_actions_keep acts :
  never_unsets acts -> shouldLoad_actions acts true = true.
Proof.
  induction 1 as [|a acts Ha _ IH]; [reflexivity|].
  change (shouldLoad_actions (a :: acts) true)
    with (shouldLoad_actions acts (shouldLoad_action a true)).
  destruct a as [[]| |]; simpl; try exact IH. congruence.
Qed.

Lemma never_unsets_app a b : never_unsets a -> never_unsets b -> never_unsets (a ++ b).
Proof. apply Forall_app_2. Qed.

Ltac no_unset := repeat constructor; discriminate.

Lemma doc_effects_never_unset doctype docname st env :
  never_unsets (Doc.effects doctype docname st env).
Proof.
  unfold Doc.effects. apply never_unsets_app.
  - destruct (deps_changed _ _); [|constructor]. unfold Doc.sync_effect.
    repeat (match goal with |- context [if ?b then _ else _] => destruct b end);
      no_unset.
  - destruct (deps_changed _ _); [|constructor]. unfold Doc.store_effect.
    destruct (swr_data _); [no_unset|]. destruct (_ && _); no_unset.
Qed.

Lemma doc_step_latched doctype docname ev c :
  ev <> ForceDelete -> Doc.shouldLoad (fst c) = true ->
  Doc.shouldLoad (fst (Doc.step doctype docname ev c)) = true.
Proof.
  destruct c as [st tbl]. intros Hev Hload. simpl in Hload.
  destruct ev as [env| | |]; simpl; try contradiction.
  - rewrite Hload. apply shouldLoad_actions_keep, doc_effects_never_unset.
  - destruct (Doc.lastFetched st), (Doc.sync_deps st); simpl; exact Hload.
  - unfold Doc.forceRefresh. rewrite Hload. reflexivity.
Qed.

Lemma no_delete_cons {Env} (ev : Event Env) evs :
  no_delete (ev :: evs) -> ev <> ForceDelete /\ no_delete evs.
Proof.
  intros H. inversion H as [|? ? Hev Hrest]; subst. split; [|exact Hrest].
  intros ->. exact Hev.
Qed.

Lemma doc_run_latched doctype docname evs c :
  no_delete evs -> Doc.shouldLoad (fst c) = true ->
  Doc.shouldLoad (fst (Doc.run doctype docname evs c)) = true.
Proof.
  revert c. induction evs as [|ev evs IH]; intros c Hnd Hload; simpl; [exact Hload|].
  apply no_delete_cons in Hnd. destruct Hnd as [Hev Hnd].
  apply IH; [exact Hnd|]. apply doc_step_latched; assumption.
Qed.

Section ListLatch.
Context `{RT : JSRuntime}.
Variable doctype : string.
Variable args : option GetDocListArgs.

Lemma list_sync_effect_never_unsets lf n m perm acts :
  DocList.sync_effect doctype args lf n m perm = Ok acts -> never_unsets acts.
Proof.
  unfold DocList.sync_effect. intros H.
  destruct (negb (is_true perm)).
  - injection H as <-. destruct (lastFetchExist lf); no_unset.
  - destruct lf as [| |r]; try (injection H as <-; no_unset).
    destruct (DocList.count_differs n r); [injection H as <-; no_unset|].
    destruct (DocList.modified_newer m r) as [[]|]; simpl in H;
      try discriminate; injection H as <-; no_unset.
Qed.

Lemma list_store_effect_never_unsets data error lfe n m now acts :
  DocList.store_effect doctype args data error lfe n m now = Ok acts ->
  never_unsets acts.
Proof.
  unfold DocList.store_effect. intros H. destruct data as [rows|].
  - destruct (DocList.stored_modified m now); simpl in H; [|discriminate].
    injection H as <-. no_unset.
  - injection H as <-. destruct (_ && _); no_unset.
Qed.

Lemma list_effects_never_unset st env acts :
  DocList.effects doctype args st env = Ok acts -> never_unsets acts.
Proof.
  unfold DocList.effects. intros H.
  apply bind_two_inv in H. destruct H as (a1 & a2 & H1 & H2 & ->).
  apply never_unsets_app.
  - apply if_ok_inv in H1. destruct H1 as [[_ H1]| ->]; [|constructor].
    apply (list_sync_effect_never_unsets _ _ _ _ _ H1).
  - apply if_ok_inv in H2. destruct H2 as [[_ H2]| ->]; [|constructor].
    apply (list_store_effect_never_unsets _ _ _ _ _ _ _ H2).
Qed.

Lemma list_step_latched ev c c' :
  DocList.step doctype args ev c = Ok c' ->
  ev <> ForceDelete -> DocList.shouldLoad (fst c) = true ->
  DocList.shouldLoad (fst c') = true.
Proof.
  destruct c as [st tbl]. intros Hstep Hev Hload. simpl in Hload.
  destruct ev as [env| | |]; simpl in Hstep; try contradiction.
  - destruct (DocList.effects doctype args st env) as [acts|] eqn:Hacts;
      simpl in Hstep; [|discriminate].
    injection Hstep as <-. simpl. rewrite Hload.
    apply shouldLoad_actions_keep, (list_effects_never_unset st env acts Hacts).
  - destruct (DocList.lastFetchedList st), (DocList.sync_deps st);
      injection Hstep as <-; exact Hload.
  - injection Hstep as <-. simpl. unfold DocList.forceRefresh.
    rewrite Hload. reflexivity.
Qed.

Lemma list_run_latched evs c c' :
  DocList.run doctype args evs c = Ok c' ->
  no_delete evs -> DocList.shouldLoad (fst c) = true ->
  DocList.shouldLoad (fst c') = true.
Proof.
  revert c. induction evs as [|ev evs IH]; intros c Hrun Hnd Hload; simpl in Hrun.
  - injection Hrun as <-. exact Hload.
  - destruct (DocList.step doctype args ev c) as [c1|] eqn:Hstep; [|discriminate].
    simpl in Hrun. apply no_delete_cons in Hnd. destruct Hnd as [Hev Hnd].
    apply (IH c1 Hrun Hnd). apply (list_step_latched ev c c1 Hstep Hev Hload).
Qed.

End ListLatch.

Section CallLatch.
Context `{RT : JSRuntime}.
Variable method : string.
Variable params : option Params.

Lemma call_sync_effect_never_unsets lf hint acts :
  Call.sync_effect lf hint = Ok acts -> never_unsets acts.
Proof.
  unfold Call.sync_effect. intros H.
  destruct lf as [| |r]; try (injection H as <-; no_unset).
  destruct (Call.hint_newer hint r) as [[]|]; simpl in H;
    try discriminate; injection H as <-; no_unset.
Qed.

Lemma call_store_effect_never_unsets data error lfe hint now acts :
  Call.store_effect method params data error lfe hint now = Ok acts ->
  never_unsets acts.
Proof.
  unfold Call.store_effect. intros H. destruct (Call.truthy_data data).
  - destruct (Call.stored_modified hint now); simpl in H; [|discriminate].
    injection H as <-. no_unset.
  - injection H as <-. destruct (_ && _); no_unset.
Qed.

Lemma call_effects_never_unset st env acts :
  Call.effects method params st env = Ok acts -> never_unsets acts.
Proof.
  unfold Call.effects. intros H.
  apply bind_two_inv in H. destruct H as (a1 & a2 & H1 & H2 & ->).
  apply never_unsets_app.
  - apply if_ok_inv in H1. destruct H1 as [[_ H1]| ->]; [|constructor].
    apply (call_sync_effect_never_unsets _ _ _ H1).
  - apply if_ok_inv in H2. destruct H2 as [[_ H2]| ->]; [|constructor].
    apply (call_store_effect_never_unsets _ _ _ _ _ _ H2).
Qed.

Lemma call_step_latched ev c c' :
  Call.step method params ev c = Ok c' ->
  ev <> ForceDelete -> Call.shouldLoad (fst c) = true ->
  Call.shouldLoad (fst c') = true.
Proof.
  destruct c as [st tbl]. intros Hstep Hev Hload. simpl in Hload.
  destruct ev as [env| | |]; simpl in Hstep; try contradiction.
  - destruct (Call.effects method params st env) as [acts|] eqn:Hacts;
      simpl in Hstep; [|discriminate].
    injection Hstep as <-. simpl. rewrite Hload.
    apply shouldLoad_actions_keep, (call_effects_never_unset st env acts Hacts).
  - destruct (Call.lastFetchedData st), (Call.sync_deps st);
      injection Hstep as <-; exact Hload.
  - injection Hstep as <-. simpl. unfold Call.forceRefresh.
    rewrite Hload. reflexivity.
Qed.

Lemma call_run_latched evs c c' :
  Call.run method params evs c = Ok c' ->
  no_delete evs -> Call.shouldLoad (fst c) = true ->
  Call.shouldLoad (fst c') = true.
Proof.
  revert c. induction evs as [|ev evs IH]; intros c Hrun Hnd Hload; simpl in Hrun.
  - injection Hrun as <-. exact Hload.
  - destruct (Call.step method params ev c) as [c1|] eqn:Hstep; [|discriminate].
    simpl in Hrun. apply no_delete_cons in Hnd. destruct Hnd as [Hev Hnd].
    apply (IH c1 Hrun Hnd). apply (call_step_latched ev c c1 Hstep Hev Hload).
Qed.

End CallLatch.


(** ** A miss in the table turns the hook to the server *)

Lemma shouldLoad_actions_set acts b :
  never_unsets acts -> SetShouldLoad true ∈ acts -> shouldLoad_actions acts b = true.
Proof.
  intros Hnu. revert b. induction Hnu as [|a acts Ha Hnu IH]; intros b Hin.
  - inversion Hin.
  - change (shouldLoad_actions (a :: acts) b)
      with (shouldLoad_actions acts (shouldLoad_action a b)).
    apply elem_of_cons in Hin. destruct Hin as [<-|Hin].
    + simpl. apply shouldLoad_actions_keep. exact Hnu.
    + apply IH. exact Hin.
Qed.

Lemma doc_sync_effect_miss doctype docname modified perm :
  is_true perm = true ->
  Doc.sync_effect doctype docname LFUndefined modified perm = [SetShouldLoad true].
Proof. intros H. unfold Doc.sync_effect. rewrite H. reflexivity. Qed.

Lemma doc_render_miss doctype docname st tbl env :
  doc_miss_seen st ->
  Doc.lastFetched st = LFUndefined ->
  is_true (Doc.hasPermission env) = true ->
  Doc.shouldLoad (fst (Doc.step doctype docname (Render env) (st, tbl))) = true.
Proof.
  intros Hinv Hlf Hperm. simpl.
  pose proof (doc_effects_never_unset doctype docname st env) as Hnu.
  unfold Doc.effects in *. rewrite Hlf in *.
  destruct (deps_changed (Doc.sync_deps st) _) eqn:Hd.
  - apply shouldLoad_actions_set; [exact Hnu|].
    rewrite (doc_sync_effect_miss _ _ _ _ Hperm).
    apply elem_of_app. left. apply elem_of_cons. left. reflexivity.
  - apply deps_changed_false in Hd.
    rewrite (Hinv _ _ _ Hd Hperm). apply shouldLoad_actions_keep. exact Hnu.
Qed.

Lemma doc_step_miss_seen doctype docname ev c :
  ev <> ForceDelete -> doc_miss_seen (fst c) ->
  doc_miss_seen (fst (Doc.step doctype docname ev c)).
Proof.
  destruct c as [st tbl]. intros Hev Hinv.
  destruct ev as [env| | |]; try contradiction.
  - intros m perm lfe Hdeps Hp. simpl in Hdeps.
    injection Hdeps as Hlf _ <- _.
    apply (doc_render_miss doctype docname st tbl env Hinv Hlf Hp).
  - simpl in *. destruct (Doc.lastFetched st), (Doc.sync_deps st) eqn:Hsd;
      simpl; try exact Hinv.
    intros m perm lfe Hdeps Hp. simpl in *.
    apply (Hinv m perm lfe); [congruence|exact Hp].
  - intros m perm lfe Hdeps Hp. simpl in *. unfold Doc.forceRefresh.
    rewrite (Hinv _ _ _ Hdeps Hp). reflexivity.
Qed.

Lemma doc_run_miss_seen doctype docname evs c :
  no_delete evs -> doc_miss_seen (fst c) ->
  doc_miss_seen (fst (Doc.run doctype docname evs c)).
Proof.
  revert c. induction evs as [|ev evs IH]; intros c Hnd Hinv; simpl; [exact Hinv|].
  apply no_delete_cons in Hnd. destruct Hnd as [Hev Hnd].
  apply IH; [exact Hnd|]. apply doc_step_miss_seen; assumption.
Qed.

Section ListMiss.
Context `{RT : JSRuntime}.
Variable doctype : string.
Variable args : option GetDocListArgs.

Lemma list_store_effect_total data error lfe n m now :
  exists acts, DocList.store_effect doctype args data error lfe n m now = Ok acts.
Proof.
  unfold DocList.store_effect. destruct data as [rows|]; [|eauto].
  unfold DocList.stored_modified, formatedTimestamp.
  destruct m as [[|row ?]|]; simpl; eauto.
  destruct (truthy_string (row_modified row)); simpl; eauto.
Qed.

Lemma list_sync_effect_miss n m perm :
  is_true perm = true ->
  DocList.sync_effect doctype args LFUndefined n m perm = Ok [SetShouldLoad true].
Proof. intros H. unfold DocList.sync_effect. rewrite H. reflexivity. Qed.

Lemma list_effects_miss st env :
  list_miss_seen st ->
  DocList.lastFetchedList st = LFUndefined ->
  is_true (DocList.hasPermission env) = true ->
  exists acts, DocList.effects doctype args st env = Ok acts
               /\ shouldLoad_actions acts (DocList.shouldLoad st) = true.
Proof.
  intros Hinv Hlf Hperm.
  assert (Hok : exists acts, DocList.effects doctype args st env = Ok acts).
  { unfold DocList.effects. rewrite Hlf.
    rewrite (list_sync_effect_miss _ _ _ Hperm).
    destruct (deps_changed (DocList.sync_deps st) _); simpl.
    all: destruct (deps_changed (DocList.store_deps st) _); simpl; eauto.
    all: match goal with
         | |- context [DocList.store_effect _ _ ?d ?e ?l ?n ?m ?t] =>
             destruct (list_store_effect_total d e l n m t) as [a2 ->]
         end; simpl; eauto. }
  destruct Hok as [acts Hacts]. exists acts. split; [exact Hacts|].
  pose proof (list_effects_never_unset doctype args st env acts Hacts) as Hnu.
  unfold DocList.effects in Hacts. rewrite Hlf in Hacts.
  apply bind_two_inv in Hacts. destruct Hacts as (a1 & a2 & H1 & _ & ->).
  destruct (deps_changed (DocList.sync_deps st) _) eqn:Hd.
  - rewrite (list_sync_effect_miss _ _ _ Hperm) in H1. injection H1 as <-.
    apply shouldLoad_actions_set; [exact Hnu|].
    apply elem_of_app. left. apply elem_of_cons. left. reflexivity.
  - apply deps_changed_false in Hd.
    rewrite (Hinv _ _ _ _ Hd Hperm). apply shouldLoad_actions_keep. exact Hnu.
Qed.

Lemma list_step_miss_seen ev c c' :
  DocList.step doctype args ev c = Ok c' ->
  ev <> ForceDelete -> list_miss_seen (fst c) -> list_miss_seen (fst c').
Proof.
  destruct c as [st tbl]. intros Hstep Hev Hinv. simpl in Hinv.
  destruct ev as [env| | |]; simpl in Hstep; try contradiction.
  - destruct (DocList.effects doctype args st env) as [acts|] eqn:Hacts;
      simpl in Hstep; [|discriminate].
    injection Hstep as <-. intros lfe n m perm Hdeps Hp. simpl in Hdeps.
    injection Hdeps as _ Hlf _ _ <-.
    destruct (list_effects_miss st env Hinv Hlf Hp) as (acts' & Hacts' & Hload).
    rewrite Hacts in Hacts'. injection Hacts' as <-. exact Hload.
  - destruct (DocList.lastFetchedList st), (DocList.sync_deps st) eqn:Hsd;
      injection Hstep as <-; try exact Hinv.
    intros lfe n m perm Hdeps Hp. simpl in *.
    apply (Hinv lfe n m perm); [congruence|exact Hp].
  - injection Hstep as <-. intros lfe n m perm Hdeps Hp. simpl in *.
    unfold DocList.forceRefresh. rewrite (Hinv _ _ _ _ Hdeps Hp). reflexivity.
Qed.

Lemma list_run_miss_seen evs c c' :
  DocList.run doctype args evs c = Ok c' ->
  no_delete evs -> list_miss_seen (fst c) -> list_miss_seen (fst c').
Proof.
  revert c. induction evs as [|ev evs IH]; intros c Hrun Hnd Hinv; simpl in Hrun.
  - injection Hrun as <-. exact Hinv.
  - destruct (DocList.step doctype args ev c) as [c1|] eqn:Hstep; [|discriminate].
    simpl in Hrun. apply no_delete_cons in Hnd. destruct Hnd as [Hev Hnd].
    apply (IH c1 Hrun Hnd). apply (list_step_miss_seen ev c c1 Hstep Hev Hinv).
Qed.

End ListMiss.

Section CallMiss.
Context `{RT : JSRuntime}.
Variable method : string.
Variable params : option Params.

Lemma call_store_effect_total data error lfe hint now :
  valid_hint hint ->
  exists acts, Call.store_effect method params data error lfe hint now = Ok acts.
Proof.
  intros Hv. unfold Call.store_effect. destruct (Call.truthy_data data); [|eauto].
  unfold Call.stored_modified, checkTypeOfDate, formatedTimestamp.
  destruct hint as [[s|d]|]; simpl; eauto.
  - destruct (truthy_string s); simpl; eauto.
  - destruct (date_time d) as [t|] eqn:Ht; simpl; eauto.
    exfalso. apply (Hv d eq_refl Ht).
Qed.

Lemma call_effects_miss st env :
  call_miss_seen st ->
  Call.lastFetchedData st = LFUndefined ->
  valid_hint (Call.lastModified env) ->
  exists acts, Call.effects method params st env = Ok acts
               /\ shouldLoad_actions acts (Call.shouldLoad st) = true.
Proof.
  intros Hinv Hlf Hv.
  assert (Hok : exists acts, Call.effects method params st env = Ok acts).
  { unfold Call.effects. rewrite Hlf.
    change (Call.sync_effect LFUndefined (Call.lastModified env))
      with (@Ok (list Action) [SetShouldLoad true]).
    destruct (deps_changed (Call.sync_deps st) _); simpl.
    all: destruct (deps_changed (Call.store_deps st) _); simpl; eauto.
    all: match goal with
         | |- context [Call.store_effect _ _ ?d ?e ?l ?h ?t] =>
             destruct (call_store_effect_total d e l h t Hv) as [a2 ->]
         end; simpl; eauto. }
  destruct Hok as [acts Hacts]. exists acts. split; [exact Hacts|].
  pose proof (call_effects_never_unset method params st env acts Hacts) as Hnu.
  unfold Call.effects in Hacts. rewrite Hlf in Hacts.
  apply bind_two_inv in Hacts. destruct Hacts as (a1 & a2 & H1 & _ & ->).
  destruct (deps_changed (Call.sync_deps st) _) eqn:Hd.
  - injection H1 as <-.
    apply shouldLoad_actions_set; [exact Hnu|].
    apply elem_of_app. left. apply elem_of_cons. left. reflexivity.
  - apply deps_changed_false in Hd.
    rewrite (Hinv _ Hd). apply shouldLoad_actions_keep. exact Hnu.
Qed.

Lemma call_step_miss_seen ev c c' :
  Call.step method params ev c = Ok c' ->
  ev <> ForceDelete -> call_miss_seen (fst c) -> call_miss_seen (fst c').
Proof.
  destruct c as [st tbl]. intros Hstep Hev Hinv. simpl in Hinv.
  destruct ev as [env| | |]; simpl in Hstep; try contradiction.
  - destruct (Call.effects method params st env) as [acts|] eqn:Hacts;
      simpl in Hstep; [|discriminate].
    injection Hstep as <-. intros hint Hdeps. simpl in Hdeps.
    injection Hdeps as Hlf _.
    pose proof (call_effects_never_unset method params st env acts Hacts) as Hnu.
    simpl. unfold Call.effects in Hacts. rewrite Hlf in Hacts.
    apply bind_two_inv in Hacts. destruct Hacts as (a1 & a2 & H1 & _ & ->).
    destruct (deps_changed (Call.sync_deps st) _) eqn:Hd.
    + injection H1 as <-.
      apply shouldLoad_actions_set; [exact Hnu|].
      apply elem_of_app. left. apply elem_of_cons. left. reflexivity.
    + apply deps_changed_false in Hd.
      rewrite (Hinv _ Hd). apply shouldLoad_actions_keep. exact Hnu.
  - destruct (Call.lastFetchedData st), (Call.sync_deps st) eqn:Hsd;
      injection Hstep as <-; try exact Hinv.
    intros hint Hdeps. simpl in *. apply (Hinv hint). congruence.
  - injection Hstep as <-. intros hint Hdeps. simpl in *.
    unfold Call.forceRefresh. rewrite (Hinv _ Hdeps). reflexivity.
Qed.

Lemma call_run_miss_seen evs c c' :
  Call.run method params evs c = Ok c' ->
  no_delete evs -> call_miss_seen (fst c) -> call_miss_seen (fst c').
Proof.
  revert c. induction evs as [|ev evs IH]; intros c Hrun Hnd Hinv; simpl in Hrun.
  - injection Hrun as <-. exact Hinv.
  - destruct (Call.step method params ev c) as [c1|] eqn:Hstep; [|discriminate].
    simpl in Hrun. apply no_delete_cons in Hnd. destruct Hnd as [Hev Hnd].
    apply (IH c1 Hrun Hnd). apply (call_step_miss_seen ev c c1 Hstep Hev Hinv).
Qed.

End CallMiss.

(** X5.  A miss in the table sends the hook to the server.  Take a hook
    from its mount through any events other than [delete]; if the table
    has answered that there is no record, then a render (with the
    permission granted, for a document or a list; with a hint that is not
    an invalid [Date], for a call) completes with [shouldLoad] on, and the
    next render asks the server for the data. *)
Theorem cache_miss_forces_load `{RT : JSRuntime} :
  (forall doctype docname evs tbl env env2,
      let c := Doc.run doctype docname evs (Doc.initial, tbl) in
      no_delete evs ->
      Doc.lastFetched (fst c) = LFUndefined ->
      is_true (Doc.hasPermission env) = true ->
      is_true (Doc.hasPermission env2) = true ->
      let c2 := Doc.step doctype docname (Render env) c in
      Doc.shouldLoad (fst c2) = true
      /\ fetch_issued (Doc.doc_key (fst c2) env2) = true)
  /\
  (forall doctype args evs tbl c env env2,
      DocList.run doctype args evs (DocList.initial, tbl) = Ok c ->
      no_delete evs ->
      DocList.lastFetchedList (fst c) = LFUndefined ->
      is_true (DocList.hasPermission env) = true ->
      is_true (DocList.hasPermission env2) = true ->
      exists c2, DocList.step doctype args (Render env) c = Ok c2
                 /\ DocList.shouldLoad (fst c2) = true
                 /\ fetch_issued (DocList.list_key (fst c2) env2) = true)
  /\
  (forall method params evs tbl c env,
      Call.run method params evs (Call.initial, tbl) = Ok c ->
      no_delete evs ->
      Call.lastFetchedData (fst c) = LFUndefined ->
      valid_hint (Call.lastModified env) ->
      exists c2, Call.step method params (Render env) c = Ok c2
                 /\ Call.shouldLoad (fst c2) = true
                 /\ fetch_issued (Call.call_key (fst c2)) = true).
Proof.
  split; [|split].
  - intros doctype docname evs tbl env env' c Hnd Hlf Hp Hp' c'.
    assert (Hinv : doc_miss_seen (fst c)).
    { apply doc_run_miss_seen; [exact Hnd|]. intros m perm lfe Hd. discriminate. }
    assert (Hload : Doc.shouldLoad (fst c') = true).
    { subst c'. destruct c as [st tbl'].
      apply (doc_render_miss doctype docname st tbl' env Hinv Hlf Hp). }
    split; [exact Hload|]. unfold Doc.doc_key. rewrite Hload, Hp'. reflexivity.
  - intros doctype args evs tbl [st tbl'] env env' Hrun Hnd Hlf Hp Hp'.
    assert (Hinv : list_miss_seen st).
    { apply (list_run_miss_seen doctype args evs _ _ Hrun Hnd).
      intros lfe n m perm Hd. discriminate. }
    destruct (list_effects_miss doctype args st env Hinv Hlf Hp) as (acts & Hacts & Hload).
    eexists. simpl. rewrite Hacts. simpl. split; [reflexivity|]. simpl.
    split; [exact Hload|]. unfold DocList.list_key. simpl. rewrite Hload, Hp'. reflexivity.
  - intros method params evs tbl [st tbl'] env Hrun Hnd Hlf Hv.
    assert (Hinv : call_miss_seen st).
    { apply (call_run_miss_seen method params evs _ _ Hrun Hnd).
      intros hint Hd. discriminate. }
    destruct (call_effects_miss method params st env Hinv Hlf Hv) as (acts & Hacts & Hload).
    eexists. simpl. rewrite Hacts. simpl. split; [reflexivity|]. simpl.
    split; [exact Hload|]. unfold Call.call_key. simpl. rewrite Hload. reflexivity.
Qed.

(** ** Only a record that was read is deleted *)

Lemma store_actions_keeps acts (tbl : Store) k :
  deletes_nothing acts -> is_Some (tbl !! k) -> is_Some (store_actions acts tbl !! k).
Proof.
  intros Hd. revert tbl. induction Hd as [|a acts Ha _ IH]; intros tbl Hk; [exact Hk|].
  change (store_actions (a :: acts) tbl) with (store_actions acts (store_action a tbl)).
  apply IH. destruct a as [b|r|id]; simpl; [exact Hk| |contradiction].
  destruct (decide (_id r = k)) as [<-|Hne].
  - rewrite lookup_insert_eq. eauto.
  - rewrite lookup_insert_ne by exact Hne. exact Hk.
Qed.

Lemma deletes_nothing_app a b :
  deletes_nothing a -> deletes_nothing b -> deletes_nothing (a ++ b).
Proof. apply Forall_app_2. Qed.

Ltac no_deletion := repeat constructor.

Lemma doc_effects_delete_nothing doctype docname st env :
  lastFetchExist (Doc.lastFetched st) = false ->
  deletes_nothing (Doc.effects doctype docname st env).
Proof.
  intros Hlfe. unfold Doc.effects. rewrite Hlfe. apply deletes_nothing_app.
  - destruct (deps_changed _ _); [|constructor]. unfold Doc.sync_effect.
    rewrite Hlfe. simpl.
    repeat (match goal with |- context [if ?b then _ else _] => destruct b end);
      no_deletion.
  - destruct (deps_changed _ _); [|constructor]. unfold Doc.store_effect.
    destruct (swr_data _); [no_deletion|]. rewrite andb_false_r. constructor.
Qed.

Lemma doc_step_keeps doctype docname ev c k :
  lastFetchExist (Doc.lastFetched (fst (Doc.step doctype docname ev c))) = false ->
  lastFetchExist (Doc.lastFetched (fst c)) = false
  /\ (is_Some (snd c !! k) -> is_Some (snd (Doc.step doctype docname ev c) !! k)).
Proof.
  destruct c as [st tbl]. destruct ev as [env| | |]; simpl.
  - intros H. split; [exact H|]. apply store_actions_keeps.
    apply doc_effects_delete_nothing. exact H.
  - destruct (Doc.lastFetched st) eqn:Hlf, (Doc.sync_deps st); simpl;
      rewrite ?Hlf; intros H; split; auto; discriminate.
  - intros H. split; [exact H|]. apply store_actions_keeps.
    unfold Doc.forceRefresh. destruct (Doc.shouldLoad st); no_deletion.
  - intros H. split; [exact H|]. apply store_actions_keeps.
    unfold Doc.forceDelete. rewrite H. no_deletion.
Qed.

Lemma doc_run_keeps doctype docname evs c k :
  lastFetchExist (Doc.lastFetched (fst (Doc.run doctype docname evs c))) = false ->
  lastFetchExist (Doc.lastFetched (fst c)) = false
  /\ (is_Some (snd c !! k) -> is_Some (snd (Doc.run doctype docname evs c) !! k)).
Proof.
  revert c. induction evs as [|ev evs IH]; intros c H; simpl in *; [auto|].
  destruct (IH _ H) as [H1 H2].
  destruct (doc_step_keeps doctype docname ev c k H1) as [H3 H4]. auto.
Qed.

Section ListKeeps.
Context `{RT : JSRuntime}.
Variable doctype : string.
Variable args : option GetDocListArgs.

Lemma list_effects_delete_nothing st env acts :
  lastFetchExist (DocList.lastFetchedList st) = false ->
  DocList.effects doctype args st env = Ok acts -> deletes_nothing acts.
Proof.
  intros Hlfe H. unfold DocList.effects in H. rewrite Hlfe in H.
  apply bind_two_inv in H. destruct H as (a1 & a2 & H1 & H2 & ->).
  apply deletes_nothing_app.
  - apply if_ok_inv in H1. destruct H1 as [[_ H1]| ->]; [|constructor].
    unfold DocList.sync_effect in H1. rewrite Hlfe in H1.
    destruct (negb _); [injection H1 as <-; constructor|].
    destruct (DocList.lastFetchedList st); try discriminate;
      injection H1 as <-; no_deletion.
  - apply if_ok_inv in H2. destruct H2 as [[_ H2]| ->]; [|constructor].
    unfold DocList.store_effect in H2. destruct (swr_data _).
    + destruct (DocList.stored_modified _ _); simpl in H2; [|discriminate].
      injection H2 as <-. no_deletion.
    + rewrite andb_false_r in H2. injection H2 as <-. constructor.
Qed.

Lemma list_step_keeps ev c c' k :
  DocList.step doctype args ev c = Ok c' ->
  lastFetchExist (DocList.lastFetchedList (fst c')) = false ->
  lastFetchExist (DocList.lastFetchedList (fst c)) = false
  /\ (is_Some (snd c !! k) -> is_Some (snd c' !! k)).
Proof.
  destruct c as [st tbl]. destruct ev as [env| | |]; simpl; intros Hstep.
  - destruct (DocList.effects doctype args st env) as [acts|] eqn:Hacts;
      simpl in Hstep; [|discriminate].
    injection Hstep as <-. simpl. intros H. split; [exact H|].
    apply store_actions_keeps.
    apply (list_effects_delete_nothing st env acts H Hacts).
  - destruct (DocList.lastFetchedList st) eqn:Hlf, (DocList.sync_deps st);
      injection Hstep as <-; simpl; rewrite ?Hlf; intros H; split; auto; discriminate.
  - injection Hstep as <-. simpl. intros H. split; [exact H|].
    apply store_actions_keeps.
    unfold DocList.forceRefresh. destruct (DocList.shouldLoad st); no_deletion.
  - injection Hstep as <-. simpl. intros H. split; [exact H|].
    apply store_actions_keeps.
    unfold DocList.forceDelete. rewrite H. no_deletion.
Qed.

Lemma list_run_keeps evs c c' k :
  DocList.run doctype args evs c = Ok c' ->
  lastFetchExist (DocList.lastFetchedList (fst c')) = false ->
  lastFetchExist (DocList.lastFetchedList (fst c)) = false
  /\ (is_Some (snd c !! k) -> is_Some (snd c' !! k)).
Proof.
  revert c. induction evs as [|ev evs IH]; intros c Hrun H; simpl in Hrun.
  - injection Hrun as <-. auto.
  - destruct (DocList.step doctype args ev c) as [c1|] eqn:Hstep; [|discriminate].
    simpl in Hrun. destruct (IH _ Hrun H) as [H1 H2].
    destruct (list_step_keeps ev c c1 k Hstep H1) as [H3 H4]. auto.
Qed.

End ListKeeps.

Section CallKeeps.
Context `{RT : JSRuntime}.
Variable method : string.
Variable params : option Params.

Lemma call_effects_delete_nothing st env acts :
  lastFetchExist (Call.lastFetchedData st) = false ->
  Call.effects method params st env = Ok acts -> deletes_nothing acts.
Proof.
  intros Hlfe H. unfold Call.effects in H. rewrite Hlfe in H.
  apply bind_two_inv in H. destruct H as (a1 & a2 & H1 & H2 & ->).
  apply deletes_nothing_app.
  - apply if_ok_inv in H1. destruct H1 as [[_ H1]| ->]; [|constructor].
    unfold Call.sync_effect in H1.
    destruct (Call.lastFetchedData st); try discriminate;
      injection H1 as <-; no_deletion.
  - apply if_ok_inv in H2. destruct H2 as [[_ H2]| ->]; [|constructor].
    unfold Call.store_effect in H2. destruct (Call.truthy_data _).
    + destruct (Call.stored_modified _ _); simpl in H2; [|discriminate].
      injection H2 as <-. no_deletion.
    + rewrite andb_false_r in H2. injection H2 as <-. constructor.
Qed.

Lemma call_step_keeps ev c c' k :
  Call.step method params ev c = Ok c' ->
  lastFetchExist (Call.lastFetchedData (fst c')) = false ->
  lastFetchExist (Call.lastFetchedData (fst c)) = false
  /\ (is_Some (snd c !! k) -> is_Some (snd c' !! k)).
Proof.
  destruct c as [st tbl]. destruct ev as [env| | |]; simpl; intros Hstep.
  - destruct (Call.effects method params st env) as [acts|] eqn:Hacts;
      simpl in Hstep; [|discriminate].
    injection Hstep as <-. simpl. intros H. split; [exact H|].
    apply store_actions_keeps.
    apply (call_effects_delete_nothing st env acts H Hacts).
  - destruct (Call.lastFetchedData st) eqn:Hlf, (Call.sync_deps st);
      injection Hstep as <-; simpl; rewrite ?Hlf; intros H; split; auto; discriminate.
  - injection Hstep as <-. simpl. intros H. split; [exact H|].
    apply store_actions_keeps.
    unfold Call.forceRefresh. destruct (Call.shouldLoad st); no_deletion.
  - injection Hstep as <-. simpl. intros H. split; [exact H|].
    apply store_actions_keeps.
    unfold Call.forceDelete. rewrite H. no_deletion.
Qed.

Lemma call_run_keeps evs c c' k :
  Call.run method params evs c = Ok c' ->
  lastFetchExist (Call.lastFetchedData (fst c')) = false ->
  lastFetchExist (Call.lastFetchedData (fst c)) = false
  /\ (is_Some (snd c !! k) -> is_Some (snd c' !! k)).
Proof.
  revert c. induction evs as [|ev evs IH]; intros c Hrun H; simpl in Hrun.
  - injection Hrun as <-. auto.
  - destruct (Call.step method params ev c) as [c1|] eqn:Hstep; [|discriminate].
    simpl in Hrun. destruct (IH _ Hrun H) as [H1 H2].
    destruct (call_step_keeps ev c c1 k Hstep H1) as [H3 H4]. auto.
Qed.

End CallKeeps.

(** X6.  A hook deletes only a record that it has read.  Through any
    events, [delete] and the refusal of the permission and a failed fetch
    included, as long as the hook holds no record (the table has not
    answered, or has answered that there is none) every record of the
    table is still there. *)
Theorem only_a_read_record_is_deleted `{RT : JSRuntime} :
  (forall doctype docname evs c k,
      lastFetchExist (Doc.lastFetched (fst (Doc.run doctype docname evs c))) = false ->
      is_Some (snd c !! k) ->
      is_Some (snd (Doc.run doctype docname evs c) !! k))
  /\
  (forall doctype args evs c c2 k,
      DocList.run doctype args evs c = Ok c2 ->
      lastFetchExist (DocList.lastFetchedList (fst c2)) = false ->
      is_Some (snd c !! k) -> is_Some (snd c2 !! k))
  /\
  (forall method params evs c c2 k,
      Call.run method params evs c = Ok c2 ->
      lastFetchExist (Call.lastFetchedData (fst c2)) = false ->
      is_Some (snd c !! k) -> is_Some (snd c2 !! k)).
Proof.
  split; [|split].
  - intros doctype docname evs c k H. apply (doc_run_keeps doctype docname evs c k H).
  - intros doctype args evs c c2 k Hrun H.
    apply (list_run_keeps doctype args evs c c2 k Hrun H).
  - intros method params evs c c2 k Hrun H.
    apply (call_run_keeps method params evs c c2 k Hrun H).
Qed.

(** ** [delete] *)

(** X7.  [delete] on a hook that holds a record removes the record from
    the table and stops the fetch, while the hook goes on returning the
    payload it had read; a hook mounted afterwards is told by the table
    that there is no record. *)
Theorem delete_drops_the_record `{RT : JSRuntime} :
  (forall doctype docname st (tbl : Store) r env env0,
      Doc.lastFetched st = LFRecord r ->
      let c := Doc.step doctype docname ForceDelete (st, tbl) in
      snd c !! Doc.id doctype docname = None
      /\ fetch_issued (Doc.doc_key (fst c) env) = false
      /\ result_data (Doc.result doctype (fst c) env) = Some (data r)
      /\ Doc.lastFetched
           (fst (Doc.run doctype docname [Render env0; StoreAnswer] (Doc.initial, snd c)))
         = LFUndefined)
  /\
  (forall doctype args st (tbl : Store) r env env0,
      DocList.lastFetchedList st = LFRecord r ->
      exists c,
        DocList.step doctype args ForceDelete (st, tbl) = Ok c
        /\ snd c !! DocList.id doctype args = None
        /\ fetch_issued (DocList.list_key (fst c) env) = false
        /\ result_data (DocList.result doctype (fst c) env) = Some (data r)
        /\ exists c2,
             DocList.run doctype args [Render env0; StoreAnswer] (DocList.initial, snd c)
             = Ok c2
             /\ DocList.lastFetchedList (fst c2) = LFUndefined)
  /\
  (forall method params st (tbl : Store) r env env0,
      Call.lastFetchedData st = LFRecord r ->
      exists c,
        Call.step method params ForceDelete (st, tbl) = Ok c
        /\ snd c !! Call.id method params = None
        /\ fetch_issued (Call.call_key (fst c)) = false
        /\ result_data (Call.result (fst c) env) = Some (data r)
        /\ exists c2,
             Call.run method params [Render env0; StoreAnswer] (Call.initial, snd c)
             = Ok c2
             /\ Call.lastFetchedData (fst c2) = LFUndefined).
Proof.
  split; [|split].
  - intros doctype docname st tbl r env env0 Hlf c. subst c. simpl.
    unfold Doc.forceDelete, Doc.result, Doc.doc_key. rewrite Hlf. simpl.
    rewrite lookup_delete_eq. repeat split.
    unfold Doc.effects. simpl. rewrite doc_sync_effect_pending. simpl.
    unfold table_get. rewrite lookup_delete_eq. reflexivity.
  - intros doctype args st tbl r env env0 Hlf. eexists. split; [reflexivity|]. simpl.
    unfold DocList.forceDelete, DocList.result, DocList.list_key. rewrite Hlf. simpl.
    rewrite lookup_delete_eq. repeat split.
    unfold DocList.effects. simpl.
    rewrite list_sync_effect_pending. simpl.
    eexists. split; [reflexivity|]. simpl.
    unfold table_get. rewrite lookup_delete_eq. reflexivity.
  - intros method params st tbl r env env0 Hlf. eexists. split; [reflexivity|]. simpl.
    unfold Call.forceDelete, Call.result, Call.call_key. rewrite Hlf. simpl.
    rewrite lookup_delete_eq. repeat split.
    eexists. split; [reflexivity|]. simpl.
    unfold table_get. rewrite lookup_delete_eq. reflexivity.
Qed.

(** ** Nothing is written without the permission *)

Lemma store_actions_no_put acts (tbl : Store) k :
  puts_nothing acts ->
  store_actions acts tbl !! k = tbl !! k \/ store_actions acts tbl !! k = None.
Proof.
  intros Hp. revert tbl. induction Hp as [|a acts Ha _ IH]; intros tbl; [auto|].
  change (store_actions (a :: acts) tbl) with (store_actions acts (store_action a tbl)).
  destruct (IH (store_action a tbl)) as [H|H]; [|auto]. rewrite H.
  destruct a as [b|r|id]; simpl; [auto|contradiction|].
  destruct (decide (id = k)) as [<-|Hne].
  - right. apply lookup_delete_eq.
  - left. apply lookup_delete_ne. exact Hne.
Qed.

Lemma puts_nothing_app a b : puts_nothing a -> puts_nothing b -> puts_nothing (a ++ b).
Proof. apply Forall_app_2. Qed.

Lemma no_put_trans (tbl0 tbl1 tbl2 : Store) k :
  tbl1 !! k = tbl0 !! k \/ tbl1 !! k = None ->
  tbl2 !! k = tbl1 !! k \/ tbl2 !! k = None ->
  tbl2 !! k = tbl0 !! k \/ tbl2 !! k = None.
Proof. intros [H1|H1] [H2|H2]; rewrite ?H2, ?H1; auto. Qed.

Lemma doc_effects_denied_put_nothing doctype docname st env :
  is_true (Doc.hasPermission env) = false ->
  puts_nothing (Doc.effects doctype docname st env).
Proof.
  intros Hperm. unfold Doc.effects, Doc.doc_response, Doc.doc_key.
  rewrite Hperm, andb_false_r. simpl. apply puts_nothing_app.
  - destruct (deps_changed _ _); [|constructor]. unfold Doc.sync_effect.
    rewrite Hperm. simpl. destruct (lastFetchExist _); repeat constructor.
  - destruct (deps_changed _ _); [|constructor]. simpl. constructor.
Qed.

Lemma doc_step_denied doctype docname ev c k :
  match ev with
  | Render env => is_true (Doc.hasPermission env) = false
  | _ => True
  end ->
  snd (Doc.step doctype docname ev c) !! k = snd c !! k
  \/ snd (Doc.step doctype docname ev c) !! k = None.
Proof.
  destruct c as [st tbl]. destruct ev as [env| | |]; simpl; intros H.
  - apply store_actions_no_put, doc_effects_denied_put_nothing, H.
  - destruct (Doc.lastFetched st), (Doc.sync_deps st); auto.
  - apply store_actions_no_put. unfold Doc.forceRefresh.
    destruct (Doc.shouldLoad st); repeat constructor.
  - apply store_actions_no_put. unfold Doc.forceDelete.
    destruct (lastFetchExist _); repeat constructor.
Qed.

Lemma doc_run_denied doctype docname evs c k :
  never_granted Doc.hasPermission evs ->
  snd (Doc.run doctype docname evs c) !! k = snd c !! k
  \/ snd (Doc.run doctype docname evs c) !! k = None.
Proof.
  intros Hng. revert c. induction Hng as [|ev evs Hev _ IH]; intros c; simpl; [auto|].
  eapply no_put_trans; [apply (doc_step_denied doctype docname ev c k Hev)|apply IH].
Qed.

Section ListUngranted.
Context `{RT : JSRuntime}.
Variable doctype : string.
Variable args : option GetDocListArgs.

Lemma list_effects_denied_put_nothing st env acts :
  is_true (DocList.hasPermission env) = false ->
  DocList.effects doctype args st env = Ok acts -> puts_nothing acts.
Proof.
  intros Hperm H. unfold DocList.effects, DocList.list_response, DocList.list_key in H.
  rewrite Hperm, andb_false_r in H. simpl in H.
  apply bind_two_inv in H. destruct H as (a1 & a2 & H1 & H2 & ->).
  apply puts_nothing_app.
  - apply if_ok_inv in H1. destruct H1 as [[_ H1]| ->]; [|constructor].
    unfold DocList.sync_effect in H1. rewrite Hperm in H1. simpl in H1.
    injection H1 as <-. destruct (lastFetchExist _); repeat constructor.
  - apply if_ok_inv in H2. destruct H2 as [[_ H2]| ->]; [|constructor].
    simpl in H2. injection H2 as <-. constructor.
Qed.

Lemma list_step_denied ev c c' k :
  match ev with
  | Render env => is_true (DocList.hasPermission env) = false
  | _ => True
  end ->
  DocList.step doctype args ev c = Ok c' ->
  snd c' !! k = snd c !! k \/ snd c' !! k = None.
Proof.
  destruct c as [st tbl]. destruct ev as [env| | |]; simpl; intros H Hstep.
  - destruct (DocList.effects doctype args st env) as [acts|] eqn:Hacts;
      simpl in Hstep; [|discriminate].
    injection Hstep as <-. simpl.
    apply store_actions_no_put, (list_effects_denied_put_nothing st env acts H Hacts).
  - destruct (DocList.lastFetchedList st), (DocList.sync_deps st);
      injection Hstep as <-; auto.
  - injection Hstep as <-. simpl. apply store_actions_no_put.
    unfold DocList.forceRefresh. destruct (DocList.shouldLoad st); repeat constructor.
  - injection Hstep as <-. simpl. apply store_actions_no_put.
    unfold DocList.forceDelete. destruct (lastFetchExist _); repeat constructor.
Qed.

Lemma list_run_denied evs c c' k :
  never_granted DocList.hasPermission evs ->
  DocList.run doctype args evs c = Ok c' ->
  snd c' !! k = snd c !! k \/ snd c' !! k = None.
Proof.
  intros Hng. revert c. induction Hng as [|ev evs Hev _ IH]; intros c Hrun; simpl in Hrun.
  - injection Hrun as <-. auto.
  - destruct (DocList.step doctype args ev c) as [c1|] eqn:Hstep; [|discriminate].
    simpl in Hrun.
    eapply no_put_trans; [apply (list_step_denied ev c c1 k Hev Hstep)|apply (IH c1 Hrun)].
Qed.

Lemma list_step_denied_total ev c :
  match ev with
  | Render env => is_true (DocList.hasPermission env) = false
  | _ => True
  end ->
  exists c', DocList.step doctype args ev c = Ok c'.
Proof.
  destruct c as [st tbl]. destruct ev as [env| | |]; simpl; intros H; eauto.
  - unfold DocList.effects, DocList.list_response, DocList.list_key.
    rewrite H, andb_false_r. simpl.
    unfold DocList.sync_effect. rewrite H. simpl.
    destruct (deps_changed (DocList.sync_deps st) _),
             (deps_changed (DocList.store_deps st) _); simpl; eauto.
  - destruct (DocList.lastFetchedList st), (DocList.sync_deps st); eauto.
Qed.

Lemma list_run_denied_total evs c :
  never_granted DocList.hasPermission evs ->
  exists c', DocList.run doctype args evs c = Ok c'.
Proof.
  intros Hng. revert c. induction Hng as [|ev evs Hev _ IH]; intros c; simpl; [eauto|].
  destruct (list_step_denied_total ev c Hev) as [c1 ->]. simpl. apply IH.
Qed.

End ListUngranted.

(** X8.  Without the permission nothing is written.  Along a run in which
    no render sees the permission granted (it is refused, or its check is
    pending), whatever the caller does with [mutate] and [delete], every
    key of the table holds what it held before or nothing: the document
    and list hooks put no record. *)
Theorem nothing_written_without_permission `{RT : JSRuntime} :
  (forall doctype docname evs c k,
      never_granted Doc.hasPermission evs ->
      snd (Doc.run doctype docname evs c) !! k = snd c !! k
      \/ snd (Doc.run doctype docname evs c) !! k = None)
  /\
  (forall doctype args evs c,
      never_granted DocList.hasPermission evs ->
      exists c2,
        DocList.run doctype args evs c = Ok c2
        /\ forall k, snd c2 !! k = snd c !! k \/ snd c2 !! k = None).
Proof.
  split.
  - intros doctype docname evs c k H. apply (doc_run_denied doctype docname evs c k H).
  - intros doctype args evs c H.
    destruct (list_run_denied_total doctype args evs c H) as [c2 Hrun].
    exists c2. split; [exact Hrun|]. intros k.
    apply (list_run_denied doctype args evs c c2 k H Hrun).
Qed.

(** ** Exceptions of the date helpers *)

Lemma split_second sep s :
  split sep s <> [] /\ (split sep s !! 1%nat = None <-> occurs sep s = false).
Proof.
  induction s as [|c s [IHne IH]]; simpl.
  - split; [discriminate|]. split; reflexivity.
  - destruct (split sep s) as [|w ws] eqn:Hs; [contradiction|].
    destruct (Ascii.eqb c sep); simpl.
    + split; [discriminate|]. split; discriminate.
    + split; [discriminate|]. exact IH.
Qed.

(** X9.  The conversion of a hint to milliseconds fails in one way only: a
    string without a space has no time component, and reading it throws a
    [TypeError]; every string with a space, and every [Date] object,
    converts. *)
Theorem hint_conversion_needs_a_space `{RT : JSRuntime} (d : DateArg) :
  ((exists t, convertDateToMilisecondsForGetCall d = Ok t)
   <-> forall s, d = DateString s -> occurs " " s = true)
  /\ (forall e, convertDateToMilisecondsForGetCall d = Throw e ->
        e = TypeError /\ exists s, d = DateString s /\ occurs " " s = false).
Proof.
  destruct d as [s|dt]; simpl.
  2:{ split; [split; [intros _ s' [=]|eauto]|intros e [=]]. }
  destruct (split_second " " s) as [Hne Hsnd].
  unfold convertDateToMiliseconds.
  destruct (split " " s) as [|w ws] eqn:Hs; [contradiction|]. simpl in *.
  destruct (ws !! 0%nat) as [tm|] eqn:Htm; simpl.
  - assert (Hocc : occurs " " s = true).
    { destruct (occurs " " s); [reflexivity|]. destruct Hsnd as [_ Hsnd].
      specialize (Hsnd eq_refl). discriminate. }
    split; [split; [intros _ s' [= <-]; exact Hocc|eauto]|intros e [=]].
  - assert (Hocc : occurs " " s = false) by (apply Hsnd; reflexivity).
    split.
    + split; [intros [t [=]]|]. intros H. specialize (H s eq_refl). congruence.
    + intros e [= <-]. split; [reflexivity|]. eauto.
Qed.

(** X10.  Storing the answer of a call throws in one case only: the data
    are truthy and the hint is an invalid [Date] object, whose
    [toISOString] raises a [RangeError]. *)
Theorem call_store_effect_throws `{RT : JSRuntime} method params data error lfe hint
    now e :
  Call.store_effect method params data error lfe hint now = Throw e
  <-> e = RangeError /\ Call.truthy_data data = true
      /\ exists d, hint = Some (DateObject d) /\ date_time d = None.
Proof.
  unfold Call.store_effect, Call.stored_modified, checkTypeOfDate, formatedTimestamp.
  destruct (Call.truthy_data data).
  2:{ split; [discriminate|]. intros (_ & [=] & _). }
  destruct hint as [[s|d]|]; simpl.
  - destruct (truthy_string s); simpl; (split; [discriminate|]);
      intros (_ & _ & d & [=] & _).
  - destruct (date_time d) as [t|] eqn:Ht; simpl.
    + split; [discriminate|]. intros (_ & _ & d' & [= <-] & H). congruence.
    + split; [intros [= <-]; eauto|]. intros (-> & _). reflexivity.
  - split; [discriminate|]. intros (_ & _ & d & [=] & _).
Qed.

(** ** What is written is what is served *)



(** * The hooks that change the server *)

Lemma mutation_handler_safe k ev n st :
  Mutation.loading st && Mutation.isCompleted st = false ->
  let st' := Mutation.apply (take n (Mutation.setters k ev)) st in
  Mutation.loading st' && Mutation.isCompleted st' = false.
Proof.
  intros H.
  destruct k, ev; do 5 (try destruct n as [|n]); simpl;
    try exact H; try reflexivity; try apply andb_false_r;
    destruct (Mutation.loading st); try reflexivity; exact H.
Qed.

Lemma mutation_observed_safe k evs n st :
  Mutation.loading st && Mutation.isCompleted st = false ->
  let st' := Mutation.apply (take n (flat_map (Mutation.setters k) evs)) st in
  Mutation.loading st' && Mutation.isCompleted st' = false.
Proof.
  revert n st. induction evs as [|ev evs IH]; intros n st H; simpl.
  - rewrite take_nil. exact H.
  - rewrite take_app. unfold Mutation.apply. rewrite foldl_app.
    apply IH. apply (mutation_handler_safe k ev n st H).
Qed.

(** X12.  The hooks that create, update and delete documents and that
    post, put and delete calls never report [loading] and [isCompleted]
    together: not after any number of the state updates of any sequence of
    calls, answers and resets, overlapping requests included. *)
Theorem mutation_never_loading_and_completed k evs n :
  Mutation.loading (Mutation.observed k evs n)
  && Mutation.isCompleted (Mutation.observed k evs n) = false.
Proof. apply (mutation_observed_safe k evs n Mutation.initial). reflexivity. Qed.

Lemma mutation_sequential_from k evs ev st pending :
  Mutation.sequential pending (evs ++ [ev]) = true ->
  (pending = true -> Mutation.error st = None /\ Mutation.result st = None) ->
  (k = Mutation.OfDoc -> Mutation.result st = None) ->
  foldl (fun st ev => Mutation.apply (Mutation.setters k ev) st) st (evs ++ [ev])
  = Mutation.after k ev.
Proof.
  revert st pending. induction evs as [|e0 evs IH]; intros st pending Hseq Hp Hdoc.
  - destruct st as [res ld err cp]. simpl in *.
    destruct ev as [|m|e|]; simpl in Hseq.
    + destruct k; simpl; [rewrite (Hdoc eq_refl)|]; reflexivity.
    + rewrite andb_true_r in Hseq. destruct (Hp Hseq) as [-> _].
      destruct k; simpl; [rewrite (Hdoc eq_refl)|]; reflexivity.
    + rewrite andb_true_r in Hseq. destruct (Hp Hseq) as [_ ->].
      destruct k; reflexivity.
    + destruct k; simpl; [rewrite (Hdoc eq_refl)|]; reflexivity.
  - rewrite <- app_comm_cons in *.
    simpl foldl. destruct st as [res ld err cp]. simpl in Hp, Hdoc.
    destruct e0 as [|m|e|]; simpl in Hseq.
    + apply andb_true_iff in Hseq. destruct Hseq as [_ Hseq].
      apply (IH _ true Hseq).
      * intros _. destruct k; simpl; [split; [reflexivity|auto]|auto].
      * intros ->. simpl. auto.
    + apply andb_true_iff in Hseq. destruct Hseq as [_ Hseq].
      apply (IH _ false Hseq); [discriminate|]. intros ->. simpl. auto.
    + apply andb_true_iff in Hseq. destruct Hseq as [_ Hseq].
      apply (IH _ false Hseq); [discriminate|]. intros ->. simpl. auto.
    + apply (IH _ pending Hseq).
      * intros Hpd. destruct k; simpl; [split; [reflexivity|auto]|auto].
      * intros ->. simpl. auto.
Qed.

(** X13.  When the caller waits for the answer of one request before it
    sends the next, what a mutation hook reports is fixed by the last
    event alone: a call leaves it loading with no error and no result, an
    answer completed with the message as result (where the hook has one)
    and no error, a failure with the error and neither result nor
    completion, and a reset as it was mounted. *)
Theorem mutation_state_follows_last_event k evs ev :
  Mutation.sequential false (evs ++ [ev]) = true ->
  Mutation.run k (evs ++ [ev]) = Mutation.after k ev.
Proof.
  intros Hseq. unfold Mutation.run.
  apply (mutation_sequential_from k evs ev Mutation.initial false Hseq);
    [discriminate|reflexivity].
Qed.

Section UploadSequential.
Context `{RT : JSRuntime}.

Lemma upload_sequential_from evs st pending :
  FileUpload.sequential pending evs = true ->
  FileUpload.settled pending st ->
  let st' := foldl (fun st ev => FileUpload.apply (FileUpload.setters ev) st) st evs in
  (FileUpload.isCompleted st' = true ->
   FileUpload.progress st' = number_of_Z 100
   /\ FileUpload.loading st' = false /\ FileUpload.error st' = None)
  /\ (is_Some (FileUpload.error st') ->
      FileUpload.isCompleted st' = false /\ FileUpload.loading st' = false).
Proof.
  revert st pending. induction evs as [|ev evs IH]; intros st pending Hseq Hst.
  - simpl. unfold FileUpload.settled in Hst. destruct pending.
    + destruct Hst as [He Hc]. split.
      * intros H. congruence.
      * intros [e H]. congruence.
    + destruct Hst as [Hc Hl]. split.
      * intros H. destruct (Hc H) as [? ?]. auto.
      * intros [e H]. split; [|exact Hl].
        destruct (FileUpload.isCompleted st) eqn:Hcp; [|reflexivity].
        destruct (Hc eq_refl) as [_ ?]. congruence.
  - simpl foldl. destruct st as [pr ld err cp]. unfold FileUpload.settled in Hst. simpl in Hst.
    destruct ev as [|percent| |e|]; simpl in Hseq.
    + apply andb_true_iff in Hseq. destruct Hseq as [_ Hseq].
      apply (IH _ true Hseq). simpl. auto.
    + apply andb_true_iff in Hseq. destruct Hseq as [-> Hseq].
      apply (IH _ true Hseq). simpl. exact Hst.
    + apply andb_true_iff in Hseq. destruct Hseq as [-> Hseq].
      apply (IH _ false Hseq). simpl. destruct Hst as [-> _]. auto.
    + apply andb_true_iff in Hseq. destruct Hseq as [-> Hseq].
      apply (IH _ false Hseq). simpl. destruct Hst as [_ ->].
      split; [discriminate|reflexivity].
    + apply (IH _ pending Hseq). destruct pending; simpl.
      * auto.
      * split; [discriminate|reflexivity].
Qed.

End UploadSequential.

(** X14.  With one upload at a time, a completed upload shows the whole
    of it and no error: when [isCompleted] is true the progress is 100,
    [loading] is false and [error] is null; and when there is an error the
    upload is neither completed nor loading. *)
Theorem upload_completed_is_full `{RT : JSRuntime} evs :
  FileUpload.sequential false evs = true ->
  let st := FileUpload.run evs in
  (FileUpload.isCompleted st = true ->
   FileUpload.progress st = number_of_Z 100
   /\ FileUpload.loading st = false /\ FileUpload.error st = None)
  /\ (is_Some (FileUpload.error st) ->
      FileUpload.isCompleted st = false /\ FileUpload.loading st = false).
Proof.
  intros Hseq. apply (upload_sequential_from evs FileUpload.initial false Hseq).
  simpl. split; [discriminate|reflexivity].
Qed.

(** * Logging out *)

Lemma auth_effects_keep_store indexdb ev (tbl : Store) :
  Auth.store_effects (Auth.effects indexdb ev) tbl = tbl.
Proof. destruct ev; reflexivity. Qed.

(** X15.  Logging in and out never deletes the local database.  [logout]
    passes the function that deletes it as the result of a [then] callback
    and nobody calls it: through any sequence of logins and logouts the
    table keeps every record, although the function, if invoked, empties
    the table of a context that holds a database. *)
Theorem logout_keeps_the_database :
  (forall indexdb evs (tbl : Store), Auth.run indexdb evs tbl = tbl)
  /\ (forall indexdb, Auth.DeleteDatabase ∉ fst (Auth.logout indexdb))
  /\ (forall tbl : Store,
        Auth.store_effects (Auth.invoke (Auth.deleteDatabase true)) tbl = ∅).
Proof.
  split; [|split].
  - intros indexdb evs. induction evs as [|ev evs IH]; intros tbl; [reflexivity|].
    simpl. rewrite auth_effects_keep_store. apply IH.
  - intros indexdb. simpl. intros H.
    repeat (apply elem_of_cons in H; destruct H as [H|H]; [discriminate|]).
    inversion H.
  - reflexivity.
Qed.

(** * Debouncing *)

Lemma debounce_invariant st ev :
  match Debounce.timer st with
  | Some v => v = Debounce.latest st
  | None => Debounce.debouncedValue st = Debounce.latest st
  end ->
  match Debounce.timer (Debounce.step st ev) with
  | Some v => v = Debounce.latest (Debounce.step st ev)
  | None => Debounce.debouncedValue (Debounce.step st ev)
            = Debounce.latest (Debounce.step st ev)
  end.
Proof.
  intros H. destruct ev as [value delay|]; simpl.
  - case_bool_decide; [exact H|reflexivity].
  - destruct (Debounce.timer st) as [v|] eqn:Ht; simpl; [exact H|].
    rewrite Ht. exact H.
Qed.

Lemma debounce_run_invariant value delay evs :
  let st := Debounce.run value delay evs in
  match Debounce.timer st with
  | Some v => v = Debounce.latest st
  | None => Debounce.debouncedValue st = Debounce.latest st
  end.
Proof.
  unfold Debounce.run. induction evs as [|ev evs IH] using rev_ind; [reflexivity|].
  rewrite foldl_app. simpl. apply debounce_invariant. exact IH.
Qed.

(** X16.  The debounced value never settles on a stale text.  After any
    renders and timer runs, a pending timer is the one of the latest
    render and will store its value; when no timer is pending the
    debounced value is the value of the latest render; so whenever the
    timer runs the debounced value becomes the latest value. *)
Theorem debounce_settles_on_latest value delay evs :
  let st := Debounce.run value delay evs in
  (forall v, Debounce.timer st = Some v -> v = Debounce.latest st)
  /\ (Debounce.timer st = None -> Debounce.debouncedValue st = Debounce.latest st)
  /\ Debounce.debouncedValue (Debounce.run value delay (evs ++ [Debounce.Fire]))
     = Debounce.latest st.
Proof.
  intros st. pose proof (debounce_run_invariant value delay evs) as H.
  cbv zeta in H. fold st in H. split; [|split].
  - intros v Hv. rewrite Hv in H. exact H.
  - intros Hn. rewrite Hn in H. exact H.
  - unfold Debounce.run. rewrite foldl_app. simpl. fold (Debounce.run value delay evs).
    fold st. destruct (Debounce.timer st) as [v|]; simpl; exact H.
Qed.

(** * Query strings *)

Lemma append_when_falsy {A} (x : option A) (is_truthy : A -> bool)
    (piece : A -> string) (q : string) :
  append_when (x ≫= (fun a => if is_truthy a then Some a else None)) is_truthy piece q
  = append_when x is_truthy piece q.
Proof.
  destruct x as [a|]; simpl; [|reflexivity].
  destruct (is_truthy a) eqn:H; simpl; [rewrite H|]; reflexivity.
Qed.

(** X17.  Falsy arguments of a list do not count.  The query string of
    arguments with [limit_start: 0], [limit: 0] or [asDict: false] is the
    one of the arguments without them, and leaving the arguments out is
    giving none; so the list hook keeps such lists under one identity in
    the table. *)
Theorem falsy_list_arguments_are_dropped `{RT : JSRuntime} doctype args :
  getDocListQueryString (Some args) = getDocListQueryString (Some (without_falsy args))
  /\ DocList.id doctype (Some args) = DocList.id doctype (Some (without_falsy args))
  /\ getDocListQueryString None = ""
  /\ DocList.id doctype None = DocList.id doctype (Some no_args).
Proof.
  assert (H : getDocListQueryString (Some args)
              = getDocListQueryString (Some (without_falsy args))).
  { unfold getDocListQueryString. simpl.
    rewrite (append_when_falsy (limit_start args) truthy_number).
    rewrite (append_when_falsy (limit args) truthy_number).
    rewrite (append_when_falsy (asDict args) (fun b => b)).
    reflexivity. }
  split; [exact H|]. split; [|split; reflexivity].
  unfold DocList.id. rewrite H. reflexivity.
Qed.

(** * Instances *)

Lemma hooks_touch_their_own_record_witness :
  let tbl : Store := <["User_bob" := Examples.alice_record]> Examples.alice_table in
  let evs := [Render Examples.doc_denied; StoreAnswer; Render Examples.doc_denied;
              ForceDelete] in
  snd (Doc.run "User" (Some "alice") evs (Doc.initial, tbl)) !! "User_bob"
  = Some Examples.alice_record.
Proof.
  intros tbl evs.
  rewrite (proj1 (@hooks_touch_their_own_record Reference.runtime)
             "User" (Some "alice") evs (Doc.initial, tbl) "User_bob");
    [reflexivity|discriminate].
Defined.


Lemma cache_miss_forces_load_witness :
  let c := Doc.run "User" (Some "alice") [Render Examples.doc_unchanged; StoreAnswer]
                   (Doc.initial, ∅) in
  let c2 := Doc.step "User" (Some "alice") (Render Examples.doc_unchanged) c in
  Doc.shouldLoad (fst c2) = true
  /\ fetch_issued (Doc.doc_key (fst c2) Examples.doc_changed) = true.
Proof.
  apply (proj1 (@cache_miss_forces_load Reference.runtime)
           "User" (Some "alice") [Render Examples.doc_unchanged; StoreAnswer] ∅
           Examples.doc_unchanged Examples.doc_changed);
    [repeat constructor|reflexivity|reflexivity|reflexivity].
Defined.

Lemma only_a_read_record_is_deleted_witness :
  is_Some (snd (Doc.run "User" (Some "alice") [Render Examples.doc_denied; ForceDelete]
                        (Doc.initial, Examples.alice_table)) !! "User_alice").
Proof.
  apply (proj1 (@only_a_read_record_is_deleted Reference.runtime)
           "User" (Some "alice") [Render Examples.doc_denied; ForceDelete]
           (Doc.initial, Examples.alice_table) "User_alice");
    [reflexivity|]. exists Examples.alice_record. reflexivity.
Defined.

Lemma nothing_written_without_permission_witness :
  let evs := [Render Examples.doc_pending; StoreAnswer; ForceRefresh;
              Render Examples.doc_denied] in
  let c := (Doc.initial, Examples.alice_table) in
  snd (Doc.run "User" (Some "alice") evs c) !! "User_alice" = snd c !! "User_alice"
  \/ snd (Doc.run "User" (Some "alice") evs c) !! "User_alice" = None.
Proof.
  intros evs c.
  apply (proj1 (@nothing_written_without_permission Reference.runtime)
           "User" (Some "alice") evs c "User_alice").
  repeat constructor.
Defined.


Lemma mutation_state_follows_last_event_witness :
  let e := {| error_message := "Network Error" |} in
  Mutation.run Mutation.OfCall
    ([Mutation.Invoke; Mutation.Rejected e; Mutation.Reset; Mutation.Invoke]
     ++ [Mutation.Fulfilled (JNum 1)])
  = Mutation.after Mutation.OfCall (Mutation.Fulfilled (JNum 1)).
Proof.
  intros e.
  apply (mutation_state_follows_last_event Mutation.OfCall
           [Mutation.Invoke; Mutation.Rejected e; Mutation.Reset; Mutation.Invoke]
           (Mutation.Fulfilled (JNum 1))).
  reflexivity.
Defined.

Lemma upload_completed_is_full_witness :
  let st := @FileUpload.run Reference.runtime
              [FileUpload.Upload; @FileUpload.Progress Reference.runtime (Some 40);
               FileUpload.Fulfilled] in
  (FileUpload.isCompleted st = true ->
   FileUpload.progress st = Some 100
   /\ FileUpload.loading st = false /\ FileUpload.error st = None)
  /\ (is_Some (FileUpload.error st) ->
      FileUpload.isCompleted st = false /\ FileUpload.loading st = false).
Proof.
  apply (@upload_completed_is_full Reference.runtime
           [FileUpload.Upload; @FileUpload.Progress Reference.runtime (Some 40);
               FileUpload.Fulfilled]).
  reflexivity.
Defined.

Lemma delete_drops_the_record_witness :
  let st := {| Doc.lastFetched := LFRecord Examples.alice_record;
               Doc.shouldLoad := true;
               Doc.sync_deps := None; Doc.store_deps := None |} in
  let c := Doc.step "User" (Some "alice") ForceDelete (st, Examples.alice_table) in
  snd c !! "User_alice" = None
  /\ fetch_issued (Doc.doc_key (fst c) Examples.doc_unchanged) = false
  /\ result_data (Doc.result "User" (fst c) Examples.doc_unchanged)
     = Some (FrappeDoc_value Examples.alice_doc)
  /\ Doc.lastFetched
       (fst (Doc.run "User" (Some "alice") [Render Examples.doc_unchanged; StoreAnswer]
                     (Doc.initial, snd c)))
     = LFUndefined.
Proof.
  intros st.
  apply (proj1 (@delete_drops_the_record Reference.runtime)
           "User" (Some "alice") st Examples.alice_table Examples.alice_record
           Examples.doc_unchanged Examples.doc_unchanged).
  reflexivity.
Defined.

(** * A cache hit of the list hook that fetches *)

Lemma list_mount_reads_record `{RT : JSRuntime} doctype args (tbl : Store) r env :
  tbl !! DocList.id doctype args = Some r ->
  DocList.run doctype args [Render env; StoreAnswer] (DocList.initial, tbl)
  = Ok ({| DocList.lastFetchedList := LFRecord r;
           DocList.shouldLoad := false;
           DocList.sync_deps :=
             Some (false, LFNull, DocList.listCount env,
                   DocList.modified_data DocList.initial env,
                   DocList.hasPermission env);
           DocList.store_deps := Some None |}, tbl).
Proof.
  intros Htbl. simpl. unfold DocList.effects. simpl.
  rewrite list_sync_effect_pending. simpl.
  unfold table_get. rewrite Htbl. reflexivity.
Qed.

(** C1.  The list hook fetches on a cache hit.  A list record [r] is in
    the table, the permission is granted, and the signal is the cached
    record itself: the remote count is the cached count and the latest
    [modified] on the server is the latest-modified value stored in [r],
    so it is not newer and the rule as specified says not stale.  When that
    stored value is later than the time of the last fetch (a server whose
    clock or zone is ahead of the client's), the mount cycle ends with
    [shouldLoad] on: the full fetch is issued, and the [data] returned is
    what the fetch has, not the cached payload. *)
Theorem list_cache_hit_refetches `{RT : JSRuntime} doctype args (tbl : Store) r env
    n rest t :
  tbl !! DocList.id doctype args = Some r ->
  DocList.hasPermission env = Some true ->
  DocList.get_count env = Some n ->
  count r = Some n ->
  DocList.get_modified env = Some ({| row_modified := modified r |} :: rest) ->
  convertDateToMiliseconds (modified r) = Ok (Some t) ->
  lastFetchedOn r < t ->
  list_stale_as_specified r n (modified r) = Ok false
  /\ exists st tbl',
       DocList.run doctype args [Render env; StoreAnswer; Render env]
                   (DocList.initial, tbl) = Ok (st, tbl')
       /\ DocList.shouldLoad st = true
       /\ fetch_issued (DocList.list_key st env) = true
       /\ result_data (DocList.result doctype st env)
          = JArr <$> swr_data (DocList.get_list env).
Proof.
  intros Htbl Hperm Hn Hcount Hmod Hconv Hlt. split.
  - unfold list_stale_as_specified. rewrite Hcount.
    rewrite bool_decide_eq_true_2 by reflexivity. simpl.
    rewrite Hconv. simpl. rewrite Z.ltb_irrefl. reflexivity.
  - change [Render env; StoreAnswer; Render env]
      with ([Render env; StoreAnswer] ++ [Render env])%list.
    assert (Hrun : forall evs1 evs2 c c1,
               DocList.run doctype args evs1 c = Ok c1 ->
               DocList.run doctype args (evs1 ++ evs2) c
               = DocList.run doctype args evs2 c1).
    { induction evs1 as [|ev evs1 IH]; intros evs2 c c1 H; simpl in *.
      - injection H as <-. reflexivity.
      - destruct (DocList.step doctype args ev c) as [c0|]; simpl in *; [|discriminate].
        apply IH, H. }
    rewrite (Hrun _ _ _ _ (list_mount_reads_record doctype args tbl r env Htbl)).
    assert (Hlc : DocList.listCount env = Some n).
    { unfold DocList.listCount, DocList.count_key. rewrite Hperm. exact Hn. }
    assert (Hmd : forall sl sd sd',
               DocList.modified_data
                 {| DocList.lastFetchedList := LFRecord r; DocList.shouldLoad := sl;
                    DocList.sync_deps := sd; DocList.store_deps := sd' |} env
               = DocList.get_modified env).
    { intros sl sd sd'.
      unfold DocList.modified_data, DocList.modified_key, DocList.countNotChanged.
      simpl. rewrite Hlc, Hcount.
      rewrite (bool_decide_eq_true_2 (Some n ≠ None)) by discriminate.
      rewrite (bool_decide_eq_true_2 (Some n = Some n)) by reflexivity.
      reflexivity. }
    simpl. unfold DocList.effects. simpl.
    unfold DocList.sync_effect, DocList.count_differs, DocList.modified_newer,
      DocList.list_response, DocList.list_key.
    simpl. rewrite Hperm, Hlc, Hcount, !Hmd. simpl.
    rewrite (bool_decide_eq_true_2 (Some n = Some n)) by reflexivity.
    simpl. rewrite andb_false_r. rewrite Hmod. simpl. rewrite Hconv. simpl.
    rewrite (proj2 (Z.ltb_lt _ _) Hlt). simpl.
    eexists _, _. split; [reflexivity|]. simpl.
    unfold DocList.result, DocList.list_response, DocList.list_key. simpl.
    rewrite ?Hperm. simpl. auto.
Qed.

Lemma list_cache_hit_refetches_witness :
  let r := {| _id := "User_"; name := Some "User_"; doctype := "User";
              lastFetchedOn := 1704448800000;
              modified := "2024-01-05 12:00:00";
              count := Some 5; data := data Examples.users_record |} in
  let env := Examples.list_signal 5 "2024-01-05 12:00:00" in
  @list_stale_as_specified Reference.runtime r 5 (modified r) = Ok false
  /\ exists st tbl',
       @DocList.run Reference.runtime "User" None [Render env; StoreAnswer; Render env]
                    (DocList.initial, {[ "User_" := r ]}) = Ok (st, tbl')
       /\ DocList.shouldLoad st = true
       /\ fetch_issued (DocList.list_key st env) = true
       /\ result_data (DocList.result "User" st env)
          = JArr <$> swr_data (DocList.get_list env).
Proof.
  intros r env.
  apply (@list_cache_hit_refetches Reference.runtime "User" None {[ "User_" := r ]} r
           env 5 [] 1704456000000);
    [reflexivity|reflexivity|reflexivity|reflexivity|reflexivity|reflexivity|].
  simpl. lia.
Defined.

(** * Cache hits *)

Lemma doc_run_app doctype docname evs1 evs2 c :
  Doc.run doctype docname (evs1 ++ evs2) c
  = Doc.run doctype docname evs2 (Doc.run doctype docname evs1 c).
Proof. revert c. induction evs1 as [|ev evs1 IH]; intros c; simpl; [reflexivity|apply IH]. Qed.

Lemma doc_answer_reads doctype docname r evs1 env0 evs2 (tbl : Store) :
  tbl !! Doc.id doctype docname = Some r ->
  quiet (doc_unchanged r) (evs1 ++ Render env0 :: StoreAnswer :: evs2) ->
  Doc.lastFetched
    (fst (Doc.run doctype docname (evs1 ++ Render env0 :: StoreAnswer :: evs2)
                  (Doc.initial, tbl)))
  = LFRecord r.
Proof.
  intros Htbl Hq. apply Forall_app in Hq. destruct Hq as [Hq1 Hq].
  apply Forall_cons in Hq. destruct Hq as [Hq0 Hq].
  apply Forall_cons in Hq. destruct Hq as [_ Hq2].
  rewrite doc_run_app.
  assert (H1 : doc_hit doctype docname r
                 (Doc.run doctype docname evs1 (Doc.initial, tbl))).
  { apply doc_run_hit; [exact Hq1|]. split; [reflexivity|]. left. auto. }
  destruct (Doc.run doctype docname evs1 (Doc.initial, tbl)) as [st1 tbl1].
  pose proof (doc_step_hit doctype docname r (Render env0) (st1, tbl1) Hq0 H1) as H2.
  change (Doc.run doctype docname (Render env0 :: StoreAnswer :: evs2) (st1, tbl1))
    with (Doc.run doctype docname evs2
            (Doc.step doctype docname StoreAnswer
               (Doc.step doctype docname (Render env0) (st1, tbl1)))).
  assert (Hdeps : Doc.sync_deps (fst (Doc.step doctype docname (Render env0) (st1, tbl1)))
                  <> None) by (simpl; discriminate).
  destruct (Doc.step doctype docname (Render env0) (st1, tbl1)) as [st2 tbl2].
  simpl in Hdeps.
  assert (H3 : Doc.lastFetched (fst (Doc.step doctype docname StoreAnswer (st2, tbl2)))
               = LFRecord r).
  { destruct H2 as [_ [[Hnull Hr]|Hrec]]; simpl in *.
    - rewrite Hnull. destruct (Doc.sync_deps st2); [|contradiction]. simpl.
      unfold table_get. rewrite Hr. reflexivity.
    - rewrite Hrec. exact Hrec. }
  pose proof (doc_step_hit doctype docname r StoreAnswer (st2, tbl2) I H2) as H4.
  pose proof (doc_run_hit doctype docname r evs2 _ Hq2 H4) as H5.
  destruct H5 as [_ [[Hnull _]|Hrec]]; [|exact Hrec].
  exfalso.
  destruct (doc_run_keeps doctype docname evs2
              (Doc.step doctype docname StoreAnswer (st2, tbl2)) "") as [Hno _].
  { rewrite Hnull. reflexivity. }
  rewrite H3 in Hno. discriminate.
Qed.

Lemma bind_Ok {A B} (a : A) (f : A -> Completion B) : bind (Ok a) f = f a.
Proof. reflexivity. Qed.

Section ListAnswer.
Context `{RT : JSRuntime}.
Variable doctype : string.
Variable args : option GetDocListArgs.
Variable r : lastFetchType.

Lemma list_run_app evs1 evs2 c c1 :
  DocList.run doctype args evs1 c = Ok c1 ->
  DocList.run doctype args (evs1 ++ evs2) c = DocList.run doctype args evs2 c1.
Proof.
  revert c. induction evs1 as [|ev evs1 IH]; intros c H; simpl in *.
  - injection H as <-. reflexivity.
  - destruct (DocList.step doctype args ev c) as [c0|]; simpl in *; [|discriminate].
    apply IH, H.
Qed.

Lemma list_run_cons ev evs c :
  DocList.run doctype args (ev :: evs) c
  = (c' <-! DocList.step doctype args ev c; DocList.run doctype args evs c').
Proof. reflexivity. Qed.

Lemma list_answer_reads evs1 env0 evs2 (tbl : Store) c :
  tbl !! DocList.id doctype args = Some r ->
  quiet (list_unchanged r) (evs1 ++ Render env0 :: StoreAnswer :: evs2) ->
  DocList.run doctype args (evs1 ++ Render env0 :: StoreAnswer :: evs2)
              (DocList.initial, tbl) = Ok c ->
  DocList.lastFetchedList (fst c) = LFRecord r.
Proof.
  intros Htbl Hq Hrun. apply Forall_app in Hq. destruct Hq as [Hq1 Hq].
  apply Forall_cons in Hq. destruct Hq as [Hq0 Hq].
  apply Forall_cons in Hq. destruct Hq as [_ Hq2].
  destruct (list_run_hit doctype args r evs1 (DocList.initial, tbl) Hq1)
    as (c1 & Hrun1 & H1).
  { split; [reflexivity|]. left. auto. }
  rewrite (list_run_app _ _ _ _ Hrun1) in Hrun.
  destruct (list_step_hit doctype args r (Render env0) c1 Hq0 H1) as (c2 & Hstep2 & H2).
  assert (Hdeps : DocList.sync_deps (fst c2) <> None).
  { destruct c1 as [st1 tbl1]. simpl in Hstep2.
    destruct (DocList.effects doctype args st1 env0); simpl in Hstep2; [|discriminate].
    injection Hstep2 as <-. simpl. discriminate. }
  destruct (list_step_hit doctype args r StoreAnswer c2 I H2) as (c3 & Hstep3 & H3).
  assert (Hrec3 : DocList.lastFetchedList (fst c3) = LFRecord r).
  { destruct c2 as [st2 tbl2]. simpl in Hstep3, Hdeps.
    destruct H2 as [_ [[Hnull Hr]|Hrec]]; simpl in *.
    - rewrite Hnull in Hstep3. destruct (DocList.sync_deps st2); [|contradiction].
      injection Hstep3 as <-. simpl. unfold table_get. rewrite Hr. reflexivity.
    - rewrite Hrec in Hstep3. injection Hstep3 as <-. exact Hrec. }
  assert (Hrun' : DocList.run doctype args evs2 c3 = Ok c).
  { rewrite list_run_cons, Hstep2, bind_Ok in Hrun.
    rewrite list_run_cons, Hstep3, bind_Ok in Hrun. exact Hrun. }
  destruct (list_run_hit doctype args r evs2 c3 Hq2 H3) as (c4 & Hrun4 & H4).
  rewrite Hrun4 in Hrun'. injection Hrun' as <-.
  destruct H4 as [_ [[Hnull _]|Hrec]]; [|exact Hrec].
  exfalso.
  destruct (list_run_keeps doctype args evs2 c3 c4 "" Hrun4) as [Hno _].
  { rewrite Hnull. reflexivity. }
  rewrite Hrec3 in Hno. discriminate.
Qed.

End ListAnswer.

Section CallAnswer.
Context `{RT : JSRuntime}.
Variable method : string.
Variable params : option Params.
Variable r : lastFetchType.

Lemma call_run_app evs1 evs2 c c1 :
  Call.run method params evs1 c = Ok c1 ->
  Call.run method params (evs1 ++ evs2) c = Call.run method params evs2 c1.
Proof.
  revert c. induction evs1 as [|ev evs1 IH]; intros c H; simpl in *.
  - injection H as <-. reflexivity.
  - destruct (Call.step method params ev c) as [c0|]; simpl in *; [|discriminate].
    apply IH, H.
Qed.

Lemma call_run_cons ev evs c :
  Call.run method params (ev :: evs) c
  = (c' <-! Call.step method params ev c; Call.run method params evs c').
Proof. reflexivity. Qed.

Lemma call_answer_reads evs1 env0 evs2 (tbl : Store) c :
  tbl !! Call.id method params = Some r ->
  quiet (call_unchanged r) (evs1 ++ Render env0 :: StoreAnswer :: evs2) ->
  Call.run method params (evs1 ++ Render env0 :: StoreAnswer :: evs2)
           (Call.initial, tbl) = Ok c ->
  Call.lastFetchedData (fst c) = LFRecord r.
Proof.
  intros Htbl Hq Hrun. apply Forall_app in Hq. destruct Hq as [Hq1 Hq].
  apply Forall_cons in Hq. destruct Hq as [Hq0 Hq].
  apply Forall_cons in Hq. destruct Hq as [_ Hq2].
  destruct (call_run_hit method params r evs1 (Call.initial, tbl) Hq1)
    as (c1 & Hrun1 & H1).
  { split; [reflexivity|]. left. auto. }
  rewrite (call_run_app _ _ _ _ Hrun1) in Hrun.
  destruct (call_step_hit method params r (Render env0) c1 Hq0 H1) as (c2 & Hstep2 & H2).
  assert (Hdeps : Call.sync_deps (fst c2) <> None).
  { destruct c1 as [st1 tbl1]. simpl in Hstep2.
    destruct (Call.effects method params st1 env0); simpl in Hstep2; [|discriminate].
    injection Hstep2 as <-. simpl. discriminate. }
  destruct (call_step_hit method params r StoreAnswer c2 I H2) as (c3 & Hstep3 & H3).
  assert (Hrec3 : Call.lastFetchedData (fst c3) = LFRecord r).
  { destruct c2 as [st2 tbl2]. simpl in Hstep3, Hdeps.
    destruct H2 as [_ [[Hnull Hr]|Hrec]]; simpl in *.
    - rewrite Hnull in Hstep3. destruct (Call.sync_deps st2); [|contradiction].
      injection Hstep3 as <-. simpl. unfold table_get. rewrite Hr. reflexivity.
    - rewrite Hrec in Hstep3. injection Hstep3 as <-. exact Hrec. }
  assert (Hrun' : Call.run method params evs2 c3 = Ok c).
  { rewrite call_run_cons, Hstep2, bind_Ok in Hrun.
    rewrite call_run_cons, Hstep3, bind_Ok in Hrun. exact Hrun. }
  destruct (call_run_hit method params r evs2 c3 Hq2 H3) as (c4 & Hrun4 & H4).
  rewrite Hrun4 in Hrun'. injection Hrun' as <-.
  destruct H4 as [_ [[Hnull _]|Hrec]]; [|exact Hrec].
  exfalso.
  destruct (call_run_keeps method params evs2 c3 c4 "" Hrun4) as [Hno _].
  { rewrite Hnull. reflexivity. }
  rewrite Hrec3 in Hno. discriminate.
Qed.

End CallAnswer.

(** X18.  A record [r] is in the table under the identity of the hook.
    Along any run from the mount in which the caller leaves [mutate] and
    [delete] alone and every render sees a signal that the hook takes as
    unchanged (document: the server's [modified] is the stored one; list:
    the count is the cached one and the latest [modified] is not later
    than the time of the last fetch; call: no [lastModified] hint later
    than the time of the last fetch), [shouldLoad] stays [false], so the
    full fetch receives a [null] key at every render; and in every such
    run in which the table answers after a render, the [data] returned is
    the payload of [r]. *)
Theorem cache_hit_skips_fetch `{RT : JSRuntime} :
  (forall doctype docname (tbl : Store) r evs,
      tbl !! Doc.id doctype docname = Some r ->
      quiet (doc_unchanged r) evs ->
      let st := fst (Doc.run doctype docname evs (Doc.initial, tbl)) in
      Doc.shouldLoad st = false
      /\ (forall env, fetch_issued (Doc.doc_key st env) = false)
      /\ (forall evs1 env0 evs2,
             evs = (evs1 ++ Render env0 :: StoreAnswer :: evs2)%list ->
             forall env, result_data (Doc.result doctype st env) = Some (data r)))
  /\
  (forall doctype args (tbl : Store) r evs,
      tbl !! DocList.id doctype args = Some r ->
      quiet (list_unchanged r) evs ->
      exists st tbl',
        DocList.run doctype args evs (DocList.initial, tbl) = Ok (st, tbl')
        /\ DocList.shouldLoad st = false
        /\ (forall env, fetch_issued (DocList.list_key st env) = false)
        /\ (forall evs1 env0 evs2,
               evs = (evs1 ++ Render env0 :: StoreAnswer :: evs2)%list ->
               forall env, result_data (DocList.result doctype st env) = Some (data r)))
  /\
  (forall method params (tbl : Store) r evs,
      tbl !! Call.id method params = Some r ->
      quiet (call_unchanged r) evs ->
      exists st tbl',
        Call.run method params evs (Call.initial, tbl) = Ok (st, tbl')
        /\ Call.shouldLoad st = false
        /\ fetch_issued (Call.call_key st) = false
        /\ (forall evs1 env0 evs2,
               evs = (evs1 ++ Render env0 :: StoreAnswer :: evs2)%list ->
               forall env, result_data (Call.result st env) = Some (data r))).
Proof.
  split; [|split].
  - intros doctype docname tbl r evs Htbl Hq st.
    assert (Hhit : doc_hit doctype docname r (Doc.run doctype docname evs (Doc.initial, tbl))).
    { apply doc_run_hit; [assumption|]. split; [reflexivity|]. left. auto. }
    destruct Hhit as [Hload Hlf]. fold st in Hload, Hlf.
    split; [assumption|]. split.
    + intros env. unfold Doc.doc_key. rewrite Hload. reflexivity.
    + intros evs1 env0 evs2 Hevs env. subst evs.
      pose proof (doc_answer_reads doctype docname r evs1 env0 evs2 tbl Htbl Hq) as Hrec.
      fold st in Hrec. unfold Doc.result. simpl. rewrite Hload, Hrec. reflexivity.
  - intros doctype args tbl r evs Htbl Hq.
    destruct (list_run_hit doctype args r evs (DocList.initial, tbl) Hq)
      as ([st tbl'] & Hrun & Hload & Hlf).
    { split; [reflexivity|]. left. auto. }
    simpl in Hload, Hlf.
    exists st, tbl'. split; [assumption|]. split; [assumption|]. split.
    + intros env. unfold DocList.list_key. rewrite Hload. reflexivity.
    + intros evs1 env0 evs2 Hevs env. subst evs.
      pose proof (list_answer_reads doctype args r evs1 env0 evs2 tbl _ Htbl Hq Hrun)
        as Hrec.
      simpl in Hrec. unfold DocList.result. simpl. rewrite Hload, Hrec. reflexivity.
  - intros method params tbl r evs Htbl Hq.
    destruct (call_run_hit method params r evs (Call.initial, tbl) Hq)
      as ([st tbl'] & Hrun & Hload & Hlf).
    { split; [reflexivity|]. left. auto. }
    simpl in Hload, Hlf.
    exists st, tbl'. split; [assumption|]. split; [assumption|]. split.
    + unfold Call.call_key. rewrite Hload. reflexivity.
    + intros evs1 env0 evs2 Hevs env. subst evs.
      pose proof (call_answer_reads method params r evs1 env0 evs2 tbl _ Htbl Hq Hrun)
        as Hrec.
      simpl in Hrec. unfold Call.result. simpl. rewrite Hload, Hrec. reflexivity.
Qed.

Lemma cache_hit_skips_fetch_witness :
  (let st := fst (Examples.doc_cycle Examples.doc_unchanged) in
   Doc.shouldLoad st = false
   /\ (forall env, fetch_issued (Doc.doc_key st env) = false)
   /\ (forall env, result_data (Doc.result "User" st env)
                   = Some (data Examples.alice_record)))
  /\ (let env := Examples.list_signal 5 "2024-01-01 10:00:00" in
      exists st tbl',
        Examples.list_cycle Examples.users_table env = Ok (st, tbl')
        /\ DocList.shouldLoad st = false
        /\ (forall env, fetch_issued (DocList.list_key st env) = false)
        /\ (forall env, result_data (DocList.result "User" st env)
                        = Some (data Examples.users_record)))
  /\ (let env := Examples.call_env None Examples.in_flight in
      exists st tbl',
        Examples.call_run [Render env; StoreAnswer; Render env] = Ok (st, tbl')
        /\ Call.shouldLoad st = false
        /\ fetch_issued (Call.call_key st) = false
        /\ (forall env, result_data (Call.result st env)
                        = Some (data Examples.totals_record))).
Proof.
  destruct (@cache_hit_skips_fetch Reference.runtime) as (Hdoc & Hlist & Hcall).
  split; [|split].
  - destruct (Hdoc "User" (Some "alice") Examples.alice_table Examples.alice_record
                [Render Examples.doc_unchanged; StoreAnswer; Render Examples.doc_unchanged])
      as (H1 & H2 & H3).
    + reflexivity.
    + repeat constructor; intros m [= <-]; reflexivity.
    + split; [exact H1|]. split; [exact H2|].
      apply (H3 [] Examples.doc_unchanged [Render Examples.doc_unchanged]). reflexivity.
  - destruct (Hlist "User" None Examples.users_table Examples.users_record
                [Render (Examples.list_signal 5 "2024-01-01 10:00:00"); StoreAnswer;
                 Render (Examples.list_signal 5 "2024-01-01 10:00:00")])
      as (st & tbl' & H0 & H1 & H2 & H3).
    + reflexivity.
    + repeat constructor.
      * intros n [= <-]. reflexivity.
      * intros row rest [= <- <-]. eexists. split; reflexivity.
      * intros n [= <-]. reflexivity.
      * intros row rest [= <- <-]. eexists. split; reflexivity.
    + exists st, tbl'. split; [exact H0|]. split; [exact H1|]. split; [exact H2|].
      apply (H3 [] (Examples.list_signal 5 "2024-01-01 10:00:00")
                [Render (Examples.list_signal 5 "2024-01-01 10:00:00")]). reflexivity.
  - destruct (Hcall "report.totals" (Some Examples.totals_params) Examples.totals_table
                Examples.totals_record
                [Render (Examples.call_env None Examples.in_flight); StoreAnswer;
                 Render (Examples.call_env None Examples.in_flight)])
      as (st & tbl' & H0 & H1 & H2 & H3).
    + reflexivity.
    + repeat constructor; intros d [=].
    + exists st, tbl'. split; [exact H0|]. split; [exact H1|]. split; [exact H2|].
      apply (H3 [] (Examples.call_env None Examples.in_flight)
                [Render (Examples.call_env None Examples.in_flight)]). reflexivity.
Defined.

(** * The latch *)

Lemma list_run_app_inv `{RT : JSRuntime} doctype args evs1 evs2 c c2 :
  DocList.run doctype args (evs1 ++ evs2) c = Ok c2 ->
  exists c1, DocList.run doctype args evs1 c = Ok c1
             /\ DocList.run doctype args evs2 c1 = Ok c2.
Proof.
  revert c. induction evs1 as [|ev evs1 IH]; intros c H; simpl in *; [eauto|].
  destruct (DocList.step doctype args ev c) as [c0|]; simpl in *; [|discriminate].
  apply IH, H.
Qed.

Lemma call_run_app_inv `{RT : JSRuntime} method params evs1 evs2 c c2 :
  Call.run method params (evs1 ++ evs2) c = Ok c2 ->
  exists c1, Call.run method params evs1 c = Ok c1
             /\ Call.run method params evs2 c1 = Ok c2.
Proof.
  revert c. induction evs1 as [|ev evs1 IH]; intros c H; simpl in *; [eauto|].
  destruct (Call.step method params ev c) as [c0|]; simpl in *; [|discriminate].
  apply IH, H.
Qed.

Lemma no_delete_drop {Env} n (evs : list (Event Env)) :
  no_delete evs -> no_delete (drop n evs).
Proof. apply Forall_drop. Qed.

(** X4.  [shouldLoad] is a latch that only [delete] releases.  Along any
    events other than [delete], a [shouldLoad] that is on stays on,
    whatever the later signals report.  And on a hook whose [delete] is
    never called, [shouldLoad] is on from the first call of [mutate], also
    when the [mutate] that is called was created by an earlier render and
    reads the [shouldLoad] of that render: [take n evs1] is the run up to
    the render that created it. *)
Theorem shouldLoad_is_latched `{RT : JSRuntime} :
  (forall doctype docname,
      (forall evs c,
          no_delete evs -> Doc.shouldLoad (fst c) = true ->
          Doc.shouldLoad (fst (Doc.run doctype docname evs c)) = true)
      /\ (forall evs1 evs2 (tbl : Store) n,
             no_delete evs1 -> no_delete evs2 ->
             let seen := fst (Doc.run doctype docname (take n evs1) (Doc.initial, tbl)) in
             let c1 := Doc.run doctype docname evs1 (Doc.initial, tbl) in
             Doc.shouldLoad
               (fst (Doc.run doctype docname evs2
                             (Doc.update (fst c1) (Doc.forceRefresh seen), snd c1)))
             = true))
  /\
  (forall doctype args,
      (forall evs c c2,
          no_delete evs -> DocList.shouldLoad (fst c) = true ->
          DocList.run doctype args evs c = Ok c2 ->
          DocList.shouldLoad (fst c2) = true)
      /\ (forall evs1 evs2 (tbl : Store) n seen c1 c2,
             no_delete evs1 -> no_delete evs2 ->
             DocList.run doctype args (take n evs1) (DocList.initial, tbl) = Ok seen ->
             DocList.run doctype args evs1 (DocList.initial, tbl) = Ok c1 ->
             DocList.run doctype args evs2
               (DocList.update (fst c1) (DocList.forceRefresh (fst seen)), snd c1)
             = Ok c2 ->
             DocList.shouldLoad (fst c2) = true))
  /\
  (forall method params,
      (forall evs c c2,
          no_delete evs -> Call.shouldLoad (fst c) = true ->
          Call.run method params evs c = Ok c2 ->
          Call.shouldLoad (fst c2) = true)
      /\ (forall evs1 evs2 (tbl : Store) n seen c1 c2,
             no_delete evs1 -> no_delete evs2 ->
             Call.run method params (take n evs1) (Call.initial, tbl) = Ok seen ->
             Call.run method params evs1 (Call.initial, tbl) = Ok c1 ->
             Call.run method params evs2
               (Call.update (fst c1) (Call.forceRefresh (fst seen)), snd c1)
             = Ok c2 ->
             Call.shouldLoad (fst c2) = true)).
Proof.
  split; [|split].
  - intros doctype docname. split.
    + intros evs c Hnd Hload. apply doc_run_latched; assumption.
    + intros evs1 evs2 tbl n Hnd1 Hnd2 seen c1.
      apply doc_run_latched; [exact Hnd2|]. simpl.
      unfold Doc.forceRefresh. destruct (Doc.shouldLoad seen) eqn:Hseen; [|reflexivity].
      simpl. subst c1. rewrite <- (take_drop n evs1), doc_run_app. fold seen.
      apply doc_run_latched; [apply no_delete_drop, Hnd1|exact Hseen].
  - intros doctype args. split.
    + intros evs c c2 Hnd Hload Hrun.
      apply (list_run_latched doctype args evs c c2 Hrun Hnd Hload).
    + intros evs1 evs2 tbl n seen c1 c2 Hnd1 Hnd2 Hseen Hrun1 Hrun2.
      apply (list_run_latched doctype args evs2 _ c2 Hrun2 Hnd2). simpl.
      unfold DocList.forceRefresh.
      destruct (DocList.shouldLoad (fst seen)) eqn:Hs; [|reflexivity]. simpl.
      rewrite <- (take_drop n evs1) in Hrun1.
      apply list_run_app_inv in Hrun1. destruct Hrun1 as (c0 & H0 & Hrun1).
      rewrite Hseen in H0. injection H0 as <-.
      apply (list_run_latched doctype args (drop n evs1) seen c1 Hrun1);
        [apply no_delete_drop, Hnd1|exact Hs].
  - intros method params. split.
    + intros evs c c2 Hnd Hload Hrun.
      apply (call_run_latched method params evs c c2 Hrun Hnd Hload).
    + intros evs1 evs2 tbl n seen c1 c2 Hnd1 Hnd2 Hseen Hrun1 Hrun2.
      apply (call_run_latched method params evs2 _ c2 Hrun2 Hnd2). simpl.
      unfold Call.forceRefresh.
      destruct (Call.shouldLoad (fst seen)) eqn:Hs; [|reflexivity]. simpl.
      rewrite <- (take_drop n evs1) in Hrun1.
      apply call_run_app_inv in Hrun1. destruct Hrun1 as (c0 & H0 & Hrun1).
      rewrite Hseen in H0. injection H0 as <-.
      apply (call_run_latched method params (drop n evs1) seen c1 Hrun1);
        [apply no_delete_drop, Hnd1|exact Hs].
Qed.

Lemma shouldLoad_is_latched_witness :
  let evs1 := [Render Examples.doc_unchanged; StoreAnswer;
               Render Examples.doc_unchanged; ForceRefresh;
               Render Examples.doc_unchanged] in
  let seen := fst (Doc.run "User" (Some "alice") (take 3 evs1)
                           (Doc.initial, Examples.alice_table)) in
  let c1 := Doc.run "User" (Some "alice") evs1 (Doc.initial, Examples.alice_table) in
  Doc.shouldLoad
    (fst (Doc.run "User" (Some "alice")
            [Render Examples.doc_denied; Render Examples.doc_unchanged]
            (Doc.update (fst c1) (Doc.forceRefresh seen), snd c1)))
  = true.
Proof.
  intros evs1.
  apply (proj2 (proj1 (@shouldLoad_is_latched Reference.runtime) "User" (Some "alice"))
           evs1 [Render Examples.doc_denied; Render Examples.doc_unchanged]
           Examples.alice_table 3%nat);
    repeat constructor.
Defined.
